(** * build_notes: the note-site builder of tools/build_notes.py

    A shallow embedding of the Python program and the properties of its
    sanitizers, metadata extractor, date parser, grouping and emitters.

    Conventions.
    - A Python [str] is a [string]; a character is a code point in
      U+0000..U+00FF, represented by [ascii].  The character classes of
      [str.strip], [str.lower] and of the regular-expression escapes
      [\s], [\w], [\d] are those of CPython on that range.
    - A [pathlib.Path] is the list of its components ([Path.parts]).
    - A [dict] is an association list in insertion order.
    - Exceptions and [sys.exit] are values of [exn]; a computation
      threads the state of the run: the file system of the host and the
      lines printed on the two standard streams. *)

From Stdlib Require Import Bool Arith ZArith Lia List Ascii String.
From Stdlib Require Import Permutation Sorted DecimalString.
Import ListNotations.
Open Scope list_scope.
Open Scope string_scope.
Open Scope nat_scope.
Set Warnings "-register-all,-abstract-large-number".

(** ** Python strings *)

Module Py.

Definition ord (c : ascii) : nat := nat_of_ascii c.

Definition between (lo hi : nat) (c : ascii) : bool :=
  (lo <=? ord c) && (ord c <=? hi).

(** [str.isspace] on one character: TAB..CR, FS..US, SPACE, NEL, NBSP. *)
Definition isspace (c : ascii) : bool :=
  between 9 13 c || between 28 32 c || (ord c =? 133) || (ord c =? 160).

(** Unicode category Nd: the decimal digits. *)
Definition isdecimal (c : ascii) : bool := between 48 57 c.

Definition isupper (c : ascii) : bool :=
  between 65 90 c || between 192 214 c || between 216 222 c.

Definition isalpha (c : ascii) : bool :=
  between 65 90 c || between 97 122 c
  || (ord c =? 170) || (ord c =? 181) || (ord c =? 186)
  || between 192 214 c || between 216 246 c || between 248 255 c.

(** Superscript digits and vulgar fractions: numeric but not decimal. *)
Definition isnumeric_other (c : ascii) : bool :=
  (ord c =? 178) || (ord c =? 179) || (ord c =? 185) || between 188 190 c.

Definition isalnum (c : ascii) : bool :=
  isalpha c || isdecimal c || isnumeric_other c.

(** Letters that have a case: the alphabetic ones (the two ordinal
    indicators count as lowercase). *)
Definition iscased (c : ascii) : bool := isalpha c.

Definition lower_char (c : ascii) : ascii :=
  if isupper c then ascii_of_nat (ord c + 32) else c.

(** Uppercase of one character, where it is again one character of the
    range; the sharp s becomes two letters and is handled by [title]. *)
Definition upper_char (c : ascii) : ascii :=
  if between 97 122 c || between 224 246 c || between 248 254 c
  then ascii_of_nat (ord c - 32) else c.

Fixpoint map (f : ascii -> ascii) (s : string) : string :=
  match s with
  | EmptyString => EmptyString
  | String c s' => String (f c) (map f s')
  end.

Fixpoint filter (p : ascii -> bool) (s : string) : string :=
  match s with
  | EmptyString => EmptyString
  | String c s' => if p c then String c (filter p s') else filter p s'
  end.

Fixpoint forallb (p : ascii -> bool) (s : string) : bool :=
  match s with
  | EmptyString => true
  | String c s' => p c && forallb p s'
  end.

Fixpoint take (n : nat) (s : string) : string :=
  match n, s with
  | S k, String c s' => String c (take k s')
  | _, _ => EmptyString
  end.

Fixpoint drop (n : nat) (s : string) : string :=
  match n, s with
  | S k, String _ s' => drop k s'
  | _, _ => s
  end.

(** [s.lower()] *)
Definition lower (s : string) : string := map lower_char s.

Fixpoint lstrip_by (p : ascii -> bool) (s : string) : string :=
  match s with
  | EmptyString => EmptyString
  | String c s' => if p c then lstrip_by p s' else s
  end.

Fixpoint rstrip_by (p : ascii -> bool) (s : string) : string :=
  match s with
  | EmptyString => EmptyString
  | String c s' =>
      match rstrip_by p s' with
      | EmptyString => if p c then EmptyString else String c EmptyString
      | r => String c r
      end
  end.

Definition strip_by (p : ascii -> bool) (s : string) : string :=
  rstrip_by p (lstrip_by p s).

(** [s.lstrip()], [s.strip()] and [s.strip("-")] *)
Definition lstrip (s : string) : string := lstrip_by isspace s.
Definition strip (s : string) : string := strip_by isspace s.
Definition strip_chars (chars : string) (s : string) : string :=
  strip_by (fun c => existsb (Ascii.eqb c) (list_ascii_of_string chars)) s.

(** [s.startswith(p)] *)
Definition startswith (p s : string) : bool := String.prefix p s.

(** [s.replace(a, b)] for one-character [a] and [b] *)
Definition replace_char (a b : ascii) (s : string) : string :=
  map (fun c => if Ascii.eqb c a then b else c) s.

(** [s.split(sep)] for a one-character separator *)
Fixpoint split_go (sep : ascii) (cur : string) (s : string) : list string :=
  match s with
  | EmptyString => [cur]
  | String c s' =>
      if Ascii.eqb c sep then cur :: split_go sep EmptyString s'
      else split_go sep (cur ++ String c EmptyString) s'
  end.

Definition split (sep : ascii) (s : string) : list string :=
  split_go sep EmptyString s.

(** [s.title()]: a cased character is uppercased when the character
    before it is not cased and lowercased when it is.  The titlecase of
    U+00B5 and U+00FF lies outside the represented range; these two are
    left as they are. *)
Fixpoint title_go (prev_cased : bool) (s : string) : string :=
  match s with
  | EmptyString => EmptyString
  | String c s' =>
      let rest := title_go (iscased c) s' in
      if prev_cased then String (lower_char c) rest
      else if (ord c =? 223) then String "S" (String "s" rest)
      else String (upper_char c) rest
  end.

Definition title (s : string) : string := title_go false s.

(** Truthiness of a string: [s or d] *)
Definition or_else (s d : string) : string :=
  match s with EmptyString => d | _ => s end.

(** [sep.join(l)] *)
Fixpoint join (sep : string) (l : list string) : string :=
  match l with
  | [] => EmptyString
  | [x] => x
  | x :: l' => x ++ sep ++ join sep l'
  end.

(** Text-mode iteration over an open file with universal newlines:
    a line ends after LF, CR LF or CR, each delivered as LF. *)
Definition LF : ascii := ascii_of_nat 10.
Definition CR : ascii := ascii_of_nat 13.

Fixpoint lines_go (cur : string) (s : string) : list string :=
  match s with
  | EmptyString =>
      match cur with EmptyString => [] | _ => [cur] end
  | String c s' =>
      if Ascii.eqb c LF then (cur ++ String LF EmptyString) :: lines_go EmptyString s'
      else if Ascii.eqb c CR then
        match s' with
        | String d s'' =>
            if Ascii.eqb d LF
            then (cur ++ String LF EmptyString) :: lines_go EmptyString s''
            else (cur ++ String LF EmptyString) :: lines_go EmptyString s'
        | EmptyString => [cur ++ String LF EmptyString]
        end
      else lines_go (cur ++ String c EmptyString) s'
  end.

Definition file_lines (text : string) : list string :=
  lines_go EmptyString text.

End Py.

(** ** Regular expressions

    The fragment of [re] the program uses: anchors, literal characters,
    a character class repeated between [lo] and [hi] times, greedy or
    lazy, and an alternation of fixed sequences of classes; the last
    two possibly as a capturing group.  Matching backtracks in the
    order of [re]: a greedy repetition tries the longest run first, a
    lazy one the shortest, an alternation its branches left to right. *)

Module Re.

Inductive item : Type :=
| Bol                                   (* ^ *)
| Eol                                   (* $ *)
| Lit (c : ascii)
| Rep (cls : ascii -> bool) (lo : nat) (hi : option nat)
      (greedy : bool) (grp : option nat)
| Alt (alts : list (list (ascii -> bool))) (grp : option nat).

Definition regex : Type := list item.
Definition groups : Type := list (nat * string).

Fixpoint run_length (cls : ascii -> bool) (s : string) : nat :=
  match s with
  | String c s' => if cls c then S (run_length cls s') else 0
  | EmptyString => 0
  end.

Definition cap (hi : option nat) (n : nat) : nat :=
  match hi with Some h => Nat.min h n | None => n end.

(** The repetition counts to try, in order of preference. *)
Definition counts (lo m : nat) (greedy : bool) : list nat :=
  let up := seq lo (S m - lo) in
  if greedy then rev up else up.

Fixpoint first_some {A B : Type} (f : A -> option B) (l : list A) : option B :=
  match l with
  | [] => None
  | x :: l' => match f x with Some y => Some y | None => first_some f l' end
  end.

Definition bind_group (grp : option nat) (v : string) (g : groups) : groups :=
  match grp with Some i => (i, v) :: g | None => g end.

(** [$] matches at the end and before a final newline. *)
Definition at_end (s : string) : bool :=
  match s with
  | EmptyString => true
  | String c EmptyString => Ascii.eqb c Py.LF
  | _ => false
  end.

(** Does [s] start with one character of each class of [a], in order? *)
Fixpoint starts_with_classes (a : list (ascii -> bool)) (s : string) : bool :=
  match a, s with
  | [], _ => true
  | p :: a', String c s' => p c && starts_with_classes a' s'
  | _ :: _, EmptyString => false
  end.

(** Match [r] against [s], which starts at offset [pos] of the subject;
    the result holds the groups and the text left after the match. *)
Fixpoint match_here (r : regex) (pos : nat) (s : string) (g : groups)
  : option (groups * string) :=
  match r with
  | [] => Some (g, s)
  | Bol :: r' => if pos =? 0 then match_here r' pos s g else None
  | Eol :: r' => if at_end s then match_here r' pos s g else None
  | Lit c :: r' =>
      match s with
      | String d s' => if Ascii.eqb c d then match_here r' (S pos) s' g else None
      | EmptyString => None
      end
  | Rep cls lo hi greedy grp :: r' =>
      first_some
        (fun k => match_here r' (pos + k) (Py.drop k s)
                    (bind_group grp (Py.take k s) g))
        (counts lo (cap hi (run_length cls s)) greedy)
  | Alt alts grp :: r' =>
      first_some
        (fun a =>
           if starts_with_classes a s
           then match_here r' (pos + List.length a) (Py.drop (List.length a) s)
                  (bind_group grp (Py.take (List.length a) s) g)
           else None)
        alts
  end.

(** [re.compile(r).match(s)] and [m.group(i)] *)
Definition match_ (r : regex) (s : string) : option groups :=
  option_map fst (match_here r 0 s []).

Fixpoint group (i : nat) (g : groups) : string :=
  match g with
  | [] => EmptyString
  | (j, v) :: g' => if i =? j then v else group i g'
  end.

(** [re.sub(r, repl, s)] for a pattern that cannot match the empty
    string (all patterns substituted in this program repeat a class at
    least once): matches are found left to right and do not overlap.
    [skip] counts the characters still covered by the last match. *)
Fixpoint sub_go (r : regex) (repl : string) (pos skip : nat) (s : string) : string :=
  match s with
  | EmptyString => EmptyString
  | String c s' =>
      match skip with
      | S k => sub_go r repl (S pos) k s'
      | 0 =>
          match match_here r pos s [] with
          | Some (_, rest) =>
              match String.length s - String.length rest with
              | S k => repl ++ sub_go r repl (S pos) k s'
              | 0 => String c (sub_go r repl (S pos) 0 s')
              end
          | None => String c (sub_go r repl (S pos) 0 s')
          end
      end
  end.

Definition sub (r : regex) (repl : string) (s : string) : string :=
  sub_go r repl 0 0 s.

(** Character classes *)
Definition cls_s (c : ascii) : bool := Py.isspace c.                      (* \s *)
Definition cls_w (c : ascii) : bool := Py.isalnum c || Ascii.eqb c "_".   (* \w *)
Definition cls_d (c : ascii) : bool := Py.isdecimal c.                    (* \d *)
Definition cls_dot (c : ascii) : bool := negb (Ascii.eqb c Py.LF).        (* . *)

(** One character of class [cls]; [cls+]; [cls*]; [cls{n,}] *)
Definition one (cls : ascii -> bool) : item := Rep cls 1 (Some 1) true None.
Definition plus (cls : ascii -> bool) : item := Rep cls 1 None true None.
Definition star (cls : ascii -> bool) : item := Rep cls 0 None true None.
Definition at_least (n : nat) (cls : ascii -> bool) : item := Rep cls n None true None.

End Re.

(** ** The sanitizers *)

Definition hyphen : ascii := "-"%char.

(** [[^\w\s-]] *)
Definition not_word_space_hyphen (c : ascii) : bool :=
  negb (Re.cls_w c || Re.cls_s c || Ascii.eqb c hyphen).

(** [[\s_]] *)
Definition space_or_underscore (c : ascii) : bool :=
  Re.cls_s c || Ascii.eqb c "_".

Definition is_hyphen (c : ascii) : bool := Ascii.eqb c hyphen.

Definition slugify (s : string) : string :=
  let s := Py.lower (Py.strip s) in
  let s := Re.sub [Re.one not_word_space_hyphen] "" s in
  let s := Re.sub [Re.plus space_or_underscore] "-" s in
  let s := Py.strip_chars "-" (Re.sub [Re.at_least 2 is_hyphen] "-" s) in
  Py.or_else s "note".

Definition safe_segment (s : string) : string :=
  let s := Py.strip s in
  let s := Re.sub [Re.one not_word_space_hyphen] "" s in
  let s := Re.sub [Re.plus Re.cls_s] "_" s in
  Py.or_else s "unknown".

(** ** Dates

    [datetime.date] and the part of [datetime.strptime] behind the
    format ["%Y-%m-%d"].  CPython turns that format into the regular
    expression
    [(?P<Y>\d\d\d\d)-(?P<m>1[0-2]|0[1-9]|[1-9])-(?P<d>3[0-1]|[1-2]\d|0[1-9]|[1-9]| [1-9])],
    matches it at the start of the text, rejects text left over after
    the match, converts the three groups with [int] and builds the date,
    which rejects a year below 1 and a day the month does not have.

    On the represented range, U+0000..U+00FF, the class [\d] is the ten
    ASCII digits.  Beyond that range CPython's [\d] and [int] also take
    the decimal digits of other scripts (in the year and in the second
    digit of a day from 10 to 29); texts with such characters are not
    texts of this model, and the properties below speak of texts of the
    represented range only. *)

Module Datetime.

Record date : Type := mkdate { year : nat; month : nat; day : nat }.

(** [date.min] *)
Definition date_min : date := mkdate 1 1 1.

Definition is_leap (y : nat) : bool :=
  (y mod 4 =? 0) && (negb (y mod 100 =? 0) || (y mod 400 =? 0)).

Definition days_in_month (y m : nat) : nat :=
  match m with
  | 1 | 3 | 5 | 7 | 8 | 10 | 12 => 31
  | 4 | 6 | 9 | 11 => 30
  | 2 => if is_leap y then 29 else 28
  | _ => 0
  end.

Definition valid (y m d : nat) : bool :=
  (1 <=? y) && (y <? 100 * 100) && (1 <=? m) && (m <=? 12)
  && (1 <=? d) && (d <=? days_in_month y m).

(** [date(y, m, d)]; [None] stands for the [ValueError]. *)
Definition make_date (y m d : nat) : option date :=
  if valid y m d then Some (mkdate y m d) else None.

(** Comparison of dates, as of the tuples (year, month, day). *)
Definition date_eqb (a b : date) : bool :=
  (year a =? year b) && (month a =? month b) && (day a =? day b).

Definition date_ltb (a b : date) : bool :=
  (year a <? year b)
  || ((year a =? year b)
      && ((month a <? month b) || ((month a =? month b) && (day a <? day b)))).

Definition chr (c : ascii) (d : ascii) : bool := Ascii.eqb c d.
Definition digit_between (lo hi : nat) (c : ascii) : bool :=
  Py.between (48 + lo) (48 + hi) c.

Definition group_Y : nat := 1.
Definition group_m : nat := 2.
Definition group_d : nat := 3.

(** [1[0-2]|0[1-9]|[1-9]] and [3[0-1]|[1-2]\d|0[1-9]|[1-9]| [1-9]] *)
Definition month_alts : list (list (ascii -> bool)) :=
  [ [chr "1"; digit_between 0 2];
    [chr "0"; digit_between 1 9];
    [digit_between 1 9] ].

Definition day_alts : list (list (ascii -> bool)) :=
  [ [chr "3"; digit_between 0 1];
    [digit_between 1 2; Re.cls_d];
    [chr "0"; digit_between 1 9];
    [digit_between 1 9];
    [chr " "; digit_between 1 9] ].

Definition format_regex_Y_m_d : Re.regex :=
  [ Re.Rep Re.cls_d 4 (Some 4) true (Some group_Y);
    Re.Lit "-";
    Re.Alt month_alts (Some group_m);
    Re.Lit "-";
    Re.Alt day_alts (Some group_d) ].

(** [int(s)] for a text of decimal digits, blanks around it ignored. *)
Definition int (s : string) : nat :=
  fold_left (fun n c => 10 * n + (Py.ord c - 48))
            (list_ascii_of_string (Py.strip s)) 0.

(** [datetime.strptime(s, "%Y-%m-%d").date()]; [None] stands for the
    [ValueError]. *)
Definition strptime_Y_m_d (s : string) : option date :=
  match Re.match_here format_regex_Y_m_d 0 s [] with
  | None => None
  | Some (found, EmptyString) =>
      make_date (int (Re.group group_Y found))
                (int (Re.group group_m found))
                (int (Re.group group_d found))
  | Some (_, String _ _) => None       (* unconverted data remains *)
  end.

End Datetime.

Definition parse_note_date (d : option string) : Datetime.date :=
  match d with
  | None => Datetime.date_min
  | Some EmptyString => Datetime.date_min
  | Some d =>
      match Datetime.strptime_Y_m_d (Py.strip d) with
      | Some r => r
      | None => Datetime.date_min
      end
  end.

(** ** Dictionaries, paths, notes *)

Module Dict.

Definition t (V : Type) : Type := list (string * V).

Fixpoint get {V : Type} (d : t V) (k : string) : option V :=
  match d with
  | [] => None
  | (k', v) :: d' => if String.eqb k' k then Some v else get d' k
  end.

(** [d[k] = v]: an existing key keeps its place, a new one goes last. *)
Fixpoint set {V : Type} (d : t V) (k : string) (v : V) : t V :=
  match d with
  | [] => [(k, v)]
  | (k', v') :: d' =>
      if String.eqb k' k then (k', v) :: d' else (k', v') :: set d' k v
  end.

(** [d.get(k, default)] *)
Definition get_or {V : Type} (d : t V) (k : string) (default : V) : V :=
  match get d k with Some v => v | None => default end.

(** [d.keys()], in insertion order *)
Definition keys {V : Type} (d : t V) : list string := List.map fst d.

End Dict.

Definition Path : Type := list string.

Module Pathlib.

(** [p / name] *)
Definition div (p : Path) (name : string) : Path := (p ++ [name])%list.

(** [p.relative_to(base)]; [None] stands for the [ValueError]. *)
Fixpoint relative_to (p base : Path) : option Path :=
  match base, p with
  | [], _ => Some p
  | b :: base', x :: p' => if String.eqb b x then relative_to p' base' else None
  | _ :: _, [] => None
  end.

(** [str(p)] and [p.as_posix()] *)
Definition as_posix (p : Path) : string :=
  match p with
  | [] => "."
  | "/" :: rest => "/" ++ Py.join "/" rest
  | _ => Py.join "/" p
  end.

Definition name (p : Path) : string := List.last p "".
Definition parent (p : Path) : Path := List.removelast p.

(** The index of the last ["."] of [s], if any ([s.rfind(".")]) *)
Fixpoint rfind_dot (s : string) : option nat :=
  match s with
  | EmptyString => None
  | String c s' =>
      match rfind_dot s' with
      | Some i => Some (S i)
      | None => if Ascii.eqb c "." then Some 0 else None
      end
  end.

(** The split of a name before its suffix: the last dot counts unless
    it is the first or the last character. *)
Definition suffix_at (nm : string) : option nat :=
  match rfind_dot nm with
  | Some i => if (0 <? i) && (i <? String.length nm - 1) then Some i else None
  | None => None
  end.

(** [p.stem] *)
Definition stem (p : Path) : string :=
  match suffix_at (name p) with
  | Some i => Py.take i (name p)
  | None => name p
  end.

(** [p.with_suffix(suffix)] for a path with a name *)
Definition with_suffix (p : Path) (suffix : string) : Path :=
  div (parent p) (stem p ++ suffix).

End Pathlib.

Record Note : Type := mkNote {
  title : string;
  date : option string;
  tags : list string;
  topic : string;
  course : string;
  slug : string;
  src : Path;
  out : Path
}.

(** What a run can raise. *)
Inductive exn : Type :=
| SystemExit (code : Z)
| ValueError
| IndexError
| UnboundLocalError (name : string)
| FileNotFoundError (p : Path)
| IsADirectoryError (p : Path)
| NotADirectoryError (p : Path).

(** The values handed to [yaml.safe_dump]. *)
Inductive yaml : Type :=
| YNull
| YBool (b : bool)
| YStr (s : string)
| YList (items : list yaml)
| YMap (entries : list (string * yaml)).

(** ** The metadata extractor *)

(** [[A-Za-z0-9_\-]] *)
Definition meta_key_char (c : ascii) : bool :=
  Py.between 65 90 c || Py.between 97 122 c || Py.between 48 57 c
  || Ascii.eqb c "_" || Ascii.eqb c "-".

(** [^\s*%\s*([A-Za-z0-9_\-]+)\s*:\s*(.*?)\s*$] *)
Definition META_LINE_RE : Re.regex :=
  [ Re.Bol; Re.star Re.cls_s; Re.Lit "%"; Re.star Re.cls_s;
    Re.Rep meta_key_char 1 None true (Some 1);
    Re.star Re.cls_s; Re.Lit ":"; Re.star Re.cls_s;
    Re.Rep Re.cls_dot 0 None false (Some 2);
    Re.star Re.cls_s; Re.Eol ].

(** The loop over the lines of the file: a blank line is skipped, the
    first line that is neither blank nor a comment ends the loop. *)
Fixpoint scan_metadata (lines : list string) (meta : Dict.t string) : Dict.t string :=
  match lines with
  | [] => meta
  | line :: rest =>
      if String.eqb (Py.strip line) "" then scan_metadata rest meta
      else if negb (Py.startswith "%" (Py.lstrip line)) then meta
      else
        match Re.match_ META_LINE_RE line with
        | Some m =>
            scan_metadata rest
              (Dict.set meta (Py.lower (Py.strip (Re.group 1 m)))
                             (Py.strip (Re.group 2 m)))
        | None => scan_metadata rest meta
        end
  end.

(** [parse_tex_metadata], on the text of the file at [tex_path] *)
Definition parse_tex_metadata (text : string) : Dict.t string :=
  scan_metadata (Py.file_lines text) [].

(** ** Sorting

    [list.sort] and [sorted] are stable and compare keys with [<] only.
    With [reverse=True] CPython reverses the list, sorts it forward and
    reverses the result, so that equal keys keep their original order. *)

Section Sorting.

Context {A K : Type}.
Variable lt : K -> K -> bool.
Variable key : A -> K.

(** [x] passes the elements whose key is smaller than its own. *)
Fixpoint insert (x : A) (l : list A) : list A :=
  match l with
  | [] => [x]
  | y :: l' => if lt (key y) (key x) then y :: insert x l' else x :: y :: l'
  end.

Definition stable_sort (l : list A) : list A := fold_right insert [] l.

Definition sorted (reverse : bool) (l : list A) : list A :=
  if reverse then rev (stable_sort (rev l)) else stable_sort l.

End Sorting.

(** The key [(parse_note_date(n.date), n.title.lower())] and the order
    of such tuples. *)
Definition note_key (n : Note) : Datetime.date * string :=
  (parse_note_date (date n), Py.lower (title n)).

Definition key_ltb (a b : Datetime.date * string) : bool :=
  Datetime.date_ltb (fst a) (fst b)
  || (Datetime.date_eqb (fst a) (fst b) && String.ltb (snd a) (snd b)).

(** ** The host: file system, converter and serializer

    The program reads and writes through [pathlib], [shutil],
    [subprocess] and [yaml].  Their behaviour is a parameter of the
    model.  A file system holds directories and files of text: what
    is read is the decoded text of a file that is there, so that the
    program checks first where the outcome depends on what is there
    (the converter's output, the output directory).  Errors of the
    operating system (permissions, a full disk) are left out. *)

Record Host : Type := mkHost {
  fs : Type;
  (* Path(__file__).resolve().parents[1] *)
  repo_root : Path;
  (* p.exists(), p.is_dir() *)
  path_exists : fs -> Path -> bool;
  is_dir : fs -> Path -> bool;
  (* sorted(p.rglob("*.tex")) *)
  sorted_rglob_tex : fs -> Path -> list Path;
  (* the text of the file at p, decoded; p is an existing file *)
  read_text : fs -> Path -> string;
  (* p.write_text(text) *)
  write_text : fs -> Path -> string -> fs;
  (* p.mkdir(parents=True, exist_ok=True) *)
  mkdir_parents : fs -> Path -> fs;
  (* shutil.rmtree(p), p.unlink(missing_ok=True), shutil.copytree(a, b) *)
  rmtree : fs -> Path -> fs;
  unlink : fs -> Path -> fs;
  copytree : fs -> Path -> Path -> fs;
  (* subprocess.run(["pandoc", "--version"], check=True, ...) raises nothing *)
  pandoc_version_ok : fs -> bool;
  (* subprocess.run(cmd, ...): return code, stderr, file system afterwards *)
  run : fs -> list string -> Z * string * fs;
  (* yaml.safe_dump(v, sort_keys=False, width=w) *)
  yaml_safe_dump : yaml -> option nat -> string
}.

Section Program.

Variable H : Host.

Definition REPO_ROOT : Path := repo_root H.
Definition STAGING_DIR : Path := Pathlib.div REPO_ROOT "notes_staging".
Definition OUT_DIR : Path := Pathlib.div REPO_ROOT "notes".

(** The state of a run, and computations that change it or raise. *)
Record state : Type := mkState {
  files : fs H;
  stdout : list string;
  stderr : list string
}.

Definition M (A : Type) : Type := state -> (exn + A) * state.

Definition ret {A : Type} (a : A) : M A := fun st => (inr a, st).
Definition raise {A : Type} (e : exn) : M A := fun st => (inl e, st).
Definition bind {A B : Type} (m : M A) (k : A -> M B) : M B :=
  fun st =>
    match m st with
    | (inl e, st') => (inl e, st')
    | (inr a, st') => k a st'
    end.

Notation "x <- m ;; k" := (bind m (fun x => k))
  (at level 61, m at next level, right associativity).
Notation "m ;;; k" := (bind m (fun _ => k))
  (at level 61, right associativity).

Definition get_files : M (fs H) := fun st => (inr (files st), st).
Definition set_files (f : fs H) : M unit :=
  fun st => (inr tt, mkState f (stdout st) (stderr st)).
Definition print (line : string) : M unit :=
  fun st => (inr tt, mkState (files st) (stdout st ++ [line]) (stderr st)).
Definition print_stderr (line : string) : M unit :=
  fun st => (inr tt, mkState (files st) (stdout st) (stderr st ++ [line])).

Definition of_option {A : Type} (e : exn) (o : option A) : M A :=
  match o with Some a => ret a | None => raise e end.

(** [for x in l: body(x)] *)
Fixpoint for_each {A : Type} (l : list A) (body : A -> M unit) : M unit :=
  match l with
  | [] => ret tt
  | x :: l' => body x ;;; for_each l' body
  end.

Definition die (msg : string) : M unit :=
  print_stderr ("ERROR: " ++ msg) ;;;
  raise (SystemExit 1).

Definition infer_topic_course (tex_path : Path) : M (string * string) :=
  rel <- of_option ValueError (Pathlib.relative_to tex_path STAGING_DIR) ;;
  (if List.length rel <? 3
   then die ("Expected notes_staging/<topic>/<course>/<file>.tex but got: "
             ++ Pathlib.as_posix tex_path)
   else ret tt) ;;;
  p0 <- of_option IndexError (nth_error rel 0) ;;
  p1 <- of_option IndexError (nth_error rel 1) ;;
  ret (p0, p1).

Definition require_pandoc : M unit :=
  f <- get_files ;;
  if pandoc_version_ok H f then ret tt
  else die "pandoc not found. Install pandoc and ensure it's on PATH.".

Definition find_tex_files : M (list Path) :=
  f <- get_files ;;
  (if negb (path_exists H f STAGING_DIR)
   then die ("Missing staging directory: " ++ Pathlib.as_posix STAGING_DIR)
   else ret tt) ;;;
  ret (sorted_rglob_tex H f STAGING_DIR).

(** The body of the loop of [build_notes_index]. *)
Definition index_note (p : Path) : M Note :=
  f <- get_files ;;
  let meta := parse_tex_metadata (read_text H f p) in
  tc <- infer_topic_course p ;;
  let topic := safe_segment (fst tc) in
  let course := safe_segment (snd tc) in
  let title :=
    Py.or_else (Dict.get_or meta "title" "")
      (Py.title (Py.replace_char "-" " " (Py.replace_char "_" " " (Pathlib.stem p)))) in
  let date := Dict.get meta "date" in
  let tags :=
    List.filter (fun t => negb (String.eqb t ""))
      (List.map Py.strip (Py.split "," (Dict.get_or meta "tags" ""))) in
  let slug := slugify title in
  let out := Pathlib.div (Pathlib.div (Pathlib.div OUT_DIR topic) course) (slug ++ ".qmd") in
  ret (mkNote title date tags topic course slug p out).

Fixpoint build_notes_from (tex_files : list Path) (notes : list Note) : M (list Note) :=
  match tex_files with
  | [] => ret notes
  | p :: rest =>
      n <- index_note p ;;
      build_notes_from rest (notes ++ [n])%list
  end.

Definition build_notes_index (tex_files : list Path) : M (list Note) :=
  build_notes_from tex_files [].

Definition clean_generated_output : M unit :=
  f <- get_files ;;
  (* shutil.rmtree raises on a path that is not a directory *)
  (if path_exists H f OUT_DIR then
     if is_dir H f OUT_DIR then set_files (rmtree H f OUT_DIR)
     else raise (NotADirectoryError OUT_DIR)
   else ret tt) ;;;
  f <- get_files ;;
  set_files (mkdir_parents H f OUT_DIR).

Definition yaml_of_option (o : option string) : yaml :=
  match o with Some s => YStr s | None => YNull end.

Definition tex_to_qmd (note : Note) : M unit :=
  f <- get_files ;;
  set_files (mkdir_parents H f (Pathlib.parent (out note))) ;;;
  let tmp_md := Pathlib.with_suffix (out note) ".md.tmp" in
  let cmd := [ "pandoc"; Pathlib.as_posix (src note); "--from=latex";
               "--to=commonmark_x+tex_math_dollars"; "--wrap=none";
               "-o"; Pathlib.as_posix tmp_md ] in
  f <- get_files ;;
  let '(returncode, err, f') := run H f cmd in
  set_files f' ;;;
  (if negb (returncode =? 0)%Z
   then die ("Pandoc failed for " ++ Pathlib.as_posix (src note)
             ++ String Py.LF (String Py.LF "STDERR:") ++ String Py.LF err)
   else ret tt) ;;;
  f <- get_files ;;
  (* tmp_md.read_text(): the file is there only if the converter wrote it *)
  (if negb (path_exists H f tmp_md) then raise (FileNotFoundError tmp_md)
   else if is_dir H f tmp_md then raise (IsADirectoryError tmp_md)
   else ret tt) ;;;
  let body := read_text H f tmp_md in
  set_files (unlink H f tmp_md) ;;;
  let frontmatter :=
    YMap [ ("title", YStr (title note));
           ("date", yaml_of_option (date note));
           ("tags", YList (List.map YStr (tags note)));
           ("format", YMap [("html", YMap [("html-math-method", YStr "katex")])]) ] in
  let fm := "---" ++ String Py.LF (Py.strip (yaml_safe_dump H frontmatter None))
            ++ String Py.LF "---" ++ String Py.LF (String Py.LF "") in
  f <- get_files ;;
  set_files (write_text H f (out note) (fm ++ body)).

(** *** Navigation *)

Definition tree_t : Type := Dict.t (Dict.t (list Note)).

(** [tree.setdefault(n.topic, {}).setdefault(n.course, []).append(n)] *)
Definition tree_add (tree : tree_t) (n : Note) : tree_t :=
  let courses := Dict.get_or tree (topic n) [] in
  let group := Dict.get_or courses (course n) [] in
  Dict.set tree (topic n) (Dict.set courses (course n) (group ++ [n])%list).

Definition build_tree (notes : list Note) : tree_t :=
  fold_left tree_add notes [].

Definition home_link : yaml :=
  YMap [("text", YStr "Home"); ("href", YStr "index.qmd")].

(** [for course in tree[topic]: tree[topic][course].sort(...)] *)
Definition sort_courses (courses : Dict.t (list Note)) : Dict.t (list Note) :=
  List.map (fun cg => (fst cg, sorted key_ltb note_key false (snd cg))) courses.

(** The first loop over the topics; it also binds [sidebar_contents],
    once per topic, and so leaves it unbound when there is no topic. *)
Fixpoint sort_pass (tree : tree_t) (sidebar_contents : option (list yaml))
  : tree_t * option (list yaml) :=
  match tree with
  | [] => ([], sidebar_contents)
  | (topic, courses) :: rest =>
      let '(rest', sc) := sort_pass rest (Some [home_link]) in
      ((topic, sort_courses courses) :: rest', sc)
  end.

(** [for x in l: acc.append(f(x))], where [f] may raise *)
Fixpoint collect {A B : Type} (f : A -> exn + B) (l : list A) : exn + list B :=
  match l with
  | [] => inr []
  | x :: l' =>
      match f x with
      | inl e => inl e
      | inr y =>
          match collect f l' with
          | inl e => inl e
          | inr ys => inr (y :: ys)
          end
      end
  end.

Definition section (name : string) (contents : list yaml) : yaml :=
  YMap [("section", YStr name); ("contents", YList contents)].

Definition note_link (n : Note) : exn + yaml :=
  match Pathlib.relative_to (out n) REPO_ROOT with
  | Some rel =>
      inr (YMap [("text", YStr (title n)); ("href", YStr (Pathlib.as_posix rel))])
  | None => inl ValueError
  end.

Definition sorted_keys {V : Type} (d : Dict.t V) : list string :=
  sorted String.ltb (fun k => k) false (Dict.keys d).

Definition course_section (courses : Dict.t (list Note)) (course : string)
  : exn + yaml :=
  match collect note_link (Dict.get_or courses course []) with
  | inl e => inl e
  | inr links => inr (section (Py.replace_char "_" " " course) links)
  end.

Definition topic_section (tree : tree_t) (topic : string) : exn + yaml :=
  let courses := Dict.get_or tree topic [] in
  match collect (course_section courses) (sorted_keys courses) with
  | inl e => inl e
  | inr sections => inr (section (Py.replace_char "_" " " topic) sections)
  end.

(** The second loop over the topics: [sidebar_contents.append(...)] *)
Fixpoint append_topics (tree : tree_t) (topics : list string)
    (sidebar_contents : option (list yaml)) : exn + option (list yaml) :=
  match topics with
  | [] => inr sidebar_contents
  | topic :: rest =>
      match topic_section tree topic with
      | inl e => inl e
      | inr sec =>
          match sidebar_contents with
          | None => inl (UnboundLocalError "sidebar_contents")
          | Some sc => append_topics tree rest (Some (sc ++ [sec])%list)
          end
      end
  end.

(** The value of [sidebar_contents] when the configuration is built. *)
Definition sidebar (notes : list Note) : exn + list yaml :=
  let '(tree, sc) := sort_pass (build_tree notes) None in
  match append_topics tree (sorted_keys tree) sc with
  | inl e => inl e
  | inr None => inl (UnboundLocalError "sidebar_contents")
  | inr (Some contents) => inr contents
  end.

Definition quarto_config (sidebar_contents : list yaml) : yaml :=
  YMap [ ("project", YMap [("type", YStr "website")]);
         ("website",
          YMap [ ("title", YStr "Personal Notes");
                 ("sidebar", YMap [ ("style", YStr "docked");
                                    ("search", YBool true);
                                    ("contents", YList sidebar_contents) ]);
                 ("page-navigation", YBool true) ]);
         ("format",
          YMap [("html", YMap [ ("theme", YStr "cosmo");
                                ("css", YStr "styles.css");
                                ("toc", YBool true);
                                ("html-math-method", YStr "katex") ])]) ].

Definition generate_quarto_yml (notes : list Note) : M unit :=
  match sidebar notes with
  | inl e => raise e
  | inr contents =>
      f <- get_files ;;
      set_files (write_text H f (Pathlib.div REPO_ROOT "_quarto.yml")
                   (yaml_safe_dump H (quarto_config contents) (Some 120)))
  end.

(** *** Homepage *)

(** U+2014 and U+2192 lie outside the represented range; each stands as
    the three bytes that encode it in the written file. *)
Definition em_dash : string :=
  String (ascii_of_nat 226) (String (ascii_of_nat 128) (String (ascii_of_nat 148) "")).
Definition arrow : string :=
  String (ascii_of_nat 226) (String (ascii_of_nat 134) (String (ascii_of_nat 146) "")).

(** [notes_sorted[:30]] *)
Definition recent_notes (notes : list Note) : list Note :=
  firstn 30 (sorted key_ltb note_key true notes).

Definition homepage_line (n : Note) : exn + string :=
  match Pathlib.relative_to (out n) REPO_ROOT with
  | Some rel =>
      let suffix :=
        match date n with
        | Some (String c d) => " " ++ em_dash ++ " " ++ String c d
        | _ => ""
        end in
      inr ("- [" ++ title n ++ "](" ++ Pathlib.as_posix rel ++ ")" ++ suffix)
  | None => inl ValueError
  end.

Definition homepage_header : list string :=
  [ "---"; "title: Home"; "format:"; "  html:"; "    toc: false";
    "---" ++ String Py.LF "";
    "# Personal Notes" ++ String Py.LF "";
    "Browse using the sidebar (Topic " ++ arrow ++ " Class " ++ arrow ++ " Note).";
    String Py.LF "## Recent notes" ++ String Py.LF "" ].

Definition write_homepage (notes : list Note) : M unit :=
  match collect homepage_line (recent_notes notes) with
  | inl e => raise e
  | inr entries =>
      let lines := (homepage_header ++ entries)%list in
      f <- get_files ;;
      set_files (write_text H f (Pathlib.div REPO_ROOT "index.qmd")
                   (Py.join (String Py.LF "") lines ++ String Py.LF ""))
  end.

(** *** Assets and the entry point *)

(** What stands at the destination, if anything, is a folder that the
    run copied for an earlier note of the course. *)
Definition copy_note_assets (note : Note) : M unit :=
  for_each ["images"; "assets"] (fun folder_name =>
    let src_dir := Pathlib.div (Pathlib.parent (src note)) folder_name in
    f <- get_files ;;
    if path_exists H f src_dir && is_dir H f src_dir then
      let dst_dir := Pathlib.div (Pathlib.parent (out note)) folder_name in
      (if path_exists H f dst_dir then set_files (rmtree H f dst_dir) else ret tt) ;;;
      f <- get_files ;;
      set_files (copytree H f src_dir dst_dir)
    else ret tt).

Definition str_of_nat (n : nat) : string :=
  NilEmpty.string_of_uint (Nat.to_uint n).

Definition main : M unit :=
  require_pandoc ;;;
  tex_files <- find_tex_files ;;
  (match tex_files with
   | [] => die ("No .tex files found under " ++ Pathlib.as_posix STAGING_DIR)
   | _ => ret tt
   end) ;;;
  notes <- build_notes_index tex_files ;;
  clean_generated_output ;;;
  for_each notes (fun n => tex_to_qmd n ;;; copy_note_assets n) ;;;
  write_homepage notes ;;;
  generate_quarto_yml notes ;;;
  print ("Generated " ++ str_of_nat (List.length notes) ++ " notes into "
         ++ Pathlib.as_posix OUT_DIR
         ++ "/ and wrote _quarto.yml + index.qmd").

End Program.

Arguments mkState {H}.
Arguments files {H}.
Arguments stdout {H}.
Arguments stderr {H}.

(** An in-memory host: a file system is the list of its files with
    their text, the newest entry of a path first.  A directory is there
    when an entry lies below it; making a directory that is not there
    adds the entry ["."] below it.  The converter of this host
    succeeds: it writes the text of its input to the file named after
    [-o]. *)
Definition mem_fs : Type := list (Path * string).

Definition mem_under (dir p : Path) : bool :=
  match Pathlib.relative_to p dir with Some _ => true | None => false end.

Fixpoint mem_is (p q : Path) : bool :=
  match p, q with
  | [], [] => true
  | x :: p', y :: q' => String.eqb x y && mem_is p' q'
  | _, _ => false
  end.

(** Every path once. *)
Fixpoint mem_once (l : list Path) : list Path :=
  match l with
  | [] => []
  | p :: l' => if existsb (mem_is p) l' then mem_once l' else p :: mem_once l'
  end.

Definition mem_is_file (f : mem_fs) (p : Path) : bool :=
  existsb (fun e => mem_is (fst e) p) f.

Definition mem_lookup (f : mem_fs) (p : Path) : string :=
  match find (fun e => mem_is (fst e) p) f with
  | Some e => snd e
  | None => ""
  end.

(** The order of characters by code point, read off the bits from the
    highest down; the order of strings and that of paths, by their
    lists of components, follow from it. *)
Fixpoint bits_ltb (l m : list bool) : bool :=
  match l, m with
  | x :: l', y :: m' => (negb x && y) || (Bool.eqb x y && bits_ltb l' m')
  | _, _ => false
  end.

Definition chr_ltb (a b : ascii) : bool :=
  let '(Ascii a0 a1 a2 a3 a4 a5 a6 a7) := a in
  let '(Ascii b0 b1 b2 b3 b4 b5 b6 b7) := b in
  bits_ltb [a7; a6; a5; a4; a3; a2; a1; a0] [b7; b6; b5; b4; b3; b2; b1; b0].

Fixpoint str_ltb (s t : string) : bool :=
  match s, t with
  | _, EmptyString => false
  | EmptyString, String _ _ => true
  | String a s', String b t' => chr_ltb a b || (Ascii.eqb a b && str_ltb s' t')
  end.

Fixpoint path_ltb (a b : Path) : bool :=
  match a, b with
  | _, [] => false
  | [], _ :: _ => true
  | x :: a', y :: b' => str_ltb x y || (String.eqb x y && path_ltb a' b')
  end.

(** The path that a text names. *)
Definition path_of_posix (s : string) : Path :=
  match Py.split "/" s with
  | "" :: rest => "/" :: rest
  | parts => parts
  end.

(** The paths of a file system: its files and the directories above
    them. *)
Definition mem_paths (f : mem_fs) : list Path :=
  flat_map (fun e => List.map (fun k => firstn k (fst e))
                       (seq 1 (List.length (fst e)))) f.

(** [name] matches ["*.tex"]. *)
Definition mem_is_tex (name : string) : bool :=
  (4 <=? String.length name)
  && String.eqb (Py.drop (String.length name - 4) name) ".tex".

Definition mem_host (root : Path) : Host :=
  {| fs := mem_fs;
     repo_root := root;
     path_exists := fun f p => existsb (fun e => mem_under p (fst e)) f;
     is_dir := fun f p =>
       negb (mem_is_file f p) && existsb (fun e => mem_under p (fst e)) f;
     sorted_rglob_tex := fun f p =>
       sorted path_ltb (fun q => q) false
         (mem_once
            (List.filter (fun q => mem_under p q && negb (mem_is q p)
                                   && mem_is_tex (Pathlib.name q))
               (mem_paths f)));
     read_text := mem_lookup;
     write_text := fun f p text => ((p, text) :: f)%list;
     mkdir_parents := fun f p =>
       if existsb (fun e => mem_under p (fst e)) f then f
       else (((p ++ ["."])%list, "") :: f)%list;
     rmtree := fun f p => List.filter (fun e => negb (mem_under p (fst e))) f;
     unlink := fun f p => List.filter (fun e => negb (mem_is (fst e) p)) f;
     copytree := fun f a b =>
       (flat_map (fun e => match Pathlib.relative_to (fst e) a with
                           | Some rel => [((b ++ rel)%list, snd e)]
                           | None => []
                           end) f ++ f)%list;
     pandoc_version_ok := fun _ => true;
     run := fun f cmd =>
       (0%Z, "",
        ((path_of_posix (List.last cmd ""), mem_lookup f (path_of_posix (nth 1 cmd "")))
         :: f)%list);
     yaml_safe_dump := fun _ _ => "" |}.

(** ** Notions used to state the properties *)

(** The line [die] prints for a file that is not deep enough. *)
Definition diagnostic_depth (p : Path) : string :=
  "ERROR: Expected notes_staging/<topic>/<course>/<file>.tex but got: "
  ++ Pathlib.as_posix p.

(** The state after one more line on the error stream; the file system
    and the standard output are as before. *)
Definition with_stderr {H : Host} (st : state H) (line : string) : state H :=
  mkState (files st) (stdout st) (stderr st ++ [line])%list.




(** Ascending and descending order by key: no element is followed,
    anywhere later in the list, by one with a smaller (larger) key. *)
Definition ascending {A K : Type} (lt : K -> K -> bool) (key : A -> K)
    (l : list A) : Prop :=
  StronglySorted (fun a b => lt (key b) (key a) = false) l.

Definition descending {A K : Type} (lt : K -> K -> bool) (key : A -> K)
    (l : list A) : Prop :=
  StronglySorted (fun a b => lt (key a) (key b) = false) l.

(** [y] has the key [k]: neither key is smaller than the other. *)
Definition has_key {A K : Type} (lt : K -> K -> bool) (key : A -> K)
    (k : K) (y : A) : bool :=
  negb (lt (key y) k) && negb (lt k (key y)).

(** The note carries a date that the parser accepts. *)
Definition dated (n : Note) : bool :=
  match date n with
  | Some (String c d) =>
      match Datetime.strptime_Y_m_d (Py.strip (String c d)) with
      | Some _ => true
      | None => false
      end
  | _ => false
  end.

(** ** Sample data *)

Definition sample_root : Path := ["/"; "repo"].

Definition sample_note (title : string) (date : option string)
    (topic course : string) : Note :=
  mkNote title date [] topic course (slugify title)
    (sample_root ++ ["notes_staging"; topic; course; (slugify title ++ ".tex")%string])%list
    (sample_root ++ ["notes"; topic; course; (slugify title ++ ".qmd")%string])%list.

(** Two notes of different courses with the same title and no date. *)
Definition lecture_algebra : Note := sample_note "Lecture 1" None "math" "algebra".
Definition lecture_calculus : Note := sample_note "Lecture 1" None "math" "calculus".

(** An undated note and one dated on the first day of the calendar. *)
Definition zeta_undated : Note := sample_note "Zeta" None "math" "algebra".
Definition alpha_year_one : Note :=
  sample_note "Alpha" (Some "0001-01-01") "math" "algebra".

(** Two notes of one group, one dated and one not. *)
Definition march_note : Note :=
  sample_note "Vectors" (Some "2024-03-01") "math" "algebra".
Definition undated_note : Note := sample_note "Matrices" None "math" "algebra".

(** ** Date texts *)
















(** ** Navigation, read off the registry *)

(** The notes of one (topic, course) group, in registry order. *)
Definition group_of (notes : list Note) (t c : string) : list Note :=
  List.filter (fun n => String.eqb (topic n) t && String.eqb (course n) c) notes.

(** The entry of [tree] for a topic and a course. *)
Definition lookup2 (tree : tree_t) (t c : string) : list Note :=
  Dict.get_or (Dict.get_or tree t []) c [].

(** The note's output is below the repository root, as it is for every
    note that [build_notes_index] makes. *)
Definition in_repo (H : Host) (n : Note) : Prop :=
  Pathlib.relative_to (out n) (REPO_ROOT H) <> None.

(** The leaf of the navigation tree for a note. *)
Definition href_of (H : Host) (n : Note) : string :=
  match Pathlib.relative_to (out n) (REPO_ROOT H) with
  | Some rel => Pathlib.as_posix rel
  | None => ""
  end.

Definition link_of (H : Host) (n : Note) : yaml :=
  YMap [("text", YStr (title n)); ("href", YStr (href_of H n))].

(** A course with its notes and a topic with its courses, as sections. *)
Definition render_course (H : Host) (cg : string * list Note) : yaml :=
  section (Py.replace_char "_" " " (fst cg)) (List.map (link_of H) (snd cg)).

Definition render_topic (H : Host) (tc : string * list (string * list Note)) : yaml :=
  section (Py.replace_char "_" " " (fst tc)) (List.map (render_course H) (snd tc)).

(** Strictly ascending order of names, by code points. *)
Definition alphabetical (names : list string) : Prop :=
  StronglySorted (fun a b => String.ltb a b = true) names.

(** The leaves of a navigation entry: the entries that are not
    sections. *)
Fixpoint leaves (y : yaml) : list yaml :=
  match y with
  | YMap [(k, _); (_, YList items)] =>
      if String.eqb k "section" then flat_map leaves items else [y]
  | _ => [y]
  end.

(** The groups of a registry in navigation order: the topics and, in
    each, the courses by name, each course with its notes sorted. *)
Definition nav_courses (notes : list Note) (t : string)
  : list (string * list Note) :=
  List.map (fun c => (c, sorted key_ltb note_key false (group_of notes t c)))
    (sorted_keys (Dict.get_or (build_tree notes) t [])).

Definition nav_groups (notes : list Note)
  : list (string * list (string * list Note)) :=
  List.map (fun t => (t, nav_courses notes t)) (sorted_keys (build_tree notes)).

(** A registry of three notes in two courses, and its host. *)
Definition sample_host : Host := mem_host sample_root.

Definition sample_registry : list Note :=
  [march_note; lecture_calculus; undated_note].

(** File systems for the in-memory host: one whose staging directory
    holds no LaTeX file, and one with a file two levels deep. *)
Definition fs_without_tex : mem_fs :=
  [ ((sample_root ++ ["notes_staging"; "README.md"])%list, "notes") ].



(** ** The sanitizers, step by step *)

(** A character that the sanitizers keep: a word character, whitespace
    or the hyphen. *)
Definition word_space_hyphen (c : ascii) : bool :=
  Re.cls_w c || Re.cls_s c || Ascii.eqb c hyphen.

(** Every run of characters of [cls] becomes one [rep]; [in_run] tells
    that the character before belonged to a run. *)
Fixpoint squeeze_go (cls : ascii -> bool) (rep : string) (in_run : bool)
    (s : string) : string :=
  match s with
  | EmptyString => EmptyString
  | String c s' =>
      if cls c then
        if in_run then squeeze_go cls rep true s'
        else rep ++ squeeze_go cls rep true s'
      else String c (squeeze_go cls rep false s')
  end.

Definition squeeze (cls : ascii -> bool) (rep : string) (s : string) : string :=
  squeeze_go cls rep false s.

(** Lowercase, strip, drop the other characters, turn runs of
    whitespace and underscores into one hyphen, runs of hyphens into
    one hyphen, trim hyphens at both ends; "note" if nothing is left. *)
Definition slugify_steps (s : string) : string :=
  let s := Py.strip (Py.lower s) in
  let s := Py.filter word_space_hyphen s in
  let s := squeeze space_or_underscore "-" s in
  let s := squeeze is_hyphen "-" s in
  let s := Py.strip_by is_hyphen s in
  match s with EmptyString => "note" | _ => s end.

(** Strip, drop the other characters, turn runs of whitespace into one
    underscore; "unknown" if nothing is left. *)
Definition safe_segment_steps (s : string) : string :=
  let s := Py.strip s in
  let s := Py.filter word_space_hyphen s in
  let s := squeeze Re.cls_s "_" s in
  match s with EmptyString => "unknown" | _ => s end.

(** No two hyphens side by side. *)
Fixpoint no_double_hyphen (s : string) : bool :=
  match s with
  | String a ((String b _) as s') =>
      negb (is_hyphen a && is_hyphen b) && no_double_hyphen s'
  | _ => true
  end.

(** The first character, if any, is not of [cls]. *)
Definition starts_outside (cls : ascii -> bool) (s : string) : bool :=
  match s with String c _ => negb (cls c) | EmptyString => true end.

(** The characters of a slug: lowercase word characters other than the
    underscore, and the hyphen. *)
Definition slug_char (c : ascii) : bool :=
  word_space_hyphen c && negb (space_or_underscore c)
  && Ascii.eqb (Py.lower_char c) c.

(** The characters of a segment: word characters and the hyphen. *)
Definition segment_char (c : ascii) : bool :=
  word_space_hyphen c && negb (Re.cls_s c).

(** What the sanitizers compute before the fallback. *)
Definition slug_core (s : string) : string :=
  Py.strip_by is_hyphen
    (squeeze is_hyphen "-"
       (squeeze space_or_underscore "-"
          (Py.filter word_space_hyphen (Py.strip (Py.lower s))))).

Definition segment_core (s : string) : string :=
  squeeze Re.cls_s "_" (Py.filter word_space_hyphen (Py.strip s)).

(** The character is its own lowercase. *)
Definition is_lowered (c : ascii) : bool := Ascii.eqb (Py.lower_char c) c.

(** ** Metadata, read off the lines *)

(** A blank line, and a comment line: one whose first character after
    leading whitespace is the percent sign. *)
Definition is_blank (line : string) : bool := Py.forallb Py.isspace line.

Definition is_comment (line : string) : bool :=
  match Py.lstrip line with
  | String c _ => Ascii.eqb c "%"
  | EmptyString => false
  end.

(** The lines from the start of the document that are blank or
    comments, up to the first line that is neither. *)
Fixpoint header_lines (lines : list string) : list string :=
  match lines with
  | [] => []
  | line :: rest =>
      if is_blank line || is_comment line then line :: header_lines rest else []
  end.

(** A line of the form [marker key : value]: the key in lowercase and
    the value without the whitespace around it. *)
Definition meta_entry (line : string) : option (string * string) :=
  match Py.lstrip line with
  | String c rest =>
      if Ascii.eqb c "%" then
        let rest := Py.lstrip rest in
        let n := Re.run_length meta_key_char rest in
        match n, Py.lstrip (Py.drop n rest) with
        | S _, String d value =>
            if Ascii.eqb d ":" then Some (Py.lower (Py.take n rest), Py.strip value)
            else None
        | _, _ => None
        end
      else None
  | EmptyString => None
  end.

(** The entries of the header, in the order of the lines. *)
Definition meta_entries (lines : list string) : list (string * string) :=
  flat_map (fun line => match meta_entry line with Some e => [e] | None => [] end)
    (header_lines lines).

(** The value of the last entry for a key. *)
Definition last_value (entries : list (string * string)) (k : string) : option string :=
  option_map snd (find (fun e => String.eqb (fst e) k) (rev entries)).

(** The mapping that the entries build, one after the other. *)
Definition mapping_of (entries : list (string * string)) : Dict.t string :=
  fold_left (fun m e => Dict.set m (fst e) (snd e)) entries [].

(** A line as the file delivers it: a line feed can only be its last
    character. *)
Fixpoint line_ok (s : string) : bool :=
  match s with
  | EmptyString => true
  | String c EmptyString => true
  | String c s' => Re.cls_dot c && line_ok s'
  end.

(** The continuation [r] of an expression cannot match a text that
    starts with a character of [cls]. *)
Definition fails_on (r : Re.regex) (cls : ascii -> bool) : Prop :=
  forall pos c t g, cls c = true -> Re.match_here r pos (String c t) g = None.

(** The end of the metadata expression, after the colon. *)
Definition META_VALUE_RE : Re.regex :=
  [ Re.star Re.cls_s; Re.Rep Re.cls_dot 0 None false (Some 2);
    Re.star Re.cls_s; Re.Eol ].

(** A document with two metadata lines, a comment and a body. *)
Definition sample_document : string :=
  "% Title: Newton's Laws" ++ String Py.LF
  ("%date :  2024-01-05  " ++ String Py.LF
  ("% just a remark" ++ String Py.LF
  ("% title : Laws of Motion" ++ String Py.LF
  ("\section{Intro}" ++ String Py.LF "% date: 1999-01-01")))).

(** ** Notions for the run as a whole *)

(** The command line of the converter for a note, and the temporary
    file it writes. *)
Definition tmp_md_of (note : Note) : Path :=
  Pathlib.with_suffix (out note) ".md.tmp".

Definition pandoc_cmd (note : Note) : list string :=
  [ "pandoc"; Pathlib.as_posix (src note); "--from=latex";
    "--to=commonmark_x+tex_math_dollars"; "--wrap=none";
    "-o"; Pathlib.as_posix (tmp_md_of note) ].

(** The line [die] prints when the converter fails on a note. *)
Definition diagnostic_pandoc (note : Note) (err : string) : string :=
  "ERROR: Pandoc failed for " ++ Pathlib.as_posix (src note)
  ++ String Py.LF (String Py.LF "STDERR:") ++ String Py.LF err.


(** A computation that returns and prints nothing, whatever the state. *)
Definition quiet {H : Host} {A : Type} (m : M H A) : Prop :=
  forall st, exists a st',
    m st = (inr a, st') /\ stdout st' = stdout st /\ stderr st' = stderr st.


(** The front matter that [tex_to_qmd] puts before the body. *)
Definition front_matter (H : Host) (note : Note) : string :=
  "---"
  ++ String Py.LF
       (Py.strip
          (yaml_safe_dump H
             (YMap [ ("title", YStr (title note));
                     ("date", yaml_of_option (date note));
                     ("tags", YList (List.map YStr (tags note)));
                     ("format",
                      YMap [("html", YMap [("html-math-method", YStr "katex")])]) ])
             None))
  ++ String Py.LF "---" ++ String Py.LF (String Py.LF "").



(** What [build_notes_index] makes of the file [p]: the registry entry
    is well formed. *)
Definition indexed_from (H : Host) (p : Path) (n : Note) : Prop :=
  src n = p
  /\ (exists rel, Pathlib.relative_to p (STAGING_DIR H) = Some rel
        /\ 3 <= List.length rel
        /\ topic n = safe_segment (nth 0 rel "")
        /\ course n = safe_segment (nth 1 rel ""))
  /\ slug n = slugify (title n)
  /\ out n = Pathlib.div (Pathlib.div (Pathlib.div (OUT_DIR H) (topic n)) (course n))
               (slug n ++ ".qmd")
  /\ topic n <> "" /\ course n <> "" /\ slug n <> "".

(** A character that cannot leave a directory: neither the slash, nor
    the backslash, nor the dot, nor whitespace. *)
Definition path_safe_char (c : ascii) : bool :=
  negb (Ascii.eqb c "/") && negb (Ascii.eqb c "\") && negb (Ascii.eqb c ".")
  && negb (Py.isspace c).

(** Hosts for the examples: the in-memory host without the converter
    on the path, and with a converter that fails. *)
Definition host_without_pandoc : Host :=
  {| fs := mem_fs;
     repo_root := sample_root;
     path_exists := path_exists sample_host;
     is_dir := is_dir sample_host;
     sorted_rglob_tex := sorted_rglob_tex sample_host;
     read_text := read_text sample_host;
     write_text := write_text sample_host;
     mkdir_parents := mkdir_parents sample_host;
     rmtree := rmtree sample_host;
     unlink := unlink sample_host;
     copytree := copytree sample_host;
     pandoc_version_ok := fun _ => false;
     run := run sample_host;
     yaml_safe_dump := yaml_safe_dump sample_host |}.

Definition host_failing_pandoc : Host :=
  {| fs := mem_fs;
     repo_root := sample_root;
     path_exists := path_exists sample_host;
     is_dir := is_dir sample_host;
     sorted_rglob_tex := sorted_rglob_tex sample_host;
     read_text := read_text sample_host;
     write_text := write_text sample_host;
     mkdir_parents := mkdir_parents sample_host;
     rmtree := rmtree sample_host;
     unlink := unlink sample_host;
     copytree := copytree sample_host;
     pandoc_version_ok := fun _ => true;
     run := fun f _ => (1%Z, "bad input", f);
     yaml_safe_dump := yaml_safe_dump sample_host |}.

(** A staging directory with two notes of one course. *)
Definition newton_file : Path :=
  (sample_root ++ ["notes_staging"; "physics"; "mechanics"; "newton.tex"])%list.

Definition kepler_file : Path :=
  (sample_root ++ ["notes_staging"; "physics"; "mechanics"; "kepler_laws.tex"])%list.

Definition fs_two_notes : mem_fs :=
  [ (newton_file,
     "% title: Newton's Laws" ++ String Py.LF
       ("% date: 2024-01-05" ++ String Py.LF "% tags: classical, , motion"));
    (kepler_file, "\section{Kepler}") ].


Definition kepler_note : Note :=
  mkNote "Kepler Laws" None [] "physics" "mechanics" "kepler-laws" kepler_file
    (sample_root ++ ["notes"; "physics"; "mechanics"; "kepler-laws.qmd"])%list.

(** A tag as the registry keeps it: not empty and without whitespace
    around it. *)
Definition clean_tag (t : string) : Prop := t <> "" /\ Py.strip t = t.

(** ** Notions for the title taken from the file name *)

(** The title [build_notes_index] gives a note without a title line. *)
Definition stem_title (p : Path) : string :=
  Py.title (Py.replace_char "-" " " (Py.replace_char "_" " " (Pathlib.stem p))).

(** The note of [p] has no title of its own in the file system [f]. *)
Definition untitled (H : Host) (f : fs H) (p : Path) : Prop :=
  Dict.get_or (parse_tex_metadata (read_text H f p)) "title" "" = "".

(** A text of ASCII characters only. *)
Definition ascii_only (s : string) : bool :=
  Py.forallb (fun c => Py.ord c <? 128) s.

(** The two replacements on one character. *)
Definition spaced_char (c : ascii) : ascii :=
  let c' := if Ascii.eqb c "_" then " "%char else c in
  if Ascii.eqb c' "-" then " "%char else c'.

(** What separates the words of a slug: whitespace, the underscore and
    the hyphen. *)
Definition word_separator (c : ascii) : bool :=
  space_or_underscore c || is_hyphen c.

(** The kept characters of [s], every run of separators as one hyphen;
    [in_run] as for [squeeze_go]. *)
Definition hyphenated (in_run : bool) (s : string) : string :=
  squeeze_go word_separator "-" in_run (Py.filter word_space_hyphen s).

(** Two notes of one course whose titles differ in letter case only. *)
Definition fs_same_title : mem_fs :=
  [ (newton_file, "% title: Newton's Laws");
    (kepler_file, "% title: NEWTON'S LAWS") ].

(* ================================================================== *)
(** * Properties *)

(** ** Running the program: early exits *)

Section Exits.

Variable H : Host.

Lemma state_eta (st : state H) : mkState (files st) (stdout st) (stderr st) = st.
Proof. now destruct st. Qed.

Lemma infer_short (p rel : Path) (st : state H) :
  Pathlib.relative_to p (STAGING_DIR H) = Some rel ->
  List.length rel < 3 ->
  infer_topic_course H p st = (inl (SystemExit 1), with_stderr st (diagnostic_depth p)).
Proof.
  intros Hrel Hlen. unfold infer_topic_course, bind, of_option. rewrite Hrel.
  apply Nat.ltb_lt in Hlen. unfold ret at 1. rewrite Hlen.
  reflexivity.
Qed.

Lemma infer_deep (p rel : Path) (st : state H) :
  Pathlib.relative_to p (STAGING_DIR H) = Some rel ->
  3 <= List.length rel ->
  infer_topic_course H p st = (inr (nth 0 rel "", nth 1 rel ""), st).
Proof.
  intros Hrel Hlen. unfold infer_topic_course, bind, of_option. rewrite Hrel.
  unfold ret at 1.
  destruct (List.length rel <? 3) eqn:E; [apply Nat.ltb_lt in E; lia|].
  destruct rel as [|a [|b [|c r]]]; simpl in Hlen; try lia.
  reflexivity.
Qed.




Lemma build_notes_from_length (tex_files : list Path) (acc notes : list Note)
    (st st' : state H) :
  build_notes_from H tex_files acc st = (inr notes, st') ->
  List.length notes = List.length acc + List.length tex_files.
Proof.
  revert acc st. induction tex_files as [|p l IH]; intros acc st; simpl.
  - unfold ret. intros [= <- _]. lia.
  - unfold bind. destruct (index_note H p st) as [[e|n] st1]; [discriminate|].
    intros E. apply IH in E. rewrite length_app in E. simpl in E. lia.
Qed.

Lemma bind_ok {A B : Type} (m : M H A) (k : A -> M H B) (st st' : state H) (a : A) :
  m st = (inr a, st') -> bind H m k st = k a st'.
Proof. intros E. unfold bind. now rewrite E. Qed.

Lemma bind_raise {A B : Type} (m : M H A) (k : A -> M H B) (st st' : state H) (e : exn) :
  m st = (inl e, st') -> bind H m k st = (inl e, st').
Proof. intros E. unfold bind. now rewrite E. Qed.

Lemma require_pandoc_ok (st : state H) :
  pandoc_version_ok H (files st) = true -> require_pandoc H st = (inr tt, st).
Proof. intros E. unfold require_pandoc, bind, get_files. now rewrite E. Qed.

Lemma find_tex_files_ok (st : state H) :
  path_exists H (files st) (STAGING_DIR H) = true ->
  find_tex_files H st = (inr (sorted_rglob_tex H (files st) (STAGING_DIR H)), st).
Proof. intros E. unfold find_tex_files, bind, get_files. now rewrite E. Qed.

Lemma main_no_tex_files (st : state H) :
  pandoc_version_ok H (files st) = true ->
  path_exists H (files st) (STAGING_DIR H) = true ->
  sorted_rglob_tex H (files st) (STAGING_DIR H) = [] ->
  main H st
  = (inl (SystemExit 1),
     with_stderr st ("ERROR: No .tex files found under " ++ Pathlib.as_posix (STAGING_DIR H))).
Proof.
  intros Hp He Hr. unfold main.
  rewrite (bind_ok _ _ _ _ _ (require_pandoc_ok st Hp)).
  rewrite (bind_ok _ _ _ _ _ (find_tex_files_ok st He)).
  rewrite Hr. now erewrite bind_raise by reflexivity.
Qed.


Lemma generate_quarto_yml_empty (st : state H) :
  generate_quarto_yml H [] st = (inl (UnboundLocalError "sidebar_contents"), st).
Proof. reflexivity. Qed.

End Exits.

(** ** Stable sorting *)

Lemma StronglySorted_app {A : Type} (R : A -> A -> Prop) (l1 l2 : list A) :
  StronglySorted R l1 -> StronglySorted R l2 ->
  (forall a b, In a l1 -> In b l2 -> R a b) ->
  StronglySorted R (l1 ++ l2).
Proof.
  induction 1 as [|x l1 Hs IH Hx]; simpl; intros H2 Hc; [exact H2|].
  constructor.
  - apply IH; [exact H2|]. intros a b Ha Hb. apply Hc; [now right|exact Hb].
  - apply Forall_app. split; [exact Hx|].
    apply Forall_forall. intros b Hb. apply Hc; [now left|exact Hb].
Qed.

Lemma StronglySorted_rev {A : Type} (R : A -> A -> Prop) (l : list A) :
  StronglySorted R l -> StronglySorted (fun a b => R b a) (rev l).
Proof.
  induction 1 as [|x l Hs IH Hx]; simpl; [constructor|].
  apply StronglySorted_app; [exact IH|repeat constructor|].
  intros a b Ha [<-|[]]. apply in_rev in Ha.
  rewrite Forall_forall in Hx. now apply Hx.
Qed.

Lemma StronglySorted_firstn {A : Type} (R : A -> A -> Prop) (n : nat) (l : list A) :
  StronglySorted R l -> StronglySorted R (firstn n l).
Proof.
  intros Hs. revert n. induction Hs as [|x l Hs IH Hx]; intros [|n]; simpl; try constructor.
  - apply IH.
  - apply Forall_forall. intros y Hy. rewrite Forall_forall in Hx.
    apply Hx. rewrite <- (firstn_skipn n l). apply in_or_app. now left.
Qed.

Section SortingFacts.

Context {A K : Type}.
Variable lt : K -> K -> bool.
Variable key : A -> K.

Hypothesis lt_irrefl : forall a, lt a a = false.
Hypothesis lt_trans : forall a b c, lt a b = true -> lt b c = true -> lt a c = true.
Hypothesis lt_total : forall a b, lt a b = false -> lt b a = false -> a = b.

(** [a] may stand before [b] in ascending order. *)
Let le (a b : K) : Prop := lt b a = false.
Let ge (a b : K) : Prop := lt a b = false.

Lemma lt_asym a b : lt a b = true -> lt b a = false.
Proof.
  intros Hab. destruct (lt b a) eqn:Hba; [|reflexivity].
  rewrite <- (lt_irrefl a). symmetry. now apply lt_trans with b.
Qed.

Lemma le_trans a b c : le a b -> le b c -> le a c.
Proof.
  unfold le. intros Hab Hbc. destruct (lt c a) eqn:Hca; [|reflexivity].
  destruct (lt a b) eqn:E.
  - rewrite <- Hbc. symmetry. now apply lt_trans with a.
  - rewrite (lt_total a b E Hab) in Hca. congruence.
Qed.

Lemma insert_perm x l : Permutation (insert lt key x l) (x :: l).
Proof.
  induction l as [|y l IH]; simpl; [reflexivity|].
  destruct (lt (key y) (key x)); [|reflexivity].
  rewrite IH. apply perm_swap.
Qed.

Lemma stable_sort_perm l : Permutation (stable_sort lt key l) l.
Proof.
  induction l as [|x l IH]; simpl; [reflexivity|].
  rewrite insert_perm. now constructor.
Qed.

Lemma sorted_perm reverse l : Permutation (sorted lt key reverse l) l.
Proof.
  unfold sorted. destruct reverse.
  - rewrite <- Permutation_rev, stable_sort_perm. symmetry. apply Permutation_rev.
  - apply stable_sort_perm.
Qed.

Lemma sorted_length reverse l : List.length (sorted lt key reverse l) = List.length l.
Proof. apply Permutation_length, sorted_perm. Qed.

Lemma insert_ascending x l :
  ascending lt key l -> ascending lt key (insert lt key x l).
Proof.
  unfold ascending. induction 1 as [|y l Hs IH Hy]; simpl.
  - repeat constructor.
  - destruct (lt (key y) (key x)) eqn:E.
    + constructor; [exact IH|].
      apply Forall_forall. intros z Hz.
      apply (Permutation_in _ (insert_perm x l)) in Hz. destruct Hz as [<-|Hz].
      * now apply lt_asym.
      * rewrite Forall_forall in Hy. now apply Hy.
    + constructor; [now constructor|]. constructor; [exact E|].
      eapply Forall_impl; [|exact Hy]. intros z Hz. now apply le_trans with (key y).
Qed.

Lemma stable_sort_ascending l : ascending lt key (stable_sort lt key l).
Proof.
  induction l as [|x l IH]; simpl; [constructor|]. now apply insert_ascending.
Qed.

Lemma sorted_forward_ascending l : ascending lt key (sorted lt key false l).
Proof. apply stable_sort_ascending. Qed.

Lemma sorted_reverse_descending l : descending lt key (sorted lt key true l).
Proof.
  unfold sorted, descending.
  apply (StronglySorted_rev (fun a b => lt (key b) (key a) = false)).
  apply stable_sort_ascending.
Qed.

(** Stability: the elements of one key keep their order. *)
Lemma insert_filter k x l :
  List.filter (has_key lt key k) (insert lt key x l)
  = List.filter (has_key lt key k) (x :: l).
Proof.
  induction l as [|y l IH]; [reflexivity|].
  simpl insert. destruct (lt (key y) (key x)) eqn:E; [|reflexivity].
  change (List.filter (has_key lt key k) (y :: insert lt key x l))
    with (if has_key lt key k y then y :: List.filter (has_key lt key k) (insert lt key x l)
          else List.filter (has_key lt key k) (insert lt key x l)).
  rewrite IH. simpl.
  destruct (has_key lt key k x) eqn:Hx; [|reflexivity].
  assert (Hy : has_key lt key k y = false); [|now rewrite Hy].
  unfold has_key in *. apply andb_true_iff in Hx as [H1 H2].
  apply negb_true_iff in H1, H2. rewrite (lt_total _ _ H2 H1). now rewrite E.
Qed.

Lemma stable_sort_filter k l :
  List.filter (has_key lt key k) (stable_sort lt key l)
  = List.filter (has_key lt key k) l.
Proof.
  induction l as [|x l IH]; [reflexivity|].
  simpl stable_sort. rewrite insert_filter. simpl. now rewrite IH.
Qed.

Lemma filter_rev (p : A -> bool) l : List.filter p (rev l) = rev (List.filter p l).
Proof.
  induction l as [|x l IH]; [reflexivity|]. simpl.
  rewrite filter_app, IH. simpl. destruct (p x); simpl; [reflexivity|apply app_nil_r].
Qed.

Lemma sorted_stable reverse k l :
  List.filter (has_key lt key k) (sorted lt key reverse l)
  = List.filter (has_key lt key k) l.
Proof.
  unfold sorted. destruct reverse; [|apply stable_sort_filter].
  now rewrite filter_rev, stable_sort_filter, filter_rev, rev_involutive.
Qed.

(** A sorted list is determined by its elements. *)
Lemma sorted_unique (R : K -> K -> Prop) (l1 l2 : list K) :
  (forall a b, R a b -> R b a -> a = b) ->
  StronglySorted R l1 -> StronglySorted R l2 -> Permutation l1 l2 -> l1 = l2.
Proof.
  intros Hanti H1. revert l2. induction H1 as [|x l1 Hs IH Hx]; intros l2 H2 Hp.
  - now apply Permutation_nil in Hp.
  - destruct H2 as [|y l2 Hs2 Hy]; [symmetry in Hp; now apply Permutation_nil in Hp|].
    assert (x = y) as <-.
    { assert (Hxin : In x (y :: l2)) by (eapply Permutation_in; [exact Hp|now left]).
      assert (Hyin : In y (x :: l1)) by (eapply Permutation_in; [symmetry; exact Hp|now left]).
      destruct Hxin as [->|Hxin]; [reflexivity|].
      destruct Hyin as [->|Hyin]; [reflexivity|].
      rewrite Forall_forall in Hx, Hy. apply Hanti; [now apply Hx|now apply Hy]. }
    f_equal. apply IH; [exact Hs2|]. now apply Permutation_cons_inv in Hp.
Qed.

Lemma ascending_keys l :
  ascending lt key l -> StronglySorted (fun a b => lt b a = false) (List.map key l).
Proof.
  induction 1 as [|x l Hs IH Hx]; simpl; constructor; [exact IH|].
  apply Forall_map. exact Hx.
Qed.

(** With [reverse=True] the keys come in the reverse of their
    ascending order, whatever the ties. *)
Lemma sorted_reverse_keys l :
  List.map key (sorted lt key true l) = rev (List.map key (sorted lt key false l)).
Proof.
  apply (sorted_unique (fun a b => lt a b = false)).
  - intros a b Hab Hba. now apply lt_total.
  - unfold sorted. rewrite map_rev.
    apply (StronglySorted_rev (fun a b => lt b a = false)).
    apply ascending_keys, stable_sort_ascending.
  - apply (StronglySorted_rev (fun a b => lt b a = false)).
    apply ascending_keys, stable_sort_ascending.
  - rewrite <- Permutation_rev. apply Permutation_map.
    rewrite !sorted_perm. reflexivity.
Qed.

Lemma NoDup_map_injective (l : list A) a b :
  NoDup (List.map key l) -> In a l -> In b l -> key a = key b -> a = b.
Proof.
  induction l as [|x l IH]; simpl; [easy|].
  intros Hnd Ha Hb E. inversion Hnd as [|? ? Hx Hnd']; subst.
  destruct Ha as [->|Ha], Hb as [->|Hb]; auto.
  - exfalso. apply Hx. rewrite E. now apply in_map.
  - exfalso. apply Hx. rewrite <- E. now apply in_map.
Qed.

Lemma same_keys_same_list (l l1 l2 : list A) :
  NoDup (List.map key l) ->
  incl l1 l -> incl l2 l ->
  List.map key l1 = List.map key l2 -> l1 = l2.
Proof.
  intros Hnd. revert l2. induction l1 as [|x l1 IH]; intros [|y l2] H1 H2 E;
    try discriminate; [reflexivity|].
  simpl in E. injection E as Exy E.
  f_equal.
  - apply (NoDup_map_injective l); auto; [apply H1|apply H2]; now left.
  - apply IH; auto; intros z Hz; [apply H1|apply H2]; now right.
Qed.

(** Without ties, [reverse=True] is the reverse of the ascending sort. *)
Lemma sorted_reverse_distinct l :
  NoDup (List.map key l) ->
  sorted lt key true l = rev (sorted lt key false l).
Proof.
  intros Hnd. apply (same_keys_same_list l _ _ Hnd).
  - intros x Hx. eapply Permutation_in; [apply sorted_perm|exact Hx].
  - intros x Hx. apply in_rev in Hx. eapply Permutation_in; [apply sorted_perm|exact Hx].
  - rewrite map_rev. apply sorted_reverse_keys.
Qed.

End SortingFacts.

(** ** The orders of strings, dates and note keys *)

Lemma string_compare_refl (s : string) : String.compare s s = Eq.
Proof.
  induction s as [|c s IH]; simpl; [reflexivity|].
  unfold Ascii.compare. now rewrite N.compare_refl.
Qed.

Lemma string_compare_trans (a b c : string) :
  String.compare a b = Lt -> String.compare b c = Lt -> String.compare a c = Lt.
Proof.
  revert b c. induction a as [|x a IH]; intros [|y b] [|z c]; simpl; try easy.
  destruct (Ascii.compare x y) eqn:Exy; try discriminate.
  - apply Ascii.compare_eq_iff in Exy. subst y.
    destruct (Ascii.compare x z); try easy. intros. now apply IH with b.
  - intros _. destruct (Ascii.compare y z) eqn:Eyz; try discriminate.
    + apply Ascii.compare_eq_iff in Eyz. subst z. now rewrite Exy.
    + intros _. unfold Ascii.compare in *.
      rewrite N.compare_lt_iff in Exy, Eyz.
      assert (E : (N_of_ascii x ?= N_of_ascii z)%N = Lt)
        by (apply N.compare_lt_iff; lia).
      now rewrite E.
Qed.

Lemma string_ltb_irrefl (a : string) : String.ltb a a = false.
Proof. unfold String.ltb. now rewrite string_compare_refl. Qed.

Lemma string_ltb_trans (a b c : string) :
  String.ltb a b = true -> String.ltb b c = true -> String.ltb a c = true.
Proof.
  unfold String.ltb. intros Hab Hbc.
  destruct (String.compare a b) eqn:E1; try discriminate.
  destruct (String.compare b c) eqn:E2; try discriminate.
  now rewrite (string_compare_trans a b c E1 E2).
Qed.

Lemma string_ltb_total (a b : string) :
  String.ltb a b = false -> String.ltb b a = false -> a = b.
Proof.
  unfold String.ltb. rewrite (String.compare_antisym b a).
  destruct (String.compare a b) eqn:E; simpl; try discriminate.
  intros _ _. now apply String.compare_eq_iff.
Qed.

Lemma date_eqb_eq (a b : Datetime.date) : Datetime.date_eqb a b = true <-> a = b.
Proof.
  destruct a as [y m d], b as [y' m' d']. unfold Datetime.date_eqb. simpl.
  rewrite !andb_true_iff, !Nat.eqb_eq. split.
  - intros [[-> ->] ->]. reflexivity.
  - intros [= -> -> ->]. auto.
Qed.

Lemma date_ltb_lt (a b : Datetime.date) :
  Datetime.date_ltb a b = true <->
  Datetime.year a < Datetime.year b
  \/ (Datetime.year a = Datetime.year b
      /\ (Datetime.month a < Datetime.month b
          \/ (Datetime.month a = Datetime.month b /\ Datetime.day a < Datetime.day b))).
Proof.
  unfold Datetime.date_ltb.
  rewrite !orb_true_iff, !andb_true_iff, !orb_true_iff, !andb_true_iff.
  rewrite !Nat.ltb_lt, !Nat.eqb_eq. reflexivity.
Qed.

Lemma date_ltb_ge (a b : Datetime.date) :
  Datetime.date_ltb a b = false <->
  ~ (Datetime.year a < Datetime.year b
     \/ (Datetime.year a = Datetime.year b
         /\ (Datetime.month a < Datetime.month b
             \/ (Datetime.month a = Datetime.month b /\ Datetime.day a < Datetime.day b)))).
Proof. rewrite <- date_ltb_lt. symmetry. apply not_true_iff_false. Qed.

Lemma date_ltb_irrefl (a : Datetime.date) : Datetime.date_ltb a a = false.
Proof. apply date_ltb_ge. lia. Qed.

Lemma date_ltb_trans (a b c : Datetime.date) :
  Datetime.date_ltb a b = true -> Datetime.date_ltb b c = true ->
  Datetime.date_ltb a c = true.
Proof. rewrite !date_ltb_lt. lia. Qed.

Lemma date_ltb_total (a b : Datetime.date) :
  Datetime.date_ltb a b = false -> Datetime.date_ltb b a = false -> a = b.
Proof.
  rewrite !date_ltb_ge. destruct a as [y m d], b as [y' m' d']. simpl.
  intros H1 H2. f_equal; lia.
Qed.

Lemma key_ltb_irrefl (a : Datetime.date * string) : key_ltb a a = false.
Proof.
  unfold key_ltb. now rewrite date_ltb_irrefl, string_ltb_irrefl, andb_false_r.
Qed.

Lemma key_ltb_trans (a b c : Datetime.date * string) :
  key_ltb a b = true -> key_ltb b c = true -> key_ltb a c = true.
Proof.
  destruct a as [da ta], b as [db tb], c as [dc tc]. unfold key_ltb. simpl.
  rewrite !orb_true_iff, !andb_true_iff, !date_eqb_eq.
  intros [H1|[-> H1]] [H2|[-> H2]]; auto.
  - left. now apply date_ltb_trans with db.
  - right. split; [reflexivity|]. now apply string_ltb_trans with tb.
Qed.

Lemma key_ltb_total (a b : Datetime.date * string) :
  key_ltb a b = false -> key_ltb b a = false -> a = b.
Proof.
  destruct a as [da ta], b as [db tb]. unfold key_ltb. simpl.
  rewrite !orb_false_iff. intros [H1 H2] [H3 H4].
  assert (da = db) as -> by now apply date_ltb_total.
  assert (E : Datetime.date_eqb db db = true) by now apply date_eqb_eq.
  rewrite E in H2, H4. simpl in H2, H4.
  f_equal. now apply string_ltb_total.
Qed.

Ltac key_order :=
  first [ exact key_ltb_irrefl | exact key_ltb_trans | exact key_ltb_total
        | exact string_ltb_irrefl | exact string_ltb_trans | exact string_ltb_total ].

(** ** The date parser *)

Lemma strptime_valid (s : string) (r : Datetime.date) :
  Datetime.strptime_Y_m_d s = Some r ->
  Datetime.valid (Datetime.year r) (Datetime.month r) (Datetime.day r) = true.
Proof.
  unfold Datetime.strptime_Y_m_d.
  destruct (Re.match_here Datetime.format_regex_Y_m_d 0 s []) as [[found [|c rest]]|];
    try discriminate.
  unfold Datetime.make_date.
  destruct (Datetime.valid _ _ _) eqn:E; [|discriminate].
  now intros [= <-].
Qed.

Lemma parse_note_date_cases (d : option string) :
  parse_note_date d = Datetime.date_min
  \/ Datetime.valid (Datetime.year (parse_note_date d))
       (Datetime.month (parse_note_date d)) (Datetime.day (parse_note_date d)) = true.
Proof.
  unfold parse_note_date. destruct d as [[|c d]|]; auto.
  destruct (Datetime.strptime_Y_m_d _) eqn:E; auto.
  right. now apply strptime_valid in E.
Qed.

(** No parsed date is earlier than the sentinel. *)
Lemma parse_note_date_min (d : option string) :
  Datetime.date_ltb (parse_note_date d) Datetime.date_min = false.
Proof.
  destruct (parse_note_date_cases d) as [->|Hv]; [reflexivity|].
  destruct (parse_note_date d) as [y m dd]. simpl in Hv.
  unfold Datetime.valid in Hv. rewrite !andb_true_iff in Hv.
  destruct Hv as [[[[[H1 _] H2] _] H3] _].
  apply Nat.leb_le in H1, H2, H3.
  apply date_ltb_ge. simpl. lia.
Qed.

(** ** The homepage listing *)

Lemma StronglySorted_nth_error {A : Type} (R : A -> A -> Prop) (l : list A) :
  StronglySorted R l ->
  forall i j a b, i < j -> nth_error l i = Some a -> nth_error l j = Some b -> R a b.
Proof.
  induction 1 as [|x l Hs IH Hx]; intros i j a b Hij Ha Hb.
  - now destruct i.
  - destruct j as [|j]; [lia|]. simpl in Hb.
    destruct i as [|i]; simpl in Ha.
    + injection Ha as <-. rewrite Forall_forall in Hx.
      apply Hx. now apply nth_error_In with j.
    + apply IH with i j; auto; lia.
Qed.

Lemma recent_notes_descending (notes : list Note) :
  descending key_ltb note_key (recent_notes notes).
Proof.
  apply StronglySorted_firstn.
  apply sorted_reverse_descending; key_order.
Qed.

Lemma recent_notes_length (notes : list Note) :
  List.length (recent_notes notes) = Nat.min 30 (List.length notes).
Proof.
  unfold recent_notes. rewrite length_firstn. now rewrite sorted_length.
Qed.

(** In descending order a note whose date is the sentinel is followed
    by such notes only. *)
Lemma descending_sentinel_last (l : list Note) (i j : nat) (a b : Note) :
  descending key_ltb note_key l ->
  i < j -> nth_error l i = Some a -> nth_error l j = Some b ->
  parse_note_date (date a) = Datetime.date_min ->
  parse_note_date (date b) = Datetime.date_min.
Proof.
  intros Hd Hij Ha Hb Hmin.
  pose proof (StronglySorted_nth_error _ _ Hd i j a b Hij Ha Hb) as Hk.
  simpl in Hk. unfold key_ltb, note_key in Hk. simpl in Hk.
  apply orb_false_iff in Hk as [Hk _]. rewrite Hmin in Hk.
  apply date_ltb_total; [apply parse_note_date_min|exact Hk].
Qed.

Lemma undated_sentinel (n : Note) :
  dated n = false -> parse_note_date (date n) = Datetime.date_min.
Proof.
  unfold dated, parse_note_date. destruct (date n) as [[|c d]|]; auto.
  now destruct (Datetime.strptime_Y_m_d _).
Qed.

(** C1, as stated, fails: with [reverse=True] notes of equal key stay in
    registry order, so the listing of two same-titled undated notes is
    not the reverse of their ascending sort; and an undated note stands
    before a dated one whose date is the first day of the calendar. *)
Lemma C1_counterexample :
  recent_notes [lecture_algebra; lecture_calculus]
  <> firstn 30 (rev (sorted key_ltb note_key false [lecture_algebra; lecture_calculus]))
  /\ (nth_error (recent_notes [zeta_undated; alpha_year_one]) 0 = Some zeta_undated
      /\ nth_error (recent_notes [zeta_undated; alpha_year_one]) 1 = Some alpha_year_one
      /\ dated zeta_undated = false /\ dated alpha_year_one = true).
Proof.
  split.
  - intros E. vm_compute in E. discriminate E.
  - repeat split; reflexivity.
Qed.

(** C1 (amended): for every note registry the homepage's recent-notes
    listing is the first 30 notes of the registry in descending (parsed
    date, lowercase title) order, notes of equal key staying in registry
    order; its keys are the reverse of the ascending sort's keys,
    truncated to 30, and it is the truncated reverse of the ascending
    sort itself when no two notes share a key; its length is
    min(30, total note count); and a note whose date is missing or
    unparseable is followed only by notes whose parsed date is the
    sentinel. *)
Theorem C1_recent_notes (notes : list Note) :
  let full := sorted key_ltb note_key true notes in
  let ascending_sort := sorted key_ltb note_key false notes in
  recent_notes notes = firstn 30 full
  /\ Permutation full notes
  /\ descending key_ltb note_key full
  /\ (forall k, List.filter (has_key key_ltb note_key k) full
                = List.filter (has_key key_ltb note_key k) notes)
  /\ List.map note_key (recent_notes notes)
     = firstn 30 (rev (List.map note_key ascending_sort))
  /\ (NoDup (List.map note_key notes) ->
      recent_notes notes = firstn 30 (rev ascending_sort))
  /\ List.length (recent_notes notes) = Nat.min 30 (List.length notes)
  /\ (forall i j a b,
        i < j ->
        nth_error (recent_notes notes) i = Some a ->
        nth_error (recent_notes notes) j = Some b ->
        dated a = false ->
        parse_note_date (date b) = Datetime.date_min).
Proof.
  cbv zeta. repeat split.
  - apply sorted_perm.
  - apply sorted_reverse_descending; key_order.
  - intros k. apply sorted_stable; key_order.
  - unfold recent_notes. rewrite <- firstn_map. f_equal.
    apply sorted_reverse_keys; key_order.
  - intros Hnd. unfold recent_notes. f_equal.
    apply sorted_reverse_distinct; solve [key_order | exact Hnd].
  - apply recent_notes_length.
  - intros i j a b Hij Ha Hb Hund.
    apply (descending_sentinel_last (recent_notes notes) i j a b); auto.
    + apply recent_notes_descending.
    + now apply undated_sentinel.
Qed.

Lemma C1_recent_notes_witness :
  NoDup (List.map note_key [march_note; undated_note])
  /\ recent_notes [march_note; undated_note]
     = firstn 30 (rev (sorted key_ltb note_key false [march_note; undated_note])).
Proof.
  assert (Hnd : NoDup (List.map note_key [march_note; undated_note])).
  { vm_compute. repeat constructor; simpl; intuition discriminate. }
  split; [exact Hnd|].
  now apply (C1_recent_notes [march_note; undated_note]).
Defined.

(** ** Matching *)

Lemma first_some_app {A B : Type} (f : A -> option B) (l1 l2 : list A) :
  Re.first_some f (l1 ++ l2)
  = match Re.first_some f l1 with Some y => Some y | None => Re.first_some f l2 end.
Proof.
  induction l1 as [|x l1 IH]; simpl; [reflexivity|]. now destruct (f x).
Qed.

Lemma first_some_none {A B : Type} (f : A -> option B) (l : list A) :
  (forall x, In x l -> f x = None) -> Re.first_some f l = None.
Proof.
  induction l as [|x l IH]; simpl; intros Hn; [reflexivity|].
  rewrite (Hn x) by now left. apply IH. intros y Hy. apply Hn. now right.
Qed.





(** A class repeated a fixed number of times. *)
Lemma run_length_take (cls : ascii -> bool) (s : string) (n : nat) :
  n <= Re.run_length cls s ->
  String.length (Py.take n s) = n /\ Py.forallb cls (Py.take n s) = true.
Proof.
  revert s. induction n as [|n IH]; intros s Hn; [now destruct s|].
  destruct s as [|c s]; simpl in Hn; [lia|].
  destruct (cls c) eqn:E; [|lia]. simpl. rewrite E.
  destruct (IH s) as [H1 H2]; [lia|]. now rewrite H1, H2.
Qed.

Lemma take_drop (n : nat) (s : string) : Py.take n s ++ Py.drop n s = s.
Proof.
  revert s. induction n as [|n IH]; intros [|c s]; simpl; try reflexivity.
  now rewrite IH.
Qed.


(** ** Characters *)

Ltac each_char c :=
  destruct c as [[] [] [] [] [] [] [] []]; vm_compute; try reflexivity; try discriminate.






(** ** Stripping *)

Lemma lstrip_by_id (p : ascii -> bool) (c : ascii) (s : string) :
  p c = false -> Py.lstrip_by p (String c s) = String c s.
Proof. intros E. simpl. now rewrite E. Qed.

Lemma rstrip_by_none (p : ascii -> bool) (s : string) :
  Py.forallb (fun c => negb (p c)) s = true -> Py.rstrip_by p s = s.
Proof.
  induction s as [|c s IH]; simpl; [reflexivity|].
  intros H. apply andb_true_iff in H as [Hc Hs]. rewrite (IH Hs).
  apply negb_true_iff in Hc. rewrite Hc. now destruct s.
Qed.

Lemma strip_by_none (p : ascii -> bool) (s : string) :
  Py.forallb (fun c => negb (p c)) s = true -> Py.strip_by p s = s.
Proof.
  intros H. unfold Py.strip_by.
  destruct s as [|c s]; [reflexivity|].
  assert (Hc : p c = false).
  { simpl in H. apply andb_true_iff in H as [Hc _]. now apply negb_true_iff. }
  rewrite lstrip_by_id by exact Hc. now apply rstrip_by_none.
Qed.

Lemma forallb_impl (p q : ascii -> bool) (s : string) :
  (forall c, p c = true -> q c = true) ->
  Py.forallb p s = true -> Py.forallb q s = true.
Proof.
  intros Hpq. induction s as [|c s IH]; simpl; [reflexivity|].
  intros H. apply andb_true_iff in H as [Hc Hs]. now rewrite (Hpq c Hc), IH.
Qed.


(** ** The date expression *)



Lemma match_lit (c : ascii) (r : Re.regex) (pos : nat) (s : string) (g : Re.groups) :
  Re.match_here (Re.Lit c :: r) pos s g
  = match s with
    | String d s' => if Ascii.eqb c d then Re.match_here r (S pos) s' g else None
    | EmptyString => None
    end.
Proof. reflexivity. Qed.

Lemma match_rep (cls : ascii -> bool) (lo : nat) (hi : option nat) (greedy : bool)
    (grp : option nat) (r : Re.regex) (pos : nat) (s : string) (g : Re.groups) :
  Re.match_here (Re.Rep cls lo hi greedy grp :: r) pos s g
  = Re.first_some
      (fun k => Re.match_here r (pos + k) (Py.drop k s)
                  (Re.bind_group grp (Py.take k s) g))
      (Re.counts lo (Re.cap hi (Re.run_length cls s)) greedy).
Proof. reflexivity. Qed.







(** ** Numbers and their digits *)









(** ** What [strptime] accepts *)







Lemma forallb_app (p : ascii -> bool) (a b : string) :
  Py.forallb p (a ++ b) = Py.forallb p a && Py.forallb p b.
Proof. induction a as [|c a IH]; simpl; [reflexivity|]. now rewrite IH, andb_assoc. Qed.












(** ** Dictionaries *)

Lemma dict_get_set {V : Type} (d : Dict.t V) (k k' : string) (v : V) :
  Dict.get (Dict.set d k v) k'
  = if String.eqb k k' then Some v else Dict.get d k'.
Proof.
  induction d as [|[k0 v0] d IH]; simpl.
  - reflexivity.
  - destruct (String.eqb_spec k0 k) as [->|Hne]; simpl.
    + now destruct (String.eqb k k').
    + rewrite IH. destruct (String.eqb_spec k0 k') as [->|]; [|reflexivity].
      destruct (String.eqb_spec k k'); [congruence|reflexivity].
Qed.

Lemma dict_get_in {V : Type} (d : Dict.t V) (k : string) :
  In k (Dict.keys d) <-> Dict.get d k <> None.
Proof.
  induction d as [|[k0 v0] d IH]; simpl; [tauto|].
  destruct (String.eqb_spec k0 k) as [->|Hne].
  - split; [discriminate|auto].
  - rewrite <- IH. tauto.
Qed.

Lemma dict_keys_set {V : Type} (d : Dict.t V) (k : string) (v : V) :
  Dict.keys (Dict.set d k v)
  = match Dict.get d k with
    | Some _ => Dict.keys d
    | None => (Dict.keys d ++ [k])%list
    end.
Proof.
  induction d as [|[k0 v0] d IH]; simpl; [reflexivity|].
  destruct (String.eqb_spec k0 k) as [->|Hne]; simpl; [reflexivity|].
  fold (Dict.keys (Dict.set d k v)). fold (Dict.keys d).
  rewrite IH. now destruct (Dict.get d k).
Qed.

Lemma dict_keys_set_in {V : Type} (d : Dict.t V) (k k' : string) (v : V) :
  In k' (Dict.keys (Dict.set d k v)) <-> k = k' \/ In k' (Dict.keys d).
Proof.
  rewrite !dict_get_in, dict_get_set.
  destruct (String.eqb_spec k k'); split; auto; try discriminate.
  intros [?|?]; congruence.
Qed.

Lemma dict_keys_set_nodup {V : Type} (d : Dict.t V) (k : string) (v : V) :
  NoDup (Dict.keys d) -> NoDup (Dict.keys (Dict.set d k v)).
Proof.
  intros Hnd. rewrite dict_keys_set. destruct (Dict.get d k) eqn:E; [exact Hnd|].
  apply NoDup_app; [exact Hnd|repeat constructor; auto|].
  intros x Hx [<-|[]]. apply dict_get_in in Hx. congruence.
Qed.

Lemma dict_get_or_set {V : Type} (d : Dict.t V) (k k' : string) (v default : V) :
  Dict.get_or (Dict.set d k v) k' default
  = if String.eqb k k' then v else Dict.get_or d k' default.
Proof. unfold Dict.get_or. rewrite dict_get_set. now destruct (String.eqb k k'). Qed.

(** ** Grouping *)

Lemma lookup2_tree_add (tree : tree_t) (n : Note) (t c : string) :
  lookup2 (tree_add tree n) t c
  = if String.eqb (topic n) t && String.eqb (course n) c
    then (lookup2 tree t c ++ [n])%list else lookup2 tree t c.
Proof.
  unfold lookup2, tree_add. rewrite dict_get_or_set.
  destruct (String.eqb_spec (topic n) t) as [<-|]; [|reflexivity].
  rewrite dict_get_or_set. now destruct (String.eqb_spec (course n) c) as [<-|].
Qed.

Lemma topics_tree_add (tree : tree_t) (n : Note) (t : string) :
  In t (Dict.keys (tree_add tree n)) <-> topic n = t \/ In t (Dict.keys tree).
Proof. unfold tree_add. apply dict_keys_set_in. Qed.

Lemma courses_tree_add (tree : tree_t) (n : Note) (t c : string) :
  In c (Dict.keys (Dict.get_or (tree_add tree n) t []))
  <-> (topic n = t /\ course n = c) \/ In c (Dict.keys (Dict.get_or tree t [])).
Proof.
  unfold tree_add. rewrite dict_get_or_set.
  destruct (String.eqb_spec (topic n) t) as [<-|Hne].
  - rewrite dict_keys_set_in. tauto.
  - tauto.
Qed.

Lemma nodup_tree_add (tree : tree_t) (n : Note) :
  NoDup (Dict.keys tree) ->
  (forall t, NoDup (Dict.keys (Dict.get_or tree t []))) ->
  NoDup (Dict.keys (tree_add tree n))
  /\ (forall t, NoDup (Dict.keys (Dict.get_or (tree_add tree n) t []))).
Proof.
  intros H1 H2. split.
  - now apply dict_keys_set_nodup.
  - intros t. unfold tree_add. rewrite dict_get_or_set.
    destruct (String.eqb (topic n) t); [|apply H2].
    apply dict_keys_set_nodup, H2.
Qed.

Lemma group_of_cons (n : Note) (notes : list Note) (t c : string) :
  group_of (n :: notes) t c
  = ((if String.eqb (topic n) t && String.eqb (course n) c then [n] else [])
     ++ group_of notes t c)%list.
Proof. unfold group_of. simpl. now destruct (_ && _). Qed.

Lemma fold_tree_lookup (notes : list Note) (tree : tree_t) (t c : string) :
  lookup2 (fold_left tree_add notes tree) t c
  = (lookup2 tree t c ++ group_of notes t c)%list.
Proof.
  revert tree. induction notes as [|n notes IH]; intros tree.
  - unfold group_of. simpl. now rewrite app_nil_r.
  - cbn [fold_left]. rewrite IH, lookup2_tree_add, group_of_cons.
    destruct (_ && _); [now rewrite <- app_assoc|reflexivity].
Qed.

Lemma fold_tree_topics (notes : list Note) (tree : tree_t) (t : string) :
  In t (Dict.keys (fold_left tree_add notes tree))
  <-> In t (Dict.keys tree) \/ exists n, In n notes /\ topic n = t.
Proof.
  revert tree. induction notes as [|n notes IH]; intros tree; simpl.
  - split; [auto|]. intros [?|(n & [] & _)]; auto.
  - rewrite IH, topics_tree_add. split.
    + intros [[E|Hin]|(m & Hm & E)]; eauto.
    + intros [Hin|(m & [<-|Hm] & E)]; eauto.
Qed.

Lemma fold_tree_courses (notes : list Note) (tree : tree_t) (t c : string) :
  In c (Dict.keys (Dict.get_or (fold_left tree_add notes tree) t []))
  <-> In c (Dict.keys (Dict.get_or tree t []))
      \/ exists n, In n notes /\ topic n = t /\ course n = c.
Proof.
  revert tree. induction notes as [|n notes IH]; intros tree; simpl.
  - split; [auto|]. intros [?|(n & [] & _)]; auto.
  - rewrite IH, courses_tree_add. split.
    + intros [[[E1 E2]|Hin]|(m & Hm & E)]; eauto 6.
    + intros [Hin|(m & [<-|Hm] & E)]; eauto 6.
Qed.

Lemma fold_tree_nodup (notes : list Note) (tree : tree_t) :
  NoDup (Dict.keys tree) ->
  (forall t, NoDup (Dict.keys (Dict.get_or tree t []))) ->
  NoDup (Dict.keys (fold_left tree_add notes tree))
  /\ (forall t, NoDup (Dict.keys (Dict.get_or (fold_left tree_add notes tree) t []))).
Proof.
  revert tree. induction notes as [|n notes IH]; intros tree H1 H2; simpl; [auto|].
  destruct (nodup_tree_add tree n H1 H2) as [H3 H4]. now apply IH.
Qed.

Lemma build_tree_lookup (notes : list Note) (t c : string) :
  lookup2 (build_tree notes) t c = group_of notes t c.
Proof. unfold build_tree. now rewrite fold_tree_lookup. Qed.

Lemma build_tree_topics (notes : list Note) (t : string) :
  In t (Dict.keys (build_tree notes)) <-> exists n, In n notes /\ topic n = t.
Proof. unfold build_tree. rewrite fold_tree_topics. simpl. tauto. Qed.

Lemma build_tree_courses (notes : list Note) (t c : string) :
  In c (Dict.keys (Dict.get_or (build_tree notes) t []))
  <-> exists n, In n notes /\ topic n = t /\ course n = c.
Proof. unfold build_tree. rewrite fold_tree_courses. simpl. tauto. Qed.

Lemma build_tree_nodup (notes : list Note) :
  NoDup (Dict.keys (build_tree notes))
  /\ (forall t, NoDup (Dict.keys (Dict.get_or (build_tree notes) t []))).
Proof.
  apply fold_tree_nodup; [constructor|]. intros t. constructor.
Qed.

(** ** Emitting the navigation *)

Section Navigation.

Variable H : Host.

Lemma sort_pass_spec (tree : tree_t) (sc : option (list yaml)) :
  sort_pass tree sc
  = (List.map (fun tc => (fst tc, sort_courses (snd tc))) tree,
     match tree with [] => sc | _ :: _ => Some [home_link] end).
Proof.
  revert sc. induction tree as [|[t cs] tree IH]; intros sc; simpl; [reflexivity|].
  rewrite IH. now destruct tree.
Qed.

Lemma dict_get_map {V W : Type} (f : V -> W) (d : Dict.t V) (k : string) :
  Dict.get (List.map (fun e => (fst e, f (snd e))) d) k = option_map f (Dict.get d k).
Proof.
  induction d as [|[k0 v0] d IH]; simpl; [reflexivity|].
  now destruct (String.eqb k0 k).
Qed.

Lemma dict_keys_map {V W : Type} (f : V -> W) (d : Dict.t V) :
  Dict.keys (List.map (fun e => (fst e, f (snd e))) d) = Dict.keys d.
Proof. unfold Dict.keys. rewrite map_map. reflexivity. Qed.

Lemma sorted_courses_get (cs : Dict.t (list Note)) (c : string) :
  Dict.get_or (sort_courses cs) c []
  = sorted key_ltb note_key false (Dict.get_or cs c []).
Proof.
  unfold Dict.get_or, sort_courses.
  rewrite (dict_get_map (sorted key_ltb note_key false)).
  now destruct (Dict.get cs c).
Qed.

Lemma sorted_tree_get (tree : tree_t) (t : string) :
  Dict.get_or (List.map (fun tc => (fst tc, sort_courses (snd tc))) tree) t []
  = sort_courses (Dict.get_or tree t []).
Proof.
  unfold Dict.get_or. rewrite (dict_get_map sort_courses).
  now destruct (Dict.get tree t).
Qed.

Lemma collect_map {A B : Type} (f : A -> exn + B) (g : A -> B) (l : list A) :
  (forall x, In x l -> f x = inr (g x)) -> collect f l = inr (List.map g l).
Proof.
  induction l as [|x l IH]; intros Hf; simpl; [reflexivity|].
  rewrite (Hf x) by now left. rewrite IH; [reflexivity|].
  intros y Hy. apply Hf. now right.
Qed.

Lemma note_link_ok (n : Note) : in_repo H n -> note_link H n = inr (link_of H n).
Proof.
  unfold in_repo, note_link, link_of, href_of.
  now destruct (Pathlib.relative_to (out n) (REPO_ROOT H)).
Qed.

Lemma group_of_incl (notes : list Note) (t c : string) (n : Note) :
  In n (group_of notes t c) -> In n notes /\ topic n = t /\ course n = c.
Proof.
  unfold group_of. rewrite filter_In, andb_true_iff, !String.eqb_eq. tauto.
Qed.

Lemma append_topics_spec (tree : tree_t) (topics : list string) (sc : list yaml) :
  append_topics H tree topics (Some sc)
  = match collect (topic_section H tree) topics with
    | inl e => inl e
    | inr secs => inr (Some (sc ++ secs)%list)
    end.
Proof.
  revert sc. induction topics as [|t topics IH]; intros sc; simpl.
  - now rewrite app_nil_r.
  - destruct (topic_section H tree t) as [e|sec]; [reflexivity|].
    rewrite IH. destruct (collect _ topics); [reflexivity|].
    now rewrite <- app_assoc.
Qed.

(** The configuration of a registry whose notes lie in the repository. *)
Lemma sidebar_spec (notes : list Note) :
  notes <> [] -> Forall (in_repo H) notes ->
  sidebar H notes = inr (home_link :: List.map (render_topic H) (nav_groups notes)).
Proof.
  intros Hne Hrepo. unfold sidebar. rewrite sort_pass_spec.
  assert (Htree : build_tree notes <> []).
  { destruct notes as [|n notes]; [congruence|].
    intros E. assert (Hin : In (topic n) (Dict.keys (build_tree (n :: notes)))).
    { apply build_tree_topics. exists n. split; [now left|reflexivity]. }
    now rewrite E in Hin. }
  destruct (build_tree notes) as [|e tree] eqn:Etree; [congruence|].
  rewrite <- Etree. clear Htree.
  set (tree' := List.map (fun tc => (fst tc, sort_courses (snd tc))) (build_tree notes)).
  rewrite append_topics_spec.
  assert (Hkeys : sorted_keys tree' = sorted_keys (build_tree notes)).
  { unfold sorted_keys, tree'. now rewrite (dict_keys_map sort_courses). }
  rewrite Hkeys.
  rewrite (collect_map _ (fun t => render_topic H (t, nav_courses notes t))).
  - unfold nav_groups. now rewrite map_map.
  - intros t _. unfold topic_section, tree'. rewrite sorted_tree_get.
    assert (Hck : sorted_keys (sort_courses (Dict.get_or (build_tree notes) t []))
                  = sorted_keys (Dict.get_or (build_tree notes) t [])).
    { unfold sorted_keys, sort_courses.
      now rewrite (dict_keys_map (sorted key_ltb note_key false)). }
    rewrite Hck.
    rewrite (collect_map _ (fun c => render_course H
               (c, sorted key_ltb note_key false (group_of notes t c)))).
    + unfold render_topic, nav_courses. cbn [fst snd]. now rewrite map_map.
    + intros c _. unfold course_section. rewrite sorted_courses_get.
      change (Dict.get_or (Dict.get_or (build_tree notes) t []) c [])
        with (lookup2 (build_tree notes) t c).
      rewrite build_tree_lookup.
      rewrite (collect_map _ (link_of H)); [reflexivity|].
      intros n Hn. apply note_link_ok.
      apply (Permutation_in _ (sorted_perm _ _ _ _)) in Hn.
      apply group_of_incl in Hn as [Hn _].
      rewrite Forall_forall in Hrepo. now apply Hrepo.
Qed.

End Navigation.

(** ** The groups in navigation order *)

Lemma sorted_keys_perm {V : Type} (d : Dict.t V) :
  Permutation (sorted_keys d) (Dict.keys d).
Proof. exact (sorted_perm String.ltb (fun k : string => k) false (Dict.keys d)). Qed.

Lemma sorted_keys_in {V : Type} (d : Dict.t V) (k : string) :
  In k (sorted_keys d) <-> In k (Dict.keys d).
Proof.
  split; intros Hk.
  - exact (Permutation_in _ (sorted_keys_perm d) Hk).
  - exact (Permutation_in _ (Permutation_sym (sorted_keys_perm d)) Hk).
Qed.

Lemma sorted_keys_nodup {V : Type} (d : Dict.t V) :
  NoDup (Dict.keys d) -> NoDup (sorted_keys d).
Proof.
  intros Hnd. exact (Permutation_NoDup (Permutation_sym (sorted_keys_perm d)) Hnd).
Qed.

Lemma sorted_keys_alphabetical {V : Type} (d : Dict.t V) :
  NoDup (Dict.keys d) -> alphabetical (sorted_keys d).
Proof.
  intros Hnd. apply sorted_keys_nodup in Hnd.
  assert (Hs : ascending String.ltb (fun k : string => k) (sorted_keys d))
    by (apply sorted_forward_ascending; key_order).
  unfold alphabetical, ascending in *.
  induction Hs as [|x l Hs IH Hx]; [constructor|].
  inversion Hnd as [|? ? Hnx Hnd']; subst.
  constructor; [now apply IH|].
  rewrite Forall_forall in *. intros y Hy.
  destruct (String.ltb x y) eqn:E; [reflexivity|].
  exfalso. apply Hnx.
  rewrite (string_ltb_total x y E (Hx y Hy)). exact Hy.
Qed.

Lemma flat_map_nil {A B : Type} (l : list A) : flat_map (fun _ => @nil B) l = [].
Proof. induction l; simpl; auto. Qed.

Lemma flat_map_app_perm {A B : Type} (g h : A -> list B) (l : list A) :
  Permutation (flat_map (fun k => g k ++ h k)%list l) (flat_map g l ++ flat_map h l).
Proof.
  induction l as [|k l IH]; simpl; [reflexivity|].
  rewrite IH, <- !app_assoc. apply Permutation_app_head.
  rewrite !app_assoc. apply Permutation_app_tail. apply Permutation_app_comm.
Qed.

Lemma flat_map_perm {A B : Type} (g h : A -> list B) (l : list A) :
  (forall k, In k l -> Permutation (g k) (h k)) ->
  Permutation (flat_map g l) (flat_map h l).
Proof.
  induction l as [|k l IH]; intros Hp; simpl; [reflexivity|].
  apply Permutation_app; [apply Hp; now left|]. apply IH. intros; apply Hp; now right.
Qed.

Lemma flat_map_single {B : Type} (x : B) (k : string) (ks : list string) :
  NoDup ks -> In k ks ->
  flat_map (fun k' => if String.eqb k k' then [x] else []) ks = [x].
Proof.
  induction ks as [|k0 ks IH]; intros Hnd Hin; [easy|]. simpl.
  inversion Hnd as [|? ? Hn Hnd']; subst.
  destruct (String.eqb_spec k k0) as [->|Hne].
  - simpl. f_equal. clear IH Hin Hnd. induction ks as [|k1 ks IH]; [reflexivity|]. simpl.
    destruct (String.eqb_spec k0 k1) as [->|]; [exfalso; apply Hn; now left|].
    apply IH; [intros Hk; apply Hn; now right|now inversion Hnd'].
  - destruct Hin as [->|Hin]; [congruence|]. simpl. now apply IH.
Qed.

(** Splitting a list by a name: the parts, taken over all names, hold
    every element once. *)
Lemma split_by_name_perm {A : Type} (f : A -> string) (ks : list string) (l : list A) :
  NoDup ks -> (forall x, In x l -> In (f x) ks) ->
  Permutation (flat_map (fun k => List.filter (fun x => String.eqb (f x) k) l) ks) l.
Proof.
  intros Hnd. induction l as [|x l IH]; intros Hin.
  - simpl. now rewrite flat_map_nil.
  - transitivity (flat_map (fun k => (if String.eqb (f x) k then [x] else [])
                                     ++ List.filter (fun y => String.eqb (f y) k) l)%list ks).
    + apply flat_map_perm. intros k _. simpl. now destruct (String.eqb (f x) k).
    + rewrite flat_map_app_perm, flat_map_single; [|exact Hnd|apply Hin; now left].
      simpl. constructor. apply IH. intros y Hy. apply Hin. now right.
Qed.

Lemma group_of_filter (notes : list Note) (t c : string) :
  group_of notes t c
  = List.filter (fun n => String.eqb (course n) c)
      (List.filter (fun n => String.eqb (topic n) t) notes).
Proof.
  unfold group_of. induction notes as [|n notes IH]; simpl; [reflexivity|].
  destruct (String.eqb (topic n) t); simpl; [|exact IH].
  destruct (String.eqb (course n) c); now rewrite IH.
Qed.

Lemma nav_courses_perm (notes : list Note) (t : string) :
  Permutation (flat_map snd (nav_courses notes t))
    (List.filter (fun n => String.eqb (topic n) t) notes).
Proof.
  unfold nav_courses. rewrite flat_map_concat_map, map_map, <- flat_map_concat_map.
  cbn [snd].
  transitivity (flat_map (fun c => List.filter (fun n => String.eqb (course n) c)
                  (List.filter (fun n => String.eqb (topic n) t) notes))
                (sorted_keys (Dict.get_or (build_tree notes) t []))).
  - apply flat_map_perm. intros c _. rewrite <- group_of_filter. apply sorted_perm.
  - apply split_by_name_perm.
    + apply sorted_keys_nodup, build_tree_nodup.
    + intros n Hn. apply filter_In in Hn as [Hn Ht]. apply String.eqb_eq in Ht.
      apply sorted_keys_in, build_tree_courses. now exists n.
Qed.

Lemma nav_groups_perm (notes : list Note) :
  Permutation (flat_map (fun tc => flat_map snd (snd tc)) (nav_groups notes)) notes.
Proof.
  unfold nav_groups. rewrite flat_map_concat_map, map_map, <- flat_map_concat_map.
  cbn [snd].
  transitivity (flat_map (fun t => List.filter (fun n => String.eqb (topic n) t) notes)
                  (sorted_keys (build_tree notes))).
  - apply flat_map_perm. intros t _. apply nav_courses_perm.
  - apply split_by_name_perm.
    + apply sorted_keys_nodup, build_tree_nodup.
    + intros n Hn. apply sorted_keys_in, build_tree_topics. now exists n.
Qed.

Lemma leaves_section (name : string) (items : list yaml) :
  leaves (section name items) = flat_map leaves items.
Proof. reflexivity. Qed.

Lemma leaves_link (H : Host) (n : Note) : leaves (link_of H n) = [link_of H n].
Proof. reflexivity. Qed.

Lemma leaves_links (H : Host) (g : list Note) :
  flat_map leaves (List.map (link_of H) g) = List.map (link_of H) g.
Proof.
  induction g as [|n g IH]; [reflexivity|].
  cbn [List.map flat_map]. now rewrite leaves_link, IH.
Qed.

Lemma leaves_render_course (H : Host) (cg : string * list Note) :
  leaves (render_course H cg) = List.map (link_of H) (snd cg).
Proof. unfold render_course. rewrite leaves_section. apply leaves_links. Qed.

Lemma leaves_render_topic (H : Host) (tc : string * list (string * list Note)) :
  leaves (render_topic H tc) = List.map (link_of H) (flat_map snd (snd tc)).
Proof.
  unfold render_topic. rewrite leaves_section.
  induction (snd tc) as [|cg courses IH]; [reflexivity|].
  cbn [List.map flat_map]. now rewrite leaves_render_course, IH, map_app.
Qed.

Lemma leaves_sidebar (H : Host) (groups : list (string * list (string * list Note))) :
  flat_map leaves (home_link :: List.map (render_topic H) groups)
  = home_link :: List.map (link_of H) (flat_map (fun tc => flat_map snd (snd tc)) groups).
Proof.
  cbn [flat_map]. change (leaves home_link) with [home_link]. cbn [app]. f_equal.
  induction groups as [|tc groups IH]; [reflexivity|].
  cbn [List.map flat_map]. now rewrite IH, map_app, leaves_render_topic.
Qed.

Lemma nav_courses_in (notes : list Note) (t c : string) (g : list Note) :
  In (c, g) (nav_courses notes t) ->
  g = sorted key_ltb note_key false (group_of notes t c).
Proof.
  unfold nav_courses. rewrite in_map_iff. now intros (c' & [= <- <-] & _).
Qed.

Lemma nav_groups_in (notes : list Note) (t : string) (courses : list (string * list Note)) :
  In (t, courses) (nav_groups notes) -> courses = nav_courses notes t.
Proof.
  unfold nav_groups. rewrite in_map_iff. now intros (t' & [= <- <-] & _).
Qed.

(** C2: for every non-empty note registry (its notes lying in the
    repository, as [build_notes_index] makes them) the emitted sidebar
    begins with the fixed Home entry, followed by one section per topic
    in ascending order of the sanitized topic name, each holding one
    section per course in ascending order of the sanitized course name,
    each listing the notes of that group so that for every adjacent
    pair (a, b) the sort key of a is not greater than that of b. *)
Theorem C2_sidebar (H : Host) (notes : list Note) (st : state H) :
  notes <> [] -> Forall (in_repo H) notes ->
  exists groups : list (string * list (string * list Note)),
    sidebar H notes = inr (home_link :: List.map (render_topic H) groups)
    /\ generate_quarto_yml H notes st
       = (inr tt,
          mkState (write_text H (files st) (Pathlib.div (REPO_ROOT H) "_quarto.yml")
                     (yaml_safe_dump H
                        (quarto_config (home_link :: List.map (render_topic H) groups))
                        (Some 120)))
                  (stdout st) (stderr st))
    /\ alphabetical (List.map fst groups)
    /\ (forall t, In t (List.map fst groups) <-> exists n, In n notes /\ topic n = t)
    /\ (forall t courses, In (t, courses) groups ->
          alphabetical (List.map fst courses)
          /\ (forall c, In c (List.map fst courses)
                        <-> exists n, In n notes /\ topic n = t /\ course n = c)
          /\ (forall c g, In (c, g) courses ->
                Permutation g (group_of notes t c)
                /\ (forall i a b,
                      nth_error g i = Some a -> nth_error g (S i) = Some b ->
                      key_ltb (note_key b) (note_key a) = false))).
Proof.
  intros Hne Hrepo. exists (nav_groups notes).
  pose proof (sidebar_spec H notes Hne Hrepo) as Hs.
  split; [exact Hs|]. split.
  { unfold generate_quarto_yml. rewrite Hs. reflexivity. }
  assert (Hfst : List.map fst (nav_groups notes) = sorted_keys (build_tree notes)).
  { unfold nav_groups. rewrite map_map. apply map_id. }
  split; [|split].
  - rewrite Hfst. apply sorted_keys_alphabetical, build_tree_nodup.
  - intros t. rewrite Hfst, sorted_keys_in. apply build_tree_topics.
  - intros t courses Hin. apply nav_groups_in in Hin. subst courses.
    assert (Hc : List.map fst (nav_courses notes t)
                 = sorted_keys (Dict.get_or (build_tree notes) t [])).
    { unfold nav_courses. rewrite map_map. apply map_id. }
    split; [|split].
    + rewrite Hc. apply sorted_keys_alphabetical, build_tree_nodup.
    + intros c. rewrite Hc, sorted_keys_in. apply build_tree_courses.
    + intros c g Hg. apply nav_courses_in in Hg. subst g. split.
      * apply sorted_perm.
      * intros i a b Ha Hb.
        apply (StronglySorted_nth_error _ _
                 (sorted_forward_ascending key_ltb note_key
                    key_ltb_irrefl key_ltb_trans key_ltb_total (group_of notes t c))
                 i (S i) a b); auto.
Qed.

Lemma sample_registry_in_repo : Forall (in_repo sample_host) sample_registry.
Proof. repeat constructor; discriminate. Qed.

Lemma C2_sidebar_witness :
  sample_registry <> [] /\ Forall (in_repo sample_host) sample_registry
  /\ exists groups,
       sidebar sample_host sample_registry
       = inr (home_link :: List.map (render_topic sample_host) groups).
Proof.
  split; [discriminate|]. split; [exact sample_registry_in_repo|].
  destruct (C2_sidebar sample_host sample_registry (mkState (H:=sample_host) [] [] []))
    as (groups & Hs & _).
  - discriminate.
  - exact sample_registry_in_repo.
  - now exists groups.
Defined.

(** C4: for every non-empty note registry (its notes lying in the
    repository) grouping puts every note into exactly one
    (topic, course) group, that of its own topic and course; emitting
    the navigation succeeds whatever the dates and titles are, and each
    note appears exactly once as a leaf of the emitted tree: the leaves
    after the Home entry are the links of a rearrangement of the
    registry. *)
Theorem C4_grouping (H : Host) (notes : list Note) :
  notes <> [] -> Forall (in_repo H) notes ->
  (forall t c, lookup2 (build_tree notes) t c = group_of notes t c)
  /\ (forall n t c, In n notes ->
        (In n (group_of notes t c) <-> t = topic n /\ c = course n))
  /\ exists contents arranged,
       sidebar H notes = inr contents
       /\ Permutation arranged notes
       /\ flat_map leaves contents = home_link :: List.map (link_of H) arranged.
Proof.
  intros Hne Hrepo. split; [apply build_tree_lookup|]. split.
  - intros n t c Hn. unfold group_of.
    rewrite filter_In, andb_true_iff, !String.eqb_eq. split.
    + intros [_ [<- <-]]. auto.
    + intros [-> ->]. auto.
  - exists (home_link :: List.map (render_topic H) (nav_groups notes)),
      (flat_map (fun tc => flat_map snd (snd tc)) (nav_groups notes)).
    split; [now apply sidebar_spec|]. split; [apply nav_groups_perm|].
    apply leaves_sidebar.
Qed.

Lemma C4_grouping_witness :
  sample_registry <> [] /\ Forall (in_repo sample_host) sample_registry
  /\ exists contents arranged,
       sidebar sample_host sample_registry = inr contents
       /\ Permutation arranged sample_registry
       /\ flat_map leaves contents
          = home_link :: List.map (link_of sample_host) arranged.
Proof.
  split; [discriminate|]. split; [exact sample_registry_in_repo|].
  apply (C4_grouping sample_host sample_registry);
    [discriminate|exact sample_registry_in_repo].
Defined.

(** ** The registry that [build_notes_index] makes *)

Lemma relative_to_app (root rest : Path) :
  Pathlib.relative_to (root ++ rest)%list root = Some rest.
Proof.
  induction root as [|x root IH]; simpl; [now destruct rest|].
  now rewrite String.eqb_refl.
Qed.

Lemma index_note_in_repo (H : Host) (p : Path) (st st' : state H) (n : Note) :
  index_note H p st = (inr n, st') -> in_repo H n.
Proof.
  unfold index_note, bind, get_files.
  destruct (infer_topic_course H p st) as [[e|tc] st1]; [discriminate|].
  unfold ret. intros [= <- _]. unfold in_repo. cbn [out].
  unfold OUT_DIR, Pathlib.div. rewrite <- !app_assoc.
  now rewrite relative_to_app.
Qed.

Lemma build_notes_from_in_repo (H : Host) (tex_files : list Path)
    (acc notes : list Note) (st st' : state H) :
  Forall (in_repo H) acc ->
  build_notes_from H tex_files acc st = (inr notes, st') ->
  Forall (in_repo H) notes.
Proof.
  revert acc st. induction tex_files as [|p l IH]; intros acc st Hacc; simpl.
  - unfold ret. now intros [= <- _].
  - unfold bind. destruct (index_note H p st) as [[e|n] st1] eqn:E; [discriminate|].
    apply IH. apply Forall_app. split; [exact Hacc|].
    constructor; [|constructor]. now apply index_note_in_repo in E.
Qed.

Lemma build_notes_index_in_repo (H : Host) (tex_files : list Path)
    (notes : list Note) (st st' : state H) :
  build_notes_index H tex_files st = (inr notes, st') -> Forall (in_repo H) notes.
Proof. apply build_notes_from_in_repo. constructor. Qed.

(** ** The unbound name *)

Lemma collect_error {A B : Type} (f : A -> exn + B) (l : list A) (e : exn) :
  collect f l = inl e -> exists x, In x l /\ f x = inl e.
Proof.
  induction l as [|x l IH]; simpl; [discriminate|].
  destruct (f x) as [e'|y] eqn:E.
  - intros [= <-]. exists x. auto.
  - destruct (collect f l) as [e'|ys]; [|discriminate].
    intros [= <-]. destruct (IH eq_refl) as (x' & Hin & Hx). exists x'. auto.
Qed.

Lemma topic_section_error (H : Host) (tree : tree_t) (t : string) (e : exn) :
  topic_section H tree t = inl e -> e = ValueError.
Proof.
  unfold topic_section.
  destruct (collect _ _) as [e'|secs] eqn:E; [|discriminate]. intros [= <-].
  apply collect_error in E as (c & _ & E). unfold course_section in E.
  destruct (collect _ _) as [e''|links] eqn:E'; [|discriminate]. injection E as <-.
  apply collect_error in E' as (n & _ & E). unfold note_link in E.
  destruct (Pathlib.relative_to _ _); [discriminate|]. now injection E.
Qed.

Lemma sidebar_bound (H : Host) (notes : list Note) (name : string) :
  notes <> [] -> sidebar H notes <> inl (UnboundLocalError name).
Proof.
  intros Hne. unfold sidebar. rewrite sort_pass_spec.
  destruct (build_tree notes) as [|e tree] eqn:Etree.
  - destruct notes as [|n notes]; [congruence|].
    assert (Hin : In (topic n) (Dict.keys (build_tree (n :: notes)))).
    { apply build_tree_topics. exists n. split; [now left|reflexivity]. }
    now rewrite Etree in Hin.
  - rewrite append_topics_spec.
    destruct (collect _ _) as [e'|secs] eqn:E; [|discriminate].
    apply collect_error in E as (t & _ & E). apply topic_section_error in E.
    subst e'. discriminate.
Qed.



(** C10: with no notes [generate_quarto_yml] fails with the unbound
    name [sidebar_contents] and writes nothing, and only then: for a
    non-empty registry that name is bound.  [main] never gets there with
    an empty registry: when no input file is found it exits with status
    1 before anything is written, and [build_notes_index] makes one note
    per input file. *)
Theorem C10_empty_registry (H : Host) (st : state H) :
  generate_quarto_yml H [] st = (inl (UnboundLocalError "sidebar_contents"), st)
  /\ (forall notes name, notes <> [] -> sidebar H notes <> inl (UnboundLocalError name))
  /\ (pandoc_version_ok H (files st) = true ->
      path_exists H (files st) (STAGING_DIR H) = true ->
      sorted_rglob_tex H (files st) (STAGING_DIR H) = [] ->
      main H st
      = (inl (SystemExit 1),
         with_stderr st ("ERROR: No .tex files found under "
                         ++ Pathlib.as_posix (STAGING_DIR H))))
  /\ (forall tex_files notes st',
        build_notes_index H tex_files st = (inr notes, st') ->
        List.length notes = List.length tex_files).
Proof.
  split; [reflexivity|]. split; [|split].
  - intros notes name. apply sidebar_bound.
  - apply main_no_tex_files.
  - intros tex_files notes st' E. unfold build_notes_index in E.
    now apply build_notes_from_length in E.
Qed.

Lemma C10_empty_registry_witness :
  main sample_host (mkState (H:=sample_host) fs_without_tex [] [])
  = (inl (SystemExit 1),
     with_stderr (mkState (H:=sample_host) fs_without_tex [] [])
       "ERROR: No .tex files found under /repo/notes_staging").
Proof.
  apply (proj1 (proj2 (proj2 (C10_empty_registry sample_host
                                (mkState (H:=sample_host) fs_without_tex [] [])))));
    reflexivity.
Defined.

(** ** Substitution *)

Lemma length_drop (n : nat) (s : string) :
  String.length (Py.drop n s) = String.length s - n.
Proof.
  revert s. induction n as [|n IH]; intros [|c s]; simpl; auto.
Qed.

Lemma run_length_le (cls : ascii -> bool) (s : string) :
  Re.run_length cls s <= String.length s.
Proof.
  induction s as [|c s IH]; simpl; [lia|]. destruct (cls c); lia.
Qed.

(** A greedy repetition at the end of the expression takes the whole
    run. *)
Lemma match_rep_last (cls : ascii -> bool) (lo : nat) (hi : option nat)
    (pos : nat) (s : string) :
  Re.match_here [Re.Rep cls lo hi true None] pos s []
  = let m := Re.cap hi (Re.run_length cls s) in
    if lo <=? m then Some ([], Py.drop m s) else None.
Proof.
  cbn [Re.match_here Re.bind_group]. cbv zeta.
  set (m := Re.cap hi (Re.run_length cls s)). unfold Re.counts.
  destruct (Nat.leb_spec lo m) as [Hle|Hlt].
  - replace (S m - lo) with (S (m - lo)) by lia.
    rewrite seq_S, rev_app_distr. replace (lo + (m - lo)) with m by lia.
    reflexivity.
  - replace (S m - lo) with 0 by lia. reflexivity.
Qed.

Lemma sub_go_step (cls : ascii -> bool) (lo : nat) (hi : option nat) (rep : string)
    (pos : nat) (c : ascii) (s : string) :
  1 <= lo ->
  Re.sub_go [Re.Rep cls lo hi true None] rep pos 0 (String c s)
  = let m := Re.cap hi (Re.run_length cls (String c s)) in
    if lo <=? m
    then rep ++ Re.sub_go [Re.Rep cls lo hi true None] rep (S pos) (m - 1) s
    else String c (Re.sub_go [Re.Rep cls lo hi true None] rep (S pos) 0 s).
Proof.
  intros Hlo. cbn [Re.sub_go]. rewrite match_rep_last. cbv zeta.
  set (m := Re.cap hi (Re.run_length cls (String c s))).
  destruct (Nat.leb_spec lo m) as [Hle|Hlt]; [|reflexivity].
  rewrite length_drop.
  assert (Hm : m <= String.length (String c s)).
  { unfold m, Re.cap. pose proof (run_length_le cls (String c s)).
    destruct hi; lia. }
  replace (String.length (String c s) - (String.length (String c s) - m)) with (S (m - 1))
    by lia.
  reflexivity.
Qed.

(** Removing the characters of a class. *)
Lemma sub_one_filter (cls : ascii -> bool) (pos : nat) (s : string) :
  Re.sub_go [Re.one cls] "" pos 0 s = Py.filter (fun c => negb (cls c)) s.
Proof.
  revert pos. induction s as [|c s IH]; intros pos; [reflexivity|].
  unfold Re.one. rewrite sub_go_step by lia. cbv zeta.
  cbn [Re.run_length Re.cap Py.filter].
  destruct (cls c); cbn [negb].
  - change (Nat.min 1 (S (Re.run_length cls s))) with 1. cbn [Nat.leb Nat.sub].
    apply (IH (S pos)).
  - cbn [Nat.min Nat.leb]. f_equal. apply (IH (S pos)).
Qed.

(** Replacing the runs of a class, and the runs of two or more. *)
Lemma sub_runs_squeeze (cls : ascii -> bool) (lo : nat) (rep : string) (s : string) :
  lo = 1 \/ (lo = 2 /\ forall c, cls c = true -> rep = String c "") ->
  forall pos,
    Re.sub_go [Re.Rep cls lo None true None] rep pos 0 s = squeeze_go cls rep false s
    /\ Re.sub_go [Re.Rep cls lo None true None] rep pos (Re.run_length cls s) s
       = squeeze_go cls rep true s.
Proof.
  intros Hlo. induction s as [|c s IH]; intros pos; [split; reflexivity|].
  assert (H0 : Re.sub_go [Re.Rep cls lo None true None] rep pos 0 (String c s)
               = squeeze_go cls rep false (String c s)).
  { rewrite sub_go_step by (destruct Hlo as [->|[-> _]]; lia). cbv zeta.
    cbn [Re.run_length Re.cap squeeze_go].
    destruct (cls c) eqn:Hc.
    - destruct (Nat.leb_spec lo (S (Re.run_length cls s))) as [Hle|Hlt].
      + replace (S (Re.run_length cls s) - 1) with (Re.run_length cls s) by lia.
        f_equal. apply IH.
      + destruct Hlo as [->|[-> Hrep]]; [lia|].
        assert (Hr : Re.run_length cls s = 0) by lia.
        destruct (IH (S pos)) as [_ IH2]. rewrite Hr in IH2. rewrite IH2.
        change (String c (squeeze_go cls rep true s))
          with (String c "" ++ squeeze_go cls rep true s).
        now rewrite <- (Hrep c Hc).
    - destruct (Nat.leb_spec lo 0) as [Hle|Hlt];
        [destruct Hlo as [->|[-> _]]; lia|].
      f_equal. apply IH. }
  split; [exact H0|].
  cbn [Re.run_length squeeze_go]. destruct (cls c) eqn:Hc.
  - cbn [Re.sub_go]. apply IH.
  - rewrite H0. cbn [squeeze_go]. now rewrite Hc.
Qed.

Lemma sub_plus_squeeze (cls : ascii -> bool) (rep : string) (s : string) :
  Re.sub [Re.plus cls] rep s = squeeze cls rep s.
Proof. apply sub_runs_squeeze. now left. Qed.

Lemma sub_hyphens_squeeze (s : string) :
  Re.sub [Re.at_least 2 is_hyphen] "-" s = squeeze is_hyphen "-" s.
Proof.
  apply sub_runs_squeeze. right. split; [reflexivity|].
  intros c Hc. unfold is_hyphen in Hc. apply Ascii.eqb_eq in Hc. now subst.
Qed.

(** ** The sanitizers *)

Lemma filter_ext (p q : ascii -> bool) (s : string) :
  (forall c, p c = q c) -> Py.filter p s = Py.filter q s.
Proof.
  intros E. induction s as [|c s IH]; simpl; [reflexivity|]. now rewrite E, IH.
Qed.

Lemma lstrip_by_ext (p q : ascii -> bool) (s : string) :
  (forall c, p c = q c) -> Py.lstrip_by p s = Py.lstrip_by q s.
Proof.
  intros E. induction s as [|c s IH]; simpl; [reflexivity|]. now rewrite E, IH.
Qed.

Lemma rstrip_by_ext (p q : ascii -> bool) (s : string) :
  (forall c, p c = q c) -> Py.rstrip_by p s = Py.rstrip_by q s.
Proof.
  intros E. induction s as [|c s IH]; simpl; [reflexivity|]. now rewrite E, IH.
Qed.

Lemma strip_by_ext (p q : ascii -> bool) (s : string) :
  (forall c, p c = q c) -> Py.strip_by p s = Py.strip_by q s.
Proof.
  intros E. unfold Py.strip_by.
  now rewrite (lstrip_by_ext p q s E), (rstrip_by_ext p q _ E).
Qed.

Lemma lstrip_by_map (p : ascii -> bool) (f : ascii -> ascii) (s : string) :
  (forall c, p (f c) = p c) ->
  Py.lstrip_by p (Py.map f s) = Py.map f (Py.lstrip_by p s).
Proof.
  intros E. induction s as [|c s IH]; simpl; [reflexivity|].
  rewrite E. now destruct (p c).
Qed.

Lemma rstrip_by_map (p : ascii -> bool) (f : ascii -> ascii) (s : string) :
  (forall c, p (f c) = p c) ->
  Py.rstrip_by p (Py.map f s) = Py.map f (Py.rstrip_by p s).
Proof.
  intros E. induction s as [|c s IH]; simpl; [reflexivity|].
  rewrite IH, E. destruct (Py.rstrip_by p s); simpl; [now destruct (p c)|reflexivity].
Qed.

Lemma isspace_lower (c : ascii) : Py.isspace (Py.lower_char c) = Py.isspace c.
Proof. each_char c. Qed.

Lemma lower_strip (s : string) : Py.lower (Py.strip s) = Py.strip (Py.lower s).
Proof.
  unfold Py.lower, Py.strip, Py.strip_by.
  rewrite lstrip_by_map by apply isspace_lower.
  now rewrite rstrip_by_map by apply isspace_lower.
Qed.

Lemma strip_hyphens (s : string) : Py.strip_chars "-" s = Py.strip_by is_hyphen s.
Proof.
  unfold Py.strip_chars. apply strip_by_ext. intros c. simpl.
  unfold is_hyphen, hyphen. now rewrite orb_false_r.
Qed.

Lemma sub_removes (s : string) :
  Re.sub [Re.one not_word_space_hyphen] "" s = Py.filter word_space_hyphen s.
Proof.
  unfold Re.sub. rewrite sub_one_filter. apply filter_ext.
  intros c. unfold not_word_space_hyphen, word_space_hyphen. apply negb_involutive.
Qed.

Lemma or_else_match (s d : string) :
  Py.or_else s d = match s with EmptyString => d | _ => s end.
Proof. reflexivity. Qed.

Lemma slugify_as_steps (s : string) : slugify s = slugify_steps s.
Proof.
  unfold slugify, slugify_steps.
  now rewrite lower_strip, sub_removes, sub_plus_squeeze, sub_hyphens_squeeze,
    strip_hyphens.
Qed.

Lemma safe_segment_as_steps (s : string) : safe_segment s = safe_segment_steps s.
Proof.
  unfold safe_segment, safe_segment_steps.
  now rewrite sub_removes, sub_plus_squeeze.
Qed.

Lemma slugify_not_empty (s : string) : slugify s <> "".
Proof. unfold slugify, Py.or_else. now destruct (Py.strip_chars _ _). Qed.

Lemma safe_segment_not_empty (s : string) : safe_segment s <> "".
Proof. unfold safe_segment, Py.or_else. now destruct (Re.sub _ _ _). Qed.

(** C7: the slug sanitizer lowercases and strips its input, removes
    the characters that are neither word characters nor whitespace nor
    hyphens, turns every run of whitespace and underscores into one
    hyphen and every run of hyphens into one hyphen, trims the hyphens
    at both ends and returns "note" when nothing is left; so it never
    returns the empty string, and the title "C++ & Friends!" becomes
    "c-friends". *)
Theorem C7_slugify :
  (forall s, slugify s = slugify_steps s)
  /\ (forall s, slugify s <> "")
  /\ (forall s,
        Py.strip_by is_hyphen
          (squeeze is_hyphen "-"
             (squeeze space_or_underscore "-"
                (Py.filter word_space_hyphen (Py.strip (Py.lower s))))) = ""
        -> slugify s = "note")
  /\ slugify "C++ & Friends!" = "c-friends".
Proof.
  split; [exact slugify_as_steps|]. split; [exact slugify_not_empty|].
  split; [|reflexivity].
  intros s E. rewrite slugify_as_steps. unfold slugify_steps. now rewrite E.
Qed.

Lemma C7_slugify_witness : slugify "?!" = "note".
Proof. apply (proj1 (proj2 (proj2 C7_slugify))). reflexivity. Defined.

(** C8: the segment sanitizer strips its input, removes the characters
    that are neither word characters nor whitespace nor hyphens, turns
    every run of whitespace that is left into one underscore, and
    returns "unknown" when nothing is left; it never returns the empty
    string. *)
Theorem C8_safe_segment :
  (forall s, safe_segment s = safe_segment_steps s)
  /\ (forall s, safe_segment s <> "")
  /\ (forall s,
        squeeze Re.cls_s "_" (Py.filter word_space_hyphen (Py.strip s)) = ""
        -> safe_segment s = "unknown")
  /\ safe_segment "  Linear  Algebra (MATH 2210)! " = "Linear_Algebra_MATH_2210".
Proof.
  split; [exact safe_segment_as_steps|]. split; [exact safe_segment_not_empty|].
  split; [|reflexivity].
  intros s E. rewrite safe_segment_as_steps. unfold safe_segment_steps. now rewrite E.
Qed.

Lemma C8_safe_segment_witness : safe_segment " (?) " = "unknown".
Proof. apply (proj1 (proj2 (proj2 C8_safe_segment))). reflexivity. Defined.

(** ** The shape of sanitized text *)

Lemma forallb_lstrip (q p : ascii -> bool) (s : string) :
  Py.forallb q s = true -> Py.forallb q (Py.lstrip_by p s) = true.
Proof.
  induction s as [|c s IH]; simpl; [reflexivity|].
  intros Hq. destruct (p c); [|exact Hq].
  apply andb_true_iff in Hq as [_ Hq]. now apply IH.
Qed.

Lemma forallb_rstrip (q p : ascii -> bool) (s : string) :
  Py.forallb q s = true -> Py.forallb q (Py.rstrip_by p s) = true.
Proof.
  induction s as [|c s IH]; simpl; [reflexivity|].
  intros Hq. apply andb_true_iff in Hq as [Hc Hq]. specialize (IH Hq).
  destruct (Py.rstrip_by p s) as [|d r].
  - destruct (p c); simpl; [reflexivity|now rewrite Hc].
  - cbn [Py.forallb] in *. now rewrite Hc, IH.
Qed.

Lemma forallb_strip (q p : ascii -> bool) (s : string) :
  Py.forallb q s = true -> Py.forallb q (Py.strip_by p s) = true.
Proof. intros Hq. unfold Py.strip_by. now apply forallb_rstrip, forallb_lstrip. Qed.

Lemma forallb_map (q : ascii -> bool) (f : ascii -> ascii) (s : string) :
  (forall c, q (f c) = true) -> Py.forallb q (Py.map f s) = true.
Proof. intros Hq. induction s as [|c s IH]; simpl; [reflexivity|]. now rewrite Hq, IH. Qed.

Lemma forallb_filter (q q' p : ascii -> bool) (s : string) :
  (forall c, q' c = true -> p c = true -> q c = true) ->
  Py.forallb q' s = true -> Py.forallb q (Py.filter p s) = true.
Proof.
  intros Hq. induction s as [|c s IH]; simpl; [reflexivity|].
  intros H. apply andb_true_iff in H as [Hc Hs]. specialize (IH Hs).
  destruct (p c) eqn:Hp; [|exact IH]. simpl. now rewrite (Hq c Hc Hp), IH.
Qed.

Lemma forallb_squeeze (q q' cls : ascii -> bool) (rep : string) (b : bool) (s : string) :
  Py.forallb q rep = true ->
  (forall c, q' c = true -> cls c = false -> q c = true) ->
  Py.forallb q' s = true -> Py.forallb q (squeeze_go cls rep b s) = true.
Proof.
  intros Hrep Hq. revert b. induction s as [|c s IH]; intros b; simpl; [reflexivity|].
  intros H. apply andb_true_iff in H as [Hc Hs].
  destruct (cls c) eqn:E.
  - destruct b; [now apply IH|]. rewrite forallb_app, Hrep. now apply IH.
  - simpl. rewrite (Hq c Hc E). now apply IH.
Qed.

Lemma no_double_cons (a : ascii) (t : string) :
  no_double_hyphen (String a t)
  = (negb (is_hyphen a) || starts_outside is_hyphen t) && no_double_hyphen t.
Proof.
  destruct t as [|b t]; cbn [no_double_hyphen starts_outside].
  - now rewrite orb_true_r.
  - now rewrite negb_andb.
Qed.

Lemma squeeze_hyphens_shape (s : string) :
  no_double_hyphen (squeeze_go is_hyphen "-" false s) = true
  /\ no_double_hyphen (squeeze_go is_hyphen "-" true s) = true
  /\ starts_outside is_hyphen (squeeze_go is_hyphen "-" true s) = true.
Proof.
  induction s as [|c s (IH1 & IH2 & IH3)]; [repeat split|].
  cbn [squeeze_go]. destruct (is_hyphen c) eqn:E.
  - repeat split; auto.
    change ("-" ++ squeeze_go is_hyphen "-" true s)
      with (String "-" (squeeze_go is_hyphen "-" true s)).
    now rewrite no_double_cons, IH2, IH3, orb_true_r.
  - repeat split; try (rewrite no_double_cons, E, IH1; reflexivity).
    cbn [starts_outside]. now rewrite E.
Qed.

Lemma no_double_tail (a : ascii) (t : string) :
  no_double_hyphen (String a t) = true -> no_double_hyphen t = true.
Proof. rewrite no_double_cons. intros H. now apply andb_true_iff in H. Qed.

Lemma no_double_lstrip (p : ascii -> bool) (s : string) :
  no_double_hyphen s = true -> no_double_hyphen (Py.lstrip_by p s) = true.
Proof.
  induction s as [|c s IH]; [reflexivity|]. intros H. cbn [Py.lstrip_by].
  destruct (p c); [|exact H]. apply IH. now apply no_double_tail in H.
Qed.

Lemma rstrip_head (p : ascii -> bool) (s : string) (a : ascii) (r : string) :
  Py.rstrip_by p s = String a r -> exists s', s = String a s'.
Proof.
  destruct s as [|c s]; [discriminate|]. cbn [Py.rstrip_by].
  destruct (Py.rstrip_by p s).
  - destruct (p c); [discriminate|]. intros [= <- _]. eauto.
  - intros [= <- _]. eauto.
Qed.

Lemma no_double_rstrip (p : ascii -> bool) (s : string) :
  no_double_hyphen s = true -> no_double_hyphen (Py.rstrip_by p s) = true.
Proof.
  induction s as [|c s IH]; [reflexivity|]. intros H. cbn [Py.rstrip_by].
  rewrite no_double_cons in H. apply andb_true_iff in H as [H1 H2].
  specialize (IH H2).
  destruct (Py.rstrip_by p s) as [|d r] eqn:E.
  - now destruct (p c).
  - rewrite no_double_cons, IH, andb_true_r.
    apply rstrip_head in E as (s' & ->). exact H1.
Qed.

Lemma no_double_strip (p : ascii -> bool) (s : string) :
  no_double_hyphen s = true -> no_double_hyphen (Py.strip_by p s) = true.
Proof. intros H. unfold Py.strip_by. now apply no_double_rstrip, no_double_lstrip. Qed.

(** Passes that change nothing. *)
Lemma str_map_id (f : ascii -> ascii) (s : string) :
  Py.forallb (fun c => Ascii.eqb (f c) c) s = true -> Py.map f s = s.
Proof.
  induction s as [|c s IH]; simpl; [reflexivity|].
  intros H. apply andb_true_iff in H as [Hc Hs]. apply Ascii.eqb_eq in Hc.
  now rewrite Hc, IH.
Qed.

Lemma filter_id (p : ascii -> bool) (s : string) :
  Py.forallb p s = true -> Py.filter p s = s.
Proof.
  induction s as [|c s IH]; simpl; [reflexivity|].
  intros H. apply andb_true_iff in H as [Hc Hs]. now rewrite Hc, IH.
Qed.

Lemma squeeze_none (cls : ascii -> bool) (rep : string) (b : bool) (s : string) :
  Py.forallb (fun c => negb (cls c)) s = true -> squeeze_go cls rep b s = s.
Proof.
  revert b. induction s as [|c s IH]; intros b; simpl; [reflexivity|].
  intros H. apply andb_true_iff in H as [Hc Hs]. apply negb_true_iff in Hc.
  now rewrite Hc, IH.
Qed.

Lemma squeeze_hyphens_id (s : string) :
  no_double_hyphen s = true ->
  squeeze_go is_hyphen "-" false s = s
  /\ (starts_outside is_hyphen s = true -> squeeze_go is_hyphen "-" true s = s).
Proof.
  induction s as [|c s IH]; [now split|]. intros H.
  rewrite no_double_cons in H. apply andb_true_iff in H as [H1 H2].
  destruct (IH H2) as [IH1 IH2]. cbn [squeeze_go starts_outside].
  destruct (is_hyphen c) eqn:E.
  - simpl in H1. split; [|discriminate].
    rewrite (IH2 H1). unfold is_hyphen in E. apply Ascii.eqb_eq in E. now subst c.
  - now rewrite IH1.
Qed.

Lemma lstrip_by_idem (p : ascii -> bool) (s : string) :
  Py.lstrip_by p (Py.lstrip_by p s) = Py.lstrip_by p s.
Proof.
  induction s as [|c s IH]; [reflexivity|]. cbn [Py.lstrip_by].
  destruct (p c) eqn:E; [exact IH|]. cbn [Py.lstrip_by]. now rewrite E.
Qed.

Lemma rstrip_by_idem (p : ascii -> bool) (s : string) :
  Py.rstrip_by p (Py.rstrip_by p s) = Py.rstrip_by p s.
Proof.
  induction s as [|c s IH]; [reflexivity|]. cbn [Py.rstrip_by].
  destruct (Py.rstrip_by p s) as [|d r] eqn:E.
  - destruct (p c) eqn:Ec; [reflexivity|]. cbn [Py.rstrip_by]. now rewrite Ec.
  - cbn [Py.rstrip_by] in *. now rewrite IH.
Qed.

Lemma lstrip_rstrip (p : ascii -> bool) (s : string) :
  starts_outside p s = true -> Py.lstrip_by p (Py.rstrip_by p s) = Py.rstrip_by p s.
Proof.
  intros H. destruct (Py.rstrip_by p s) as [|d r] eqn:E; [reflexivity|].
  apply rstrip_head in E as (s' & ->). cbn [starts_outside] in H.
  apply negb_true_iff in H. cbn [Py.lstrip_by]. now rewrite H.
Qed.

Lemma lstrip_starts_outside (p : ascii -> bool) (s : string) :
  starts_outside p (Py.lstrip_by p s) = true.
Proof.
  induction s as [|c s IH]; [reflexivity|]. cbn [Py.lstrip_by].
  destruct (p c) eqn:E; [exact IH|]. cbn [starts_outside]. now rewrite E.
Qed.

Lemma strip_by_idem (p : ascii -> bool) (s : string) :
  Py.strip_by p (Py.strip_by p s) = Py.strip_by p s.
Proof.
  unfold Py.strip_by.
  rewrite lstrip_rstrip by apply lstrip_starts_outside.
  apply rstrip_by_idem.
Qed.

(** ** Sanitizing twice *)

Lemma lower_char_idem (c : ascii) : is_lowered (Py.lower_char c) = true.
Proof. each_char c. Qed.

Lemma hyphen_slug_char : Py.forallb slug_char "-" = true.
Proof. reflexivity. Qed.

Lemma underscore_segment_char : Py.forallb segment_char "_" = true.
Proof. reflexivity. Qed.

Lemma slug_core_chars (s : string) : Py.forallb slug_char (slug_core s) = true.
Proof.
  unfold slug_core. apply forallb_strip.
  apply (forallb_squeeze slug_char slug_char); [exact hyphen_slug_char|auto|].
  apply (forallb_squeeze slug_char (fun c => is_lowered c && word_space_hyphen c));
    [exact hyphen_slug_char| |].
  - intros c Hc Hs. apply andb_true_iff in Hc as [H1 H2].
    unfold slug_char. fold (is_lowered c). now rewrite H1, H2, Hs.
  - apply (forallb_filter _ is_lowered).
    + intros c H1 H2. now rewrite H1, H2.
    + apply forallb_strip. unfold Py.lower. apply forallb_map, lower_char_idem.
Qed.

Lemma slug_core_no_double (s : string) : no_double_hyphen (slug_core s) = true.
Proof. unfold slug_core. apply no_double_strip, squeeze_hyphens_shape. Qed.

Lemma slug_core_trimmed (s : string) :
  Py.strip_by is_hyphen (slug_core s) = slug_core s.
Proof. unfold slug_core. apply strip_by_idem. Qed.

Lemma slug_char_parts (c : ascii) :
  slug_char c = true ->
  is_lowered c = true /\ word_space_hyphen c = true
  /\ space_or_underscore c = false /\ Py.isspace c = false.
Proof.
  unfold slug_char. fold (is_lowered c). rewrite !andb_true_iff, negb_true_iff.
  intros [[H1 H2] H3]. repeat split; auto.
  unfold space_or_underscore, Re.cls_s in H2. now apply orb_false_iff in H2.
Qed.

(** A text of the shape of a slug passes the steps unchanged. *)
Lemma slug_core_fixed (u : string) :
  Py.forallb slug_char u = true -> no_double_hyphen u = true ->
  Py.strip_by is_hyphen u = u ->
  slug_core u = u.
Proof.
  intros Hc Hd Ht. unfold slug_core.
  assert (E1 : Py.lower u = u).
  { apply str_map_id. revert Hc. apply forallb_impl. intros c H. now apply slug_char_parts in H. }
  assert (E2 : Py.strip u = u).
  { apply strip_by_none. revert Hc. apply forallb_impl. intros c H.
    apply slug_char_parts in H as (_ & _ & _ & ->). reflexivity. }
  assert (E3 : Py.filter word_space_hyphen u = u).
  { apply filter_id. revert Hc. apply forallb_impl. intros c H. now apply slug_char_parts in H. }
  assert (E4 : squeeze space_or_underscore "-" u = u).
  { apply squeeze_none. revert Hc. apply forallb_impl. intros c H.
    apply slug_char_parts in H as (_ & _ & -> & _). reflexivity. }
  assert (E5 : squeeze is_hyphen "-" u = u) by now apply squeeze_hyphens_id.
  now rewrite E1, E2, E3, E4, E5.
Qed.

Lemma slugify_idempotent (s : string) : slugify (slugify s) = slugify s.
Proof.
  rewrite !slugify_as_steps. unfold slugify_steps. fold (slug_core s).
  destruct (slug_core s) as [|c u] eqn:E; [reflexivity|].
  fold (slug_core (String c u)). rewrite <- E.
  rewrite slug_core_fixed;
    [now rewrite E|apply slug_core_chars|apply slug_core_no_double|apply slug_core_trimmed].
Qed.

Lemma segment_core_chars (s : string) : Py.forallb segment_char (segment_core s) = true.
Proof.
  unfold segment_core.
  apply (forallb_squeeze segment_char word_space_hyphen);
    [exact underscore_segment_char| |].
  - intros c H1 H2. unfold segment_char. now rewrite H1, H2.
  - apply (forallb_filter _ (fun _ => true)); [auto|].
    generalize (Py.strip s). intros t. induction t; simpl; auto.
Qed.

Lemma segment_core_fixed (v : string) :
  Py.forallb segment_char v = true -> segment_core v = v.
Proof.
  intros Hc. unfold segment_core.
  assert (Hparts : forall c, segment_char c = true ->
                             word_space_hyphen c = true /\ Py.isspace c = false).
  { intros c. unfold segment_char, Re.cls_s. rewrite andb_true_iff, negb_true_iff. tauto. }
  assert (E1 : Py.strip v = v).
  { apply strip_by_none. revert Hc. apply forallb_impl. intros c H.
    apply Hparts in H as [_ ->]. reflexivity. }
  assert (E2 : Py.filter word_space_hyphen v = v).
  { apply filter_id. revert Hc. apply forallb_impl. intros c H. now apply Hparts in H. }
  assert (E3 : squeeze Re.cls_s "_" v = v).
  { apply squeeze_none. revert Hc. apply forallb_impl. intros c H.
    apply Hparts in H as [_ H]. unfold Re.cls_s. now rewrite H. }
  now rewrite E1, E2, E3.
Qed.

Lemma safe_segment_idempotent (s : string) : safe_segment (safe_segment s) = safe_segment s.
Proof.
  rewrite !safe_segment_as_steps. unfold safe_segment_steps. fold (segment_core s).
  destruct (segment_core s) as [|c v] eqn:E; [reflexivity|].
  fold (segment_core (String c v)). rewrite <- E.
  rewrite segment_core_fixed; [now rewrite E|apply segment_core_chars].
Qed.

Lemma slugify_shape (s : string) :
  Py.forallb slug_char (slugify s) = true
  /\ no_double_hyphen (slugify s) = true
  /\ Py.strip_by is_hyphen (slugify s) = slugify s.
Proof.
  rewrite slugify_as_steps. unfold slugify_steps. fold (slug_core s).
  destruct (slug_core s) as [|c u] eqn:E; [repeat split|].
  rewrite <- E. split; [apply slug_core_chars|].
  split; [apply slug_core_no_double|apply slug_core_trimmed].
Qed.

Lemma safe_segment_shape (s : string) :
  Py.forallb segment_char (safe_segment s) = true.
Proof.
  rewrite safe_segment_as_steps. unfold safe_segment_steps. fold (segment_core s).
  destruct (segment_core s) as [|c v] eqn:E; [reflexivity|].
  rewrite <- E. apply segment_core_chars.
Qed.

(** C9: both sanitizers are idempotent, because their output has
    nothing left for their passes to change: a slug consists of
    lowercase word characters other than the underscore and of hyphens,
    without whitespace, without two hyphens in a row and without a
    hyphen at either end; a segment consists of word characters and
    hyphens, without whitespace. *)
Theorem C9_idempotent (s : string) :
  slugify (slugify s) = slugify s
  /\ safe_segment (safe_segment s) = safe_segment s
  /\ Py.forallb slug_char (slugify s) = true
  /\ no_double_hyphen (slugify s) = true
  /\ Py.strip_by is_hyphen (slugify s) = slugify s
  /\ Py.forallb segment_char (safe_segment s) = true.
Proof.
  split; [apply slugify_idempotent|]. split; [apply safe_segment_idempotent|].
  split; [apply slugify_shape|]. split; [apply slugify_shape|].
  split; [apply slugify_shape|apply safe_segment_shape].
Qed.

(** ** Greedy and lazy repetition *)

Lemma drop_run_lstrip (cls : ascii -> bool) (s : string) :
  Py.drop (Re.run_length cls s) s = Py.lstrip_by cls s.
Proof.
  induction s as [|c s IH]; [reflexivity|]. simpl.
  destruct (cls c); [exact IH|reflexivity].
Qed.

Lemma drop_in_run (cls : ascii -> bool) (s : string) (k : nat) :
  k < Re.run_length cls s -> exists c t, Py.drop k s = String c t /\ cls c = true.
Proof.
  revert s. induction k as [|k IH]; intros [|c s]; simpl; try lia.
  - destruct (cls c) eqn:E; [eauto|lia].
  - destruct (cls c) eqn:E; [|lia]. intros Hk. apply IH. lia.
Qed.

(** A greedy repetition takes its whole run when what follows cannot
    start with a character of the class. *)
Lemma match_greedy_commit (cls : ascii -> bool) (lo : nat) (grp : option nat)
    (r : Re.regex) (pos : nat) (s : string) (g : Re.groups) :
  fails_on r cls ->
  Re.match_here (Re.Rep cls lo None true grp :: r) pos s g
  = if lo <=? Re.run_length cls s
    then Re.match_here r (pos + Re.run_length cls s) (Py.lstrip_by cls s)
           (Re.bind_group grp (Py.take (Re.run_length cls s) s) g)
    else None.
Proof.
  intros Hf. cbn [Re.match_here Re.cap]. unfold Re.counts.
  set (m := Re.run_length cls s).
  destruct (Nat.leb_spec lo m) as [Hle|Hlt].
  - replace (S m - lo) with (S (m - lo)) by lia.
    rewrite seq_S, rev_app_distr. replace (lo + (m - lo)) with m by lia.
    cbn [rev app Re.first_some]. unfold m at 2. rewrite drop_run_lstrip.
    destruct (Re.match_here r _ _ _); [reflexivity|].
    apply first_some_none. intros k Hk. apply in_rev, in_seq in Hk.
    destruct (drop_in_run cls s k) as (c & t & -> & Hc); [fold m; lia|].
    now apply Hf.
  - replace (S m - lo) with 0 by lia. reflexivity.
Qed.

(** A greedy repetition that succeeds with its whole run. *)
Lemma match_greedy_first (cls : ascii -> bool) (grp : option nat)
    (r : Re.regex) (pos : nat) (s : string) (g : Re.groups) res :
  Re.match_here r (pos + Re.run_length cls s) (Py.lstrip_by cls s)
    (Re.bind_group grp (Py.take (Re.run_length cls s) s) g) = Some res ->
  Re.match_here (Re.Rep cls 0 None true grp :: r) pos s g = Some res.
Proof.
  intros Hm. cbn [Re.match_here Re.cap]. unfold Re.counts.
  replace (S (Re.run_length cls s) - 0) with (S (Re.run_length cls s)) by lia.
  rewrite seq_S, rev_app_distr. cbn [rev app Re.first_some Nat.add].
  now rewrite drop_run_lstrip, Hm.
Qed.

Lemma fails_on_lit (d : ascii) (r : Re.regex) (cls : ascii -> bool) :
  cls d = false -> fails_on (Re.Lit d :: r) cls.
Proof.
  intros Hd pos c t g Hc. cbn [Re.match_here].
  destruct (Ascii.eqb_spec d c) as [->|]; [congruence|reflexivity].
Qed.

Lemma fails_on_rep (cls2 : ascii -> bool) (lo : nat) (hi : option nat) (greedy : bool)
    (grp : option nat) (r : Re.regex) (cls : ascii -> bool) :
  1 <= lo -> (forall c, cls c = true -> cls2 c = false) ->
  fails_on (Re.Rep cls2 lo hi greedy grp :: r) cls.
Proof.
  intros Hlo Hd pos c t g Hc. cbn [Re.match_here Re.run_length].
  rewrite (Hd c Hc). unfold Re.counts, Re.cap.
  replace (S (match hi with Some h => Nat.min h 0 | None => 0 end) - lo) with 0
    by (destruct hi; lia).
  now destruct greedy.
Qed.

Lemma fails_on_star (cls2 : ascii -> bool) (r : Re.regex) (cls : ascii -> bool) :
  (forall c, cls c = true -> cls2 c = false) -> fails_on r cls ->
  fails_on (Re.star cls2 :: r) cls.
Proof.
  intros Hd Hf pos c t g Hc. unfold Re.star. cbn [Re.match_here Re.run_length Re.cap].
  rewrite (Hd c Hc). cbn. now rewrite (Hf _ c t g Hc).
Qed.

(** The search of a lazy repetition: the first count that works. *)
Lemma first_some_seq_skip {B : Type} (f : nat -> option B) (a n j0 : nat) :
  j0 < n -> (forall j, j < j0 -> f (a + j) = None) ->
  Re.first_some f (seq a n)
  = match f (a + j0) with
    | Some y => Some y
    | None => Re.first_some f (seq (S (a + j0)) (n - S j0))
    end.
Proof.
  revert a n. induction j0 as [|j0 IH]; intros a n Hn Hnone.
  - destruct n as [|n]; [lia|]. cbn [seq Re.first_some].
    replace (a + 0) with a by lia. replace (S n - 1) with n by lia. reflexivity.
  - destruct n as [|n]; [lia|]. cbn [seq Re.first_some].
    assert (E : f a = None) by (rewrite <- (Nat.add_0_r a); apply Hnone; lia).
    rewrite E. rewrite (IH (S a) n).
    + replace (S a + j0) with (a + S j0) by lia.
      replace (S n - S (S j0)) with (n - S j0) by lia. reflexivity.
    + lia.
    + intros j Hj. replace (S a + j) with (a + S j) by lia. apply Hnone. lia.
Qed.

(** ** Trailing whitespace *)

Lemma take_rstrip (p : ascii -> bool) (t : string) :
  Py.take (String.length (Py.rstrip_by p t)) t = Py.rstrip_by p t.
Proof.
  induction t as [|c t IH]; [reflexivity|]. cbn [Py.rstrip_by].
  destruct (Py.rstrip_by p t) as [|d r] eqn:E.
  - destruct (p c); [reflexivity|]. simpl. now destruct t.
  - cbn [String.length Py.take] in *. now rewrite IH.
Qed.

Lemma drop_rstrip_all (p : ascii -> bool) (t : string) :
  Py.forallb p (Py.drop (String.length (Py.rstrip_by p t)) t) = true.
Proof.
  induction t as [|c t IH]; [reflexivity|]. cbn [Py.rstrip_by].
  destruct (Py.rstrip_by p t) as [|d r] eqn:E.
  - cbn [String.length Py.drop] in IH.
    destruct (p c) eqn:Ec; cbn [String.length Py.drop Py.forallb].
    + now rewrite Ec, IH.
    + exact IH.
  - cbn [String.length Py.drop] in *. exact IH.
Qed.

Lemma drop_before_rstrip (p : ascii -> bool) (t : string) (j : nat) :
  j < String.length (Py.rstrip_by p t) -> Py.forallb p (Py.drop j t) = false.
Proof.
  revert j. induction t as [|c t IH]; intros j; [simpl; lia|]. cbn [Py.rstrip_by].
  destruct (Py.rstrip_by p t) as [|d r] eqn:E.
  - destruct (p c) eqn:Ec; cbn [String.length]; [lia|].
    intros Hj. replace j with 0 by lia. simpl. now rewrite Ec.
  - cbn [String.length] in *. intros Hj. destruct j as [|j].
    + pose proof (IH 0 ltac:(lia)) as E0. cbn [Py.drop] in E0.
      cbn [Py.drop Py.forallb]. rewrite E0. apply andb_false_r.
    + simpl. apply IH. lia.
Qed.

Lemma at_end_space (u : string) : Re.at_end u = true -> Py.forallb Py.isspace u = true.
Proof.
  destruct u as [|c [|d u]]; simpl; try discriminate; [reflexivity|].
  intros H. apply Ascii.eqb_eq in H. now subst.
Qed.

Lemma forallb_take_drop (p : ascii -> bool) (k : nat) (u : string) :
  k <= Re.run_length p u -> Py.forallb p (Py.drop k u) = true -> Py.forallb p u = true.
Proof.
  intros Hk Hd. rewrite <- (take_drop k u), forallb_app, Hd.
  now rewrite (proj2 (run_length_take p u k Hk)).
Qed.

Lemma run_length_all (p : ascii -> bool) (u : string) :
  Py.forallb p u = true -> Re.run_length p u = String.length u.
Proof.
  induction u as [|c u IH]; simpl; [reflexivity|].
  intros H. apply andb_true_iff in H as [Hc Hu]. now rewrite Hc, IH.
Qed.

Lemma lstrip_all (p : ascii -> bool) (u : string) :
  Py.forallb p u = true -> Py.lstrip_by p u = "".
Proof.
  induction u as [|c u IH]; simpl; [reflexivity|].
  intros H. apply andb_true_iff in H as [Hc Hu]. now rewrite Hc, IH.
Qed.

(** [\s*$] matches exactly the texts of whitespace. *)
Lemma match_space_eol (pos : nat) (u : string) (g : Re.groups) :
  Re.match_here [Re.star Re.cls_s; Re.Eol] pos u g
  = if Py.forallb Py.isspace u then Some (g, "") else None.
Proof.
  destruct (Py.forallb Py.isspace u) eqn:E.
  - apply match_greedy_first. unfold Re.cls_s. rewrite lstrip_all by exact E.
    reflexivity.
  - unfold Re.star. cbn [Re.match_here Re.cap]. apply first_some_none.
    intros k Hk. unfold Re.counts in Hk. apply in_rev, in_seq in Hk.
    cbn [Re.bind_group]. destruct (Re.at_end (Py.drop k u)) eqn:Ee; [|reflexivity].
    apply at_end_space in Ee.
    assert (Hall : Py.forallb Re.cls_s u = true)
      by (apply (forallb_take_drop Re.cls_s k u); [lia|exact Ee]).
    change (Py.forallb Py.isspace u = true) in Hall. congruence.
Qed.

(** ** Lines *)

Lemma line_ok_tail (c : ascii) (s : string) :
  line_ok (String c s) = true -> line_ok s = true.
Proof.
  destruct s as [|d s]; [reflexivity|]. cbn [line_ok].
  intros H. now apply andb_true_iff in H.
Qed.

Lemma line_ok_lstrip (p : ascii -> bool) (s : string) :
  line_ok s = true -> line_ok (Py.lstrip_by p s) = true.
Proof.
  induction s as [|c s IH]; [reflexivity|]. intros H. cbn [Py.lstrip_by].
  destruct (p c); [|exact H]. apply IH. now apply line_ok_tail in H.
Qed.

Lemma line_ok_drop (n : nat) (s : string) :
  line_ok s = true -> line_ok (Py.drop n s) = true.
Proof.
  revert s. induction n as [|n IH]; intros [|c s] H; try exact H.
  cbn [Py.drop]. apply IH. now apply line_ok_tail in H.
Qed.

Lemma line_feed_space (c : ascii) : Re.cls_dot c = false -> Py.isspace c = true.
Proof.
  unfold Re.cls_dot. rewrite negb_false_iff. intros H.
  apply Ascii.eqb_eq in H. now subst.
Qed.

(** Without its trailing whitespace a line holds no line feed. *)
Lemma rstrip_line (t : string) :
  line_ok t = true -> Py.forallb Re.cls_dot (Py.rstrip_by Py.isspace t) = true.
Proof.
  induction t as [|c t IH]; [reflexivity|]. intros H. cbn [Py.rstrip_by].
  destruct t as [|d t].
  - cbn [Py.rstrip_by]. destruct (Py.isspace c) eqn:Ec; [reflexivity|].
    cbn [Py.forallb]. destruct (Re.cls_dot c) eqn:Ed; [reflexivity|].
    apply line_feed_space in Ed. congruence.
  - cbn [line_ok] in H. apply andb_true_iff in H as [Hc Ht]. specialize (IH Ht).
    destruct (Py.rstrip_by Py.isspace (String d t)) as [|e r].
    + destruct (Py.isspace c); [reflexivity|]. cbn [Py.forallb]. now rewrite Hc.
    + cbn [Py.forallb] in *. now rewrite Hc, IH.
Qed.

Lemma run_length_take_ge (cls : ascii -> bool) (t : string) (j : nat) :
  String.length (Py.take j t) = j -> Py.forallb cls (Py.take j t) = true ->
  j <= Re.run_length cls t.
Proof.
  revert t. induction j as [|j IH]; intros [|c t]; simpl; try lia.
  intros Hlen H. apply andb_true_iff in H as [Hc Ht]. rewrite Hc.
  assert (j <= Re.run_length cls t) by (apply IH; [lia|exact Ht]). lia.
Qed.

(** The value of a metadata line: what follows the colon, without the
    whitespace around it. *)
Lemma match_value (pos : nat) (value : string) (g : Re.groups) :
  line_ok value = true ->
  Re.match_here META_VALUE_RE pos value g = Some ((2, Py.strip value) :: g, "").
Proof.
  intros Hok. unfold META_VALUE_RE, Re.star at 1. apply match_greedy_first.
  cbn [Re.bind_group].
  change (Py.lstrip_by Re.cls_s value) with (Py.lstrip_by Py.isspace value).
  generalize (pos + Re.run_length Re.cls_s value). intros pos'.
  set (t := Py.lstrip_by Py.isspace value).
  assert (Ht : line_ok t = true) by now apply line_ok_lstrip.
  set (j0 := String.length (Py.rstrip_by Py.isspace t)).
  assert (Htake : Py.take j0 t = Py.rstrip_by Py.isspace t) by apply take_rstrip.
  assert (Hj0 : j0 <= Re.run_length Re.cls_dot t).
  { apply run_length_take_ge; rewrite Htake; [reflexivity|now apply rstrip_line]. }
  rewrite match_rep. cbn [Re.cap]. unfold Re.counts.
  replace (S (Re.run_length Re.cls_dot t) - 0) with (S (Re.run_length Re.cls_dot t))
    by lia.
  rewrite (first_some_seq_skip _ 0 _ j0).
  - cbn [Nat.add]. rewrite match_space_eol.
    unfold j0 at 1. rewrite drop_rstrip_all. cbn [Re.bind_group].
    now rewrite Htake.
  - lia.
  - intros j Hj. cbn [Nat.add]. rewrite match_space_eol.
    now rewrite (drop_before_rstrip Py.isspace t j Hj).
Qed.

(** ** The metadata expression *)

Lemma space_not_key (c : ascii) : Py.isspace c = true -> meta_key_char c = false.
Proof. each_char c. Qed.

Lemma key_not_space (c : ascii) : meta_key_char c = true -> Py.isspace c = false.
Proof. each_char c. Qed.

Lemma strip_key (k : string) : Py.forallb meta_key_char k = true -> Py.strip k = k.
Proof.
  intros H. apply strip_by_none. revert H. apply forallb_impl.
  intros c Hc. now rewrite key_not_space.
Qed.

Lemma match_bol (r : Re.regex) (s : string) (g : Re.groups) :
  Re.match_here (Re.Bol :: r) 0 s g = Re.match_here r 0 s g.
Proof. reflexivity. Qed.

Lemma match_meta_line (line : string) :
  line_ok line = true ->
  option_map (fun m => (Py.lower (Py.strip (Re.group 1 m)), Py.strip (Re.group 2 m)))
    (Re.match_ META_LINE_RE line)
  = meta_entry line.
Proof.
  intros Hok. unfold Re.match_, META_LINE_RE, meta_entry.
  rewrite match_bol.
  (* leading whitespace and the marker *)
  unfold Re.star at 1. rewrite match_greedy_commit
    by (apply fails_on_lit; reflexivity).
  cbn [Nat.leb Re.bind_group].
  change (Py.lstrip_by Re.cls_s line) with (Py.lstrip line).
  generalize (0 + Re.run_length Re.cls_s line). intros p1.
  pose proof (line_ok_lstrip Py.isspace line Hok) as Hok1.
  change (Py.lstrip_by Py.isspace line) with (Py.lstrip line) in Hok1.
  rewrite match_lit.
  destruct (Py.lstrip line) as [|c rest0]; [reflexivity|].
  rewrite (Ascii.eqb_sym c "%").
  destruct (Ascii.eqb "%" c); [|reflexivity].
  apply line_ok_tail in Hok1.
  (* whitespace and the key *)
  unfold Re.star at 1. rewrite match_greedy_commit
    by (apply fails_on_rep; [lia|exact space_not_key]).
  cbn [Nat.leb Re.bind_group].
  change (Py.lstrip_by Re.cls_s rest0) with (Py.lstrip rest0).
  generalize (S p1 + Re.run_length Re.cls_s rest0). intros p2.
  pose proof (line_ok_lstrip Py.isspace rest0 Hok1) as Hok2.
  change (Py.lstrip_by Py.isspace rest0) with (Py.lstrip rest0) in Hok2.
  generalize dependent (Py.lstrip rest0). intros rest1 Hok2. cbv zeta.
  rewrite match_greedy_commit
    by (apply fails_on_star; [exact key_not_space|apply fails_on_lit; reflexivity]).
  rewrite <- drop_run_lstrip.
  pose proof (run_length_take meta_key_char rest1 (Re.run_length meta_key_char rest1)
                (le_n _)) as [_ Hkey].
  generalize dependent (Re.run_length meta_key_char rest1). intros n Hkey.
  destruct n as [|n']; [reflexivity|]. cbn [Nat.leb Re.bind_group].
  (* whitespace and the colon *)
  unfold Re.star at 1. rewrite match_greedy_commit
    by (apply fails_on_lit; reflexivity).
  cbn [Nat.leb Re.bind_group].
  change (Py.lstrip_by Re.cls_s (Py.drop (S n') rest1))
    with (Py.lstrip (Py.drop (S n') rest1)).
  generalize (p2 + S n' + Re.run_length Re.cls_s (Py.drop (S n') rest1)). intros p3.
  pose proof (line_ok_lstrip Py.isspace _ (line_ok_drop (S n') rest1 Hok2)) as Hok3.
  change (Py.lstrip_by Py.isspace (Py.drop (S n') rest1))
    with (Py.lstrip (Py.drop (S n') rest1)) in Hok3.
  rewrite match_lit.
  destruct (Py.lstrip (Py.drop (S n') rest1)) as [|d value]; [reflexivity|].
  rewrite (Ascii.eqb_sym d ":").
  destruct (Ascii.eqb ":" d); [|reflexivity].
  apply line_ok_tail in Hok3.
  (* the value *)
  change (Re.match_here (Re.star Re.cls_s :: ?r) ?p value ?g)
    with (Re.match_here META_VALUE_RE p value g).
  rewrite match_value by exact Hok3.
  cbn [option_map fst Re.group Nat.eqb].
  rewrite strip_key by exact Hkey.
  unfold Py.strip at 1. now rewrite strip_by_idem.
Qed.

(** ** The scan of the lines *)

Lemma strip_blank (line : string) :
  String.eqb (Py.strip line) "" = is_blank line.
Proof.
  unfold Py.strip, Py.strip_by, is_blank.
  destruct (Py.forallb Py.isspace line) eqn:E.
  - now rewrite lstrip_all.
  - assert (H : exists c r, Py.lstrip_by Py.isspace line = String c r
                            /\ Py.isspace c = false).
    { induction line as [|c line IH]; [discriminate|]. simpl in E |- *.
      destruct (Py.isspace c) eqn:Ec; [now apply IH|eauto]. }
    destruct H as (c & r & -> & Hc). cbn [Py.rstrip_by].
    destruct (Py.rstrip_by Py.isspace r); [now rewrite Hc|reflexivity].
Qed.

Lemma startswith_percent (t : string) :
  Py.startswith "%" t
  = match t with String c _ => Ascii.eqb c "%" | EmptyString => false end.
Proof.
  destruct t as [|c t]; [reflexivity|]. unfold Py.startswith. cbn [String.prefix].
  destruct (ascii_dec "%" c) as [<-|Hne]; [now destruct t|].
  symmetry. apply Ascii.eqb_neq. congruence.
Qed.

Lemma blank_no_entry (line : string) : is_blank line = true -> meta_entry line = None.
Proof.
  intros H. unfold meta_entry, Py.lstrip. now rewrite lstrip_all.
Qed.

Lemma scan_metadata_entries (lines : list string) (meta : Dict.t string) :
  Forall (fun l => line_ok l = true) lines ->
  scan_metadata lines meta
  = fold_left (fun m e => Dict.set m (fst e) (snd e)) (meta_entries lines) meta.
Proof.
  intros Hok. revert meta. induction Hok as [|line rest Hl Hrest IH]; intros meta;
    [reflexivity|].
  cbn [scan_metadata]. unfold meta_entries. cbn [header_lines].
  rewrite strip_blank, startswith_percent. fold (is_comment line).
  destruct (is_blank line) eqn:Eb.
  - cbn [orb flat_map]. rewrite (blank_no_entry line Eb). cbn [app]. apply IH.
  - cbn [orb]. destruct (is_comment line) eqn:Ec; [|reflexivity].
    cbn [negb flat_map]. rewrite <- (match_meta_line line Hl).
    destruct (Re.match_ META_LINE_RE line) as [m|]; cbn [option_map app fold_left fst snd];
      apply IH.
Qed.

Lemma find_app {A : Type} (f : A -> bool) (l1 l2 : list A) :
  find f (l1 ++ l2) = match find f l1 with Some x => Some x | None => find f l2 end.
Proof. induction l1 as [|x l1 IH]; simpl; [reflexivity|]. now destruct (f x). Qed.

Lemma mapping_get (entries : list (string * string)) (m : Dict.t string) (k : string) :
  Dict.get (fold_left (fun m e => Dict.set m (fst e) (snd e)) entries m) k
  = match last_value entries k with Some v => Some v | None => Dict.get m k end.
Proof.
  revert m. induction entries as [|e entries IH]; intros m; [reflexivity|].
  cbn [fold_left]. rewrite IH. unfold last_value. cbn [rev]. rewrite find_app.
  destruct (find _ (rev entries)); [reflexivity|].
  cbn [find option_map]. rewrite dict_get_set.
  now destruct (String.eqb (fst e) k).
Qed.

(** ** The lines of a file *)

Lemma line_ok_plain (cur : string) :
  Py.forallb Re.cls_dot cur = true -> line_ok cur = true.
Proof.
  induction cur as [|c cur IH]; [reflexivity|]. cbn [Py.forallb line_ok].
  intros H. apply andb_true_iff in H as [Hc Hs]. destruct cur; [reflexivity|].
  now rewrite Hc, IH.
Qed.

Lemma line_ok_ended (cur : string) (c : ascii) :
  Py.forallb Re.cls_dot cur = true -> line_ok (cur ++ String c "") = true.
Proof.
  induction cur as [|d cur IH]; [reflexivity|]. cbn [Py.forallb].
  intros H. apply andb_true_iff in H as [Hd Hs]. specialize (IH Hs).
  cbn [append line_ok]. destruct (cur ++ String c "") eqn:E.
  - reflexivity.
  - now rewrite Hd, IH.
Qed.

Lemma lines_go_ok (n : nat) (s cur : string) :
  String.length s <= n -> Py.forallb Re.cls_dot cur = true ->
  Forall (fun l => line_ok l = true) (Py.lines_go cur s).
Proof.
  revert s cur. induction n as [|n IH]; intros s cur Hn Hcur.
  - destruct s; [|simpl in Hn; lia]. cbn [Py.lines_go].
    destruct cur; constructor; [now apply line_ok_plain|constructor].
  - destruct s as [|c s].
    + cbn [Py.lines_go]. destruct cur; constructor; [now apply line_ok_plain|constructor].
    + cbn [String.length] in Hn. cbn [Py.lines_go].
      destruct (Ascii.eqb c Py.LF) eqn:Elf.
      * constructor; [now apply line_ok_ended|]. apply IH; [lia|reflexivity].
      * destruct (Ascii.eqb c Py.CR) eqn:Ecr.
        -- destruct s as [|d s].
           ++ constructor; [now apply line_ok_ended|constructor].
           ++ cbn [String.length] in Hn. destruct (Ascii.eqb d Py.LF).
              ** constructor; [now apply line_ok_ended|]. apply IH; [lia|reflexivity].
              ** constructor; [now apply line_ok_ended|].
                 apply IH; [cbn [String.length]; lia|reflexivity].
        -- apply IH; [lia|]. rewrite forallb_app, Hcur. cbn [Py.forallb].
           unfold Re.cls_dot. now rewrite Elf.
Qed.

Lemma file_lines_ok (text : string) :
  Forall (fun l => line_ok l = true) (Py.file_lines text).
Proof. apply (lines_go_ok (String.length text)); [lia|reflexivity]. Qed.

(** C5: metadata extraction reads the lines from the start of the
    document while they are blank or comments (the percent sign after
    optional whitespace) and stops at the first line that is neither;
    every comment line of the form [marker key : value], the key made of
    letters, digits, underscores and hyphens, records the key in
    lowercase with the value stripped of whitespace; a later entry for a
    key overwrites an earlier one; comment lines of another form are
    passed over; and a document without metadata gives the empty
    mapping.  No input raises. *)
Theorem C5_parse_tex_metadata (text : string) :
  parse_tex_metadata text = mapping_of (meta_entries (Py.file_lines text))
  /\ (forall k, Dict.get (parse_tex_metadata text) k
                = last_value (meta_entries (Py.file_lines text)) k)
  /\ (meta_entries (Py.file_lines text) = [] -> parse_tex_metadata text = []).
Proof.
  assert (E : parse_tex_metadata text = mapping_of (meta_entries (Py.file_lines text))).
  { unfold parse_tex_metadata, mapping_of.
    apply scan_metadata_entries, file_lines_ok. }
  split; [exact E|]. split.
  - intros k. rewrite E. unfold mapping_of. rewrite mapping_get.
    now destruct (last_value _ k).
  - intros Hnone. now rewrite E, Hnone.
Qed.

Lemma C5_parse_tex_metadata_witness :
  meta_entries (Py.file_lines "\section{Intro}") = []
  /\ parse_tex_metadata "\section{Intro}" = [].
Proof.
  split; [reflexivity|].
  apply (proj2 (proj2 (C5_parse_tex_metadata "\section{Intro}"))). reflexivity.
Defined.

Example parse_sample_document :
  parse_tex_metadata sample_document
  = [("title", "Laws of Motion"); ("date", "2024-01-05")].
Proof. reflexivity. Qed.

(* ================================================================== *)
(** * Further properties of the run *)

Section Run.

Variable H : Host.

(** X1: without the converter on the path [main] prints the request to
    install it and exits with status 1: the file system and the
    standard output stay as they were. *)
Theorem main_without_pandoc (st : state H) :
  pandoc_version_ok H (files st) = false ->
  main H st
  = (inl (SystemExit 1),
     with_stderr st "ERROR: pandoc not found. Install pandoc and ensure it's on PATH.").
Proof.
  intros Hp. unfold main. apply bind_raise.
  unfold require_pandoc, bind, get_files. now rewrite Hp.
Qed.

(** X2: with the converter present but no staging directory [main]
    names the missing directory on the error stream and exits with
    status 1, the file system untouched. *)
Theorem main_without_staging (st : state H) :
  pandoc_version_ok H (files st) = true ->
  path_exists H (files st) (STAGING_DIR H) = false ->
  main H st
  = (inl (SystemExit 1),
     with_stderr st ("ERROR: Missing staging directory: "
                     ++ Pathlib.as_posix (STAGING_DIR H))).
Proof.
  intros Hp He. unfold main.
  rewrite (bind_ok _ _ _ _ _ _ (require_pandoc_ok H st Hp)).
  apply bind_raise. unfold find_tex_files, bind, get_files. now rewrite He.
Qed.

Lemma tex_to_qmd_run (note : Note) (st : state H)
    (returncode : Z) (err : string) (f' : fs H) :
  run H (mkdir_parents H (files st) (Pathlib.parent (out note))) (pandoc_cmd note)
  = (returncode, err, f') ->
  (returncode <> 0%Z ->
   tex_to_qmd H note st
   = (inl (SystemExit 1),
      mkState f' (stdout st) (stderr st ++ [diagnostic_pandoc note err])%list))
  /\ (returncode = 0%Z -> path_exists H f' (tmp_md_of note) = false ->
      tex_to_qmd H note st
      = (inl (FileNotFoundError (tmp_md_of note)), mkState f' (stdout st) (stderr st)))
  /\ (returncode = 0%Z -> path_exists H f' (tmp_md_of note) = true ->
      is_dir H f' (tmp_md_of note) = true ->
      tex_to_qmd H note st
      = (inl (IsADirectoryError (tmp_md_of note)), mkState f' (stdout st) (stderr st)))
  /\ (returncode = 0%Z -> path_exists H f' (tmp_md_of note) = true ->
      is_dir H f' (tmp_md_of note) = false ->
      tex_to_qmd H note st
      = (inr tt,
         mkState (write_text H (unlink H f' (tmp_md_of note)) (out note)
                    (front_matter H note ++ read_text H f' (tmp_md_of note)))
                 (stdout st) (stderr st))).
Proof.
  intros Hrun. unfold tex_to_qmd, bind, get_files, set_files. cbn [files stdout stderr].
  change (Pathlib.with_suffix (out note) ".md.tmp") with (tmp_md_of note).
  fold (pandoc_cmd note). rewrite Hrun. cbn [files stdout stderr].
  split; [|split; [|split]].
  - intros Hrc. apply Z.eqb_neq in Hrc. rewrite Hrc. reflexivity.
  - intros -> He. cbn [Z.eqb negb]. unfold ret, raise. cbn [files stdout stderr].
    rewrite He. reflexivity.
  - intros -> He Hd. cbn [Z.eqb negb]. unfold ret, raise. cbn [files stdout stderr].
    rewrite He, Hd. reflexivity.
  - intros -> He Hd. cbn [Z.eqb negb]. unfold ret, raise. cbn [files stdout stderr].
    rewrite He, Hd. reflexivity.
Qed.

(** X3: [tex_to_qmd] first makes the directory of the output and runs
    the converter there; what follows depends on what the converter
    returns and leaves.  If it returns a status other than 0, the
    note's output is not written: the run exits with status 1,
    the converter's own error text in the diagnostic, and the file
    system is the one the converter left.  If it returns 0 without
    having left its output file, reading that file raises
    [FileNotFoundError] ([IsADirectoryError] if a directory stands in
    its place) and nothing is written.  If it returns 0 and the file is
    there, the temporary file is removed and the note's output is
    written: the front matter (title, date, tags and the math method,
    as the serializer renders them, stripped, between two lines of
    three hyphens and followed by an empty line) and then the converted
    body. *)
Theorem tex_to_qmd_outcome (note : Note) (st : state H)
    (returncode : Z) (err : string) (f' : fs H) :
  run H (mkdir_parents H (files st) (Pathlib.parent (out note))) (pandoc_cmd note)
  = (returncode, err, f') ->
  (returncode <> 0%Z ->
   tex_to_qmd H note st
   = (inl (SystemExit 1),
      mkState f' (stdout st) (stderr st ++ [diagnostic_pandoc note err])%list))
  /\ (returncode = 0%Z -> path_exists H f' (tmp_md_of note) = false ->
      tex_to_qmd H note st
      = (inl (FileNotFoundError (tmp_md_of note)), mkState f' (stdout st) (stderr st)))
  /\ (returncode = 0%Z -> path_exists H f' (tmp_md_of note) = true ->
      is_dir H f' (tmp_md_of note) = true ->
      tex_to_qmd H note st
      = (inl (IsADirectoryError (tmp_md_of note)), mkState f' (stdout st) (stderr st)))
  /\ (returncode = 0%Z -> path_exists H f' (tmp_md_of note) = true ->
      is_dir H f' (tmp_md_of note) = false ->
      tex_to_qmd H note st
      = (inr tt,
         mkState (write_text H (unlink H f' (tmp_md_of note)) (out note)
                    (front_matter H note ++ read_text H f' (tmp_md_of note)))
                 (stdout st) (stderr st))).
Proof. apply tex_to_qmd_run. Qed.


Lemma quiet_bind {A B : Type} (m : M H A) (k : A -> M H B) :
  quiet m -> (forall a, quiet (k a)) -> quiet (bind H m k).
Proof.
  intros Hm Hk st. destruct (Hm st) as (a & st1 & E1 & O1 & R1).
  destruct (Hk a st1) as (b & st2 & E2 & O2 & R2).
  exists b, st2. rewrite (bind_ok H _ _ _ _ _ E1). repeat split; congruence.
Qed.

Lemma quiet_get_files : quiet (get_files H).
Proof. intros st. exists (files st), st. auto. Qed.

Lemma quiet_set_files (f : fs H) : quiet (set_files H f).
Proof. intros st. exists tt, (mkState f (stdout st) (stderr st)). auto. Qed.





Lemma quiet_write_homepage (notes : list Note) :
  Forall (in_repo H) notes -> quiet (write_homepage H notes).
Proof.
  intros Hrepo. unfold write_homepage.
  assert (Hc : exists entries, collect (homepage_line H) (recent_notes notes) = inr entries).
  { assert (Hin : forall n, In n (recent_notes notes) -> in_repo H n).
    { intros n Hn. rewrite Forall_forall in Hrepo. apply Hrepo.
      unfold recent_notes in Hn.
      assert (Hfull : In n (sorted key_ltb note_key true notes)).
      { rewrite <- (firstn_skipn 30). apply in_or_app. now left. }
      exact (Permutation_in _ (sorted_perm key_ltb note_key true notes) Hfull). }
    induction (recent_notes notes) as [|n l IH]; [now exists []|].
    destruct IH as (entries & E); [intros m Hm; apply Hin; now right|].
    assert (Hn : in_repo H n) by (apply Hin; now left).
    cbn [collect]. unfold homepage_line at 1. unfold in_repo in Hn.
    destruct (Pathlib.relative_to (out n) (REPO_ROOT H)); [|congruence].
    rewrite E. eauto. }
  destruct Hc as (entries & ->).
  apply quiet_bind; [apply quiet_get_files|]. intros f. apply quiet_set_files.
Qed.

Lemma quiet_generate_quarto_yml (notes : list Note) :
  notes <> [] -> Forall (in_repo H) notes -> quiet (generate_quarto_yml H notes).
Proof.
  intros Hne Hrepo. unfold generate_quarto_yml.
  rewrite (sidebar_spec H notes Hne Hrepo).
  apply quiet_bind; [apply quiet_get_files|]. intros f. apply quiet_set_files.
Qed.

(** [build_notes_index] reads only. *)
Lemma infer_topic_course_inv (p : Path) (st st' : state H) (tc : string * string) :
  infer_topic_course H p st = (inr tc, st') ->
  st' = st
  /\ exists rel, Pathlib.relative_to p (STAGING_DIR H) = Some rel
       /\ 3 <= List.length rel /\ tc = (nth 0 rel "", nth 1 rel "").
Proof.
  intros E. destruct (Pathlib.relative_to p (STAGING_DIR H)) as [rel|] eqn:Hrel.
  - destruct (Nat.lt_ge_cases (List.length rel) 3) as [Hlt|Hge].
    + rewrite (infer_short H p rel st Hrel Hlt) in E. discriminate.
    + rewrite (infer_deep H p rel st Hrel Hge) in E. injection E as <- <-. eauto.
  - unfold infer_topic_course, bind, of_option in E. rewrite Hrel in E. discriminate.
Qed.

Lemma index_note_inv (p : Path) (st st' : state H) (n : Note) :
  index_note H p st = (inr n, st') -> st' = st /\ indexed_from H p n.
Proof.
  unfold index_note, bind, get_files.
  destruct (infer_topic_course H p st) as [[e|tc] st1] eqn:E; [discriminate|].
  apply infer_topic_course_inv in E as (-> & rel & Hrel & Hlen & ->).
  unfold ret. intros [= <- <-]. split; [reflexivity|].
  unfold indexed_from. cbn [src topic course slug out title fst snd].
  split; [reflexivity|]. split; [exists rel; auto|].
  split; [reflexivity|]. split; [reflexivity|].
  split; [apply safe_segment_not_empty|].
  split; [apply safe_segment_not_empty|apply slugify_not_empty].
Qed.

Lemma build_notes_from_inv (tex_files : list Path) (acc notes : list Note)
    (st st' : state H) :
  build_notes_from H tex_files acc st = (inr notes, st') ->
  st' = st
  /\ exists made, notes = (acc ++ made)%list /\ Forall2 (indexed_from H) tex_files made.
Proof.
  revert acc. induction tex_files as [|p l IH]; intros acc; cbn [build_notes_from].
  - unfold ret. intros [= <- <-]. split; [reflexivity|].
    exists []. now rewrite app_nil_r.
  - unfold bind. destruct (index_note H p st) as [[e|n] st1] eqn:E; [discriminate|].
    apply index_note_inv in E as [-> Hn]. intros E2.
    apply IH in E2 as (-> & made & -> & Hmade). split; [reflexivity|].
    exists (n :: made). rewrite <- app_assoc. split; [reflexivity|]. now constructor.
Qed.

Lemma build_notes_index_inv (tex_files : list Path) (notes : list Note)
    (st st' : state H) :
  build_notes_index H tex_files st = (inr notes, st') ->
  st' = st /\ Forall2 (indexed_from H) tex_files notes.
Proof.
  intros E. apply build_notes_from_inv in E as (-> & made & -> & Hmade). auto.
Qed.

(** X5: when [build_notes_index] returns, it has changed nothing (no
    file, no output), and the registry holds one note per input file,
    in the order of the files: the note's source is the file, its topic
    and course are the sanitized first two components below the staging
    directory, its slug is the sanitized title, its output is
    [notes/<topic>/<course>/<slug>.qmd] below the repository root, and
    topic, course and slug are not empty. *)
Theorem build_notes_index_registry (tex_files : list Path) (notes : list Note)
    (st st' : state H) :
  build_notes_index H tex_files st = (inr notes, st') ->
  st' = st /\ Forall2 (indexed_from H) tex_files notes.
Proof. apply build_notes_index_inv. Qed.

End Run.





Lemma main_without_pandoc_witness :
  main host_without_pandoc (mkState (H:=host_without_pandoc) fs_two_notes [] [])
  = (inl (SystemExit 1),
     with_stderr (mkState (H:=host_without_pandoc) fs_two_notes [] [])
       "ERROR: pandoc not found. Install pandoc and ensure it's on PATH.").
Proof. apply (main_without_pandoc host_without_pandoc). reflexivity. Defined.

Lemma main_without_staging_witness :
  main sample_host (mkState (H:=sample_host) [] [] [])
  = (inl (SystemExit 1),
     with_stderr (mkState (H:=sample_host) [] [] [])
       "ERROR: Missing staging directory: /repo/notes_staging").
Proof. apply (main_without_staging sample_host); reflexivity. Defined.

Lemma tex_to_qmd_outcome_witness :
  tex_to_qmd host_failing_pandoc kepler_note
    (mkState (H:=host_failing_pandoc) fs_two_notes [] [])
  = (inl (SystemExit 1),
     mkState (H:=host_failing_pandoc)
       (((sample_root ++ ["notes"; "physics"; "mechanics"; "."])%list, "")
        :: fs_two_notes) []
       [diagnostic_pandoc kepler_note "bad input"]).
Proof.
  apply (proj1 (tex_to_qmd_outcome host_failing_pandoc kepler_note
                  (mkState (H:=host_failing_pandoc) fs_two_notes [] [])
                  1%Z "bad input"
                  (((sample_root ++ ["notes"; "physics"; "mechanics"; "."])%list, "")
                   :: fs_two_notes) eq_refl)).
  discriminate.
Defined.

Lemma build_notes_index_registry_witness :
  Forall2 (indexed_from sample_host) [newton_file; kepler_file]
    (match build_notes_index sample_host [newton_file; kepler_file]
             (mkState (H:=sample_host) fs_two_notes [] []) with
     | (inr notes, _) => notes
     | _ => []
     end).
Proof.
  destruct (build_notes_index sample_host [newton_file; kepler_file]
              (mkState (H:=sample_host) fs_two_notes [] []))
    as [[e|notes] st'] eqn:E; [vm_compute in E; discriminate|].
  now apply (build_notes_index_registry sample_host _ _ _ _ E).
Defined.

(** X12: the emitters accept every registry that [build_notes_index]
    makes: for the notes of a non-empty list of input files neither
    [generate_quarto_yml] nor [write_homepage] raises, in whatever state
    they run. *)
Theorem emitters_accept_index (H : Host) (tex_files : list Path) (notes : list Note)
    (st st1 st2 : state H) :
  build_notes_index H tex_files st = (inr notes, st1) ->
  tex_files <> [] ->
  (exists st3, generate_quarto_yml H notes st2 = (inr tt, st3))
  /\ (exists st3, write_homepage H notes st2 = (inr tt, st3)).
Proof.
  intros E Hne.
  pose proof (build_notes_index_in_repo H tex_files notes st st1 E) as Hrepo.
  assert (Hnotes : notes <> []).
  { unfold build_notes_index in E. apply build_notes_from_length in E.
    destruct notes; [|discriminate]. destruct tex_files; [congruence|discriminate]. }
  split.
  - destruct (quiet_generate_quarto_yml H notes Hnotes Hrepo st2) as ([] & s & E1 & _).
    eauto.
  - destruct (quiet_write_homepage H notes Hrepo st2) as ([] & s & E1 & _). eauto.
Qed.

Lemma emitters_accept_index_witness :
  exists notes,
    (exists st3, generate_quarto_yml sample_host notes
                   (mkState (H:=sample_host) fs_two_notes [] []) = (inr tt, st3))
    /\ (exists st3, write_homepage sample_host notes
                      (mkState (H:=sample_host) fs_two_notes [] []) = (inr tt, st3)).
Proof.
  destruct (build_notes_index sample_host [newton_file; kepler_file]
              (mkState (H:=sample_host) fs_two_notes [] []))
    as [[e|notes] st'] eqn:E; [vm_compute in E; discriminate|].
  exists notes.
  apply (emitters_accept_index sample_host [newton_file; kepler_file] notes _ _ _ E).
  discriminate.
Defined.

(** * Further properties of the parts *)

Lemma lower_idem (s : string) : Py.lower (Py.lower s) = Py.lower s.
Proof.
  unfold Py.lower. induction s as [|c s IH]; simpl; [reflexivity|].
  rewrite IH. f_equal. apply Ascii.eqb_eq. exact (lower_char_idem c).
Qed.

Lemma strip_idem (s : string) : Py.strip (Py.strip s) = Py.strip s.
Proof. apply strip_by_idem. Qed.

(** ** Tags *)

Lemma index_note_tags (H : Host) (p : Path) (st st' : state H) (n : Note) :
  index_note H p st = (inr n, st') -> Forall clean_tag (tags n).
Proof.
  unfold index_note, bind, get_files.
  destruct (infer_topic_course H p st) as [[e|tc] st1]; [discriminate|].
  unfold ret. intros [= <- _]. cbn [tags].
  apply Forall_forall. intros t Ht. apply filter_In in Ht as [Ht Hne].
  apply in_map_iff in Ht as (t0 & <- & _). split.
  - intros E. rewrite E in Hne. discriminate.
  - apply strip_idem.
Qed.

Lemma build_notes_from_all (H : Host) (P : Note -> Prop) (tex_files : list Path)
    (acc notes : list Note) (st st' : state H) :
  (forall p s s' n, index_note H p s = (inr n, s') -> P n) ->
  Forall P acc ->
  build_notes_from H tex_files acc st = (inr notes, st') ->
  Forall P notes.
Proof.
  intros HP. revert acc st. induction tex_files as [|p l IH]; intros acc st Hacc;
    cbn [build_notes_from].
  - unfold ret. now intros [= <- _].
  - unfold bind. destruct (index_note H p st) as [[e|n] st1] eqn:E; [discriminate|].
    apply IH. apply Forall_app. split; [exact Hacc|].
    constructor; [|constructor]. exact (HP p st st1 n E).
Qed.

(** X6: the tags of every note in the registry are clean: none is
    empty and none has whitespace around it, whatever the [tags] line of
    the document holds. *)
Theorem build_notes_index_tags (H : Host) (tex_files : list Path) (notes : list Note)
    (st st' : state H) :
  build_notes_index H tex_files st = (inr notes, st') ->
  Forall (fun n => Forall clean_tag (tags n)) notes.
Proof.
  apply (build_notes_from_all H (fun n => Forall clean_tag (tags n))).
  - apply index_note_tags.
  - constructor.
Qed.

Lemma build_notes_index_tags_witness :
  Forall (fun n => Forall clean_tag (tags n))
    (match build_notes_index sample_host [newton_file; kepler_file]
             (mkState (H:=sample_host) fs_two_notes [] []) with
     | (inr notes, _) => notes
     | _ => []
     end).
Proof.
  destruct (build_notes_index sample_host [newton_file; kepler_file]
              (mkState (H:=sample_host) fs_two_notes [] []))
    as [[e|notes] st'] eqn:E; [vm_compute in E; discriminate|].
  now apply (build_notes_index_tags sample_host _ _ _ _ E).
Defined.

(** ** Dates *)

Lemma date_min_valid : Datetime.valid 1 1 1 = true.
Proof. reflexivity. Qed.

(** X7: whatever the text, [parse_note_date] returns a date of the
    calendar (year 1 to 9999, a month, a day the month has), and
    whitespace around the text does not matter: the text and its
    stripped form parse alike. *)
Theorem parse_note_date_robust (d : option string) :
  Datetime.valid (Datetime.year (parse_note_date d))
    (Datetime.month (parse_note_date d)) (Datetime.day (parse_note_date d)) = true
  /\ (forall s, parse_note_date (Some s) = parse_note_date (Some (Py.strip s))).
Proof.
  split.
  - destruct (parse_note_date_cases d) as [->|Hv]; [exact date_min_valid|exact Hv].
  - intros s. destruct s as [|c s]; [reflexivity|].
    unfold parse_note_date at 1.
    destruct (Py.strip (String c s)) as [|c' s'] eqn:E; [reflexivity|].
    unfold parse_note_date. rewrite <- E. now rewrite strip_idem.
Qed.

(** ** Sanitized names *)

Lemma slug_char_safe (c : ascii) : slug_char c = true -> path_safe_char c = true.
Proof. each_char c. Qed.

Lemma segment_char_safe (c : ascii) : segment_char c = true -> path_safe_char c = true.
Proof. each_char c. Qed.

(** X8: a sanitized name cannot leave its directory: neither [slugify]
    nor [safe_segment] returns a text with a slash, a backslash, a dot
    or whitespace, so topic, course and file name are single, plain
    components of the output path. *)
Theorem sanitized_path_safe (s : string) :
  Py.forallb path_safe_char (slugify s) = true
  /\ Py.forallb path_safe_char (safe_segment s) = true.
Proof.
  split.
  - apply (forallb_impl slug_char); [exact slug_char_safe|apply slugify_shape].
  - apply (forallb_impl segment_char); [exact segment_char_safe|apply safe_segment_shape].
Qed.

(** X9: [slugify] ignores letter case and the whitespace around its
    input: a title, its lowercase form and its stripped form have the
    same slug.  [safe_segment] ignores the whitespace around its input
    as well. *)
Theorem sanitizers_ignore_case_and_margin (s : string) :
  slugify (Py.lower s) = slugify s
  /\ slugify (Py.strip s) = slugify s
  /\ safe_segment (Py.strip s) = safe_segment s.
Proof.
  unfold slugify, safe_segment. split; [|split].
  - now rewrite !lower_strip, lower_idem.
  - now rewrite strip_idem.
  - now rewrite strip_idem.
Qed.

(** X10: a clean name is kept as it is: [safe_segment] returns its
    input when that is a non-empty text of word characters and hyphens,
    upper case included, and [slugify] returns its input when that is a
    non-empty text of lowercase word characters other than the
    underscore and of single hyphens within it. *)
Theorem sanitizers_keep_clean_names (s : string) :
  s <> "" ->
  (Py.forallb segment_char s = true -> safe_segment s = s)
  /\ (Py.forallb slug_char s = true -> no_double_hyphen s = true ->
      Py.strip_by is_hyphen s = s -> slugify s = s).
Proof.
  intros Hne. split.
  - intros Hc. rewrite safe_segment_as_steps. unfold safe_segment_steps.
    fold (segment_core s). rewrite (segment_core_fixed s Hc). now destruct s.
  - intros Hc Hd Ht. rewrite slugify_as_steps. unfold slugify_steps.
    fold (slug_core s). rewrite (slug_core_fixed s Hc Hd Ht). now destruct s.
Qed.

Lemma sanitizers_keep_clean_names_witness :
  safe_segment "MATH_2210-Linear" = "MATH_2210-Linear"
  /\ slugify "newtons-laws-2" = "newtons-laws-2".
Proof.
  split.
  - apply (proj1 (sanitizers_keep_clean_names "MATH_2210-Linear" ltac:(discriminate))).
    reflexivity.
  - apply (proj2 (sanitizers_keep_clean_names "newtons-laws-2" ltac:(discriminate)));
      reflexivity.
Defined.

(** ** Metadata *)

Lemma meta_entry_shape (line k v : string) :
  meta_entry line = Some (k, v) ->
  k <> "" /\ Py.lower k = k /\ Py.strip v = v.
Proof.
  unfold meta_entry.
  destruct (Py.lstrip line) as [|c rest]; [discriminate|].
  destruct (Ascii.eqb c "%"); [|discriminate]. cbv zeta.
  destruct (Re.run_length meta_key_char (Py.lstrip rest)) as [|n] eqn:En; [discriminate|].
  destruct (Py.lstrip (Py.drop (S n) (Py.lstrip rest))) as [|d value]; [discriminate|].
  destruct (Ascii.eqb d ":"); [|discriminate].
  intros [= <- <-]. split; [|split].
  - destruct (Py.lstrip rest); [discriminate|]. discriminate.
  - apply lower_idem.
  - apply strip_idem.
Qed.

Lemma meta_entries_shape (lines : list string) (k v : string) :
  In (k, v) (meta_entries lines) -> k <> "" /\ Py.lower k = k /\ Py.strip v = v.
Proof.
  unfold meta_entries. rewrite in_flat_map. intros (line & _ & Hin).
  destruct (meta_entry line) as [[k' v']|] eqn:E; [|contradiction].
  destruct Hin as [[= -> ->]|[]]. now apply meta_entry_shape in E.
Qed.

Lemma last_value_in (entries : list (string * string)) (k v : string) :
  last_value entries k = Some v -> In (k, v) entries.
Proof.
  unfold last_value. destruct (find _ (rev entries)) as [[k' v']|] eqn:E; [|discriminate].
  intros [= <-]. apply find_some in E as [Hin Hk]. cbn [fst] in Hk.
  apply String.eqb_eq in Hk. subst k'. now apply in_rev.
Qed.

(** X11: in the mapping that [parse_tex_metadata] returns every key is
    non-empty and in lowercase, so that a line [% Title: ...] is found
    under [title], and every value is free of whitespace around it. *)
Theorem parse_tex_metadata_normal (text k v : string) :
  Dict.get (parse_tex_metadata text) k = Some v ->
  k <> "" /\ Py.lower k = k /\ Py.strip v = v.
Proof.
  intros Hget. unfold parse_tex_metadata in Hget.
  rewrite (scan_metadata_entries _ _ (file_lines_ok text)) in Hget.
  rewrite mapping_get in Hget.
  destruct (last_value (meta_entries (Py.file_lines text)) k) as [v'|] eqn:E;
    [|discriminate].
  injection Hget as ->. apply last_value_in in E.
  now apply meta_entries_shape in E.
Qed.

Lemma parse_tex_metadata_normal_witness :
  Dict.get (parse_tex_metadata sample_document) "title" = Some "Laws of Motion"
  /\ Py.lower "title" = "title" /\ Py.strip "Laws of Motion" = "Laws of Motion".
Proof.
  split; [reflexivity|].
  apply (parse_tex_metadata_normal sample_document "title" "Laws of Motion").
  reflexivity.
Defined.

(** ** Listings *)

(** X13: a registry of at most 30 notes is listed whole on the
    homepage: the recent-notes listing is a rearrangement of the
    registry, every note once. *)
Theorem recent_notes_all (notes : list Note) :
  List.length notes <= 30 -> Permutation (recent_notes notes) notes.
Proof.
  intros Hlen. unfold recent_notes.
  rewrite firstn_all2 by (rewrite sorted_length; exact Hlen).
  apply sorted_perm.
Qed.

Lemma recent_notes_all_witness : Permutation (recent_notes sample_registry) sample_registry.
Proof. apply recent_notes_all. simpl. lia. Defined.

Lemma nav_groups_locate (notes : list Note) (n : Note) :
  In n notes ->
  In (topic n, nav_courses notes (topic n)) (nav_groups notes)
  /\ In (course n, sorted key_ltb note_key false (group_of notes (topic n) (course n)))
       (nav_courses notes (topic n))
  /\ In n (sorted key_ltb note_key false (group_of notes (topic n) (course n))).
Proof.
  intros Hn. split; [|split].
  - unfold nav_groups. apply in_map_iff. exists (topic n). split; [reflexivity|].
    apply sorted_keys_in, build_tree_topics. now exists n.
  - unfold nav_courses. apply in_map_iff. exists (course n). split; [reflexivity|].
    apply sorted_keys_in, build_tree_courses. now exists n.
  - apply (Permutation_in _ (Permutation_sym (sorted_perm key_ltb note_key false _))).
    unfold group_of. apply filter_In. split; [exact Hn|].
    now rewrite !String.eqb_refl.
Qed.

(** X14: in the sidebar of a non-empty registry every note stands
    under its own topic and course: the section of its topic holds the
    section of its course, which lists the note; and within a course
    the notes of equal sort key keep the order of the registry. *)
Theorem sidebar_places_notes (H : Host) (notes : list Note) :
  notes <> [] -> Forall (in_repo H) notes ->
  exists groups,
    sidebar H notes = inr (home_link :: List.map (render_topic H) groups)
    /\ (forall n, In n notes ->
          exists courses g,
            In (topic n, courses) groups /\ In (course n, g) courses /\ In n g)
    /\ (forall t courses c g k,
          In (t, courses) groups -> In (c, g) courses ->
          List.filter (has_key key_ltb note_key k) g
          = List.filter (has_key key_ltb note_key k) (group_of notes t c)).
Proof.
  intros Hne Hrepo. exists (nav_groups notes).
  split; [now apply sidebar_spec|]. split.
  - intros n Hn. destruct (nav_groups_locate notes n Hn) as (H1 & H2 & H3). eauto.
  - intros t courses c g k Ht Hc. apply nav_groups_in in Ht. subst courses.
    apply nav_courses_in in Hc. subst g. apply sorted_stable; key_order.
Qed.

Lemma sidebar_places_notes_witness :
  exists groups,
    sidebar sample_host sample_registry
    = inr (home_link :: List.map (render_topic sample_host) groups)
    /\ (forall n, In n sample_registry ->
          exists courses g,
            In (topic n, courses) groups /\ In (course n, g) courses /\ In n g).
Proof.
  destruct (sidebar_places_notes sample_host sample_registry)
    as (groups & Hs & Hl & _);
    [discriminate|exact sample_registry_in_repo|].
  exists groups. auto.
Defined.

(** ** Output paths *)

Lemma length_append (a t : string) :
  String.length (a ++ t) = String.length a + String.length t.
Proof. induction a as [|c a IH]; simpl; [reflexivity|]. now rewrite IH. Qed.

Lemma append_inj_l (a b t : string) : a ++ t = b ++ t -> a = b.
Proof.
  intros E.
  assert (El : String.length a = String.length b).
  { apply (f_equal String.length) in E. rewrite !length_append in E. lia. }
  revert b E El. induction a as [|c a IH]; intros [|d b] E El; simpl in El;
    try discriminate; [reflexivity|].
  simpl in E. injection E as -> E. f_equal. apply IH; [exact E|lia].
Qed.

Lemma index_note_made (H : Host) (p : Path) (st st' : state H) (n : Note) :
  index_note H p st = (inr n, st') -> indexed_from H p n.
Proof. intros E. now apply index_note_inv in E. Qed.

Lemma slugify_of_lowered (a b : string) :
  Py.lower (Py.strip a) = Py.lower (Py.strip b) -> slugify a = slugify b.
Proof. unfold slugify. now intros ->. Qed.

(** X15: two notes of a registry have the same output path exactly
    when their topics, their courses and the slugs of their titles
    agree.  The registry does not tell such notes apart: two notes of
    one course whose titles differ only in letter case or in the
    whitespace around them share one output path. *)
Theorem registry_output_paths (H : Host) (tex_files : list Path) (notes : list Note)
    (st st' : state H) (n1 n2 : Note) :
  build_notes_index H tex_files st = (inr notes, st') ->
  In n1 notes -> In n2 notes ->
  (out n1 = out n2
   <-> topic n1 = topic n2 /\ course n1 = course n2
       /\ slugify (title n1) = slugify (title n2))
  /\ (topic n1 = topic n2 -> course n1 = course n2 ->
      Py.lower (Py.strip (title n1)) = Py.lower (Py.strip (title n2)) ->
      out n1 = out n2).
Proof.
  intros E H1 H2.
  assert (Hall : Forall (fun n => exists p, indexed_from H p n) notes).
  { apply (build_notes_from_all H _ tex_files [] notes st st'); [|constructor|exact E].
    intros p s s' n En. exists p. exact (index_note_made H p s s' n En). }
  rewrite Forall_forall in Hall.
  destruct (Hall n1 H1) as (p1 & _ & _ & Hs1 & Ho1 & _).
  destruct (Hall n2 H2) as (p2 & _ & _ & Hs2 & Ho2 & _).
  assert (Hiff : out n1 = out n2
                 <-> topic n1 = topic n2 /\ course n1 = course n2
                     /\ slugify (title n1) = slugify (title n2)).
  { rewrite Ho1, Ho2, Hs1, Hs2. unfold Pathlib.div. split.
    - intros Eo. apply app_inj_tail in Eo as [Eo Ef].
      apply app_inj_tail in Eo as [Eo Ec]. apply app_inj_tail in Eo as [_ Et].
      apply append_inj_l in Ef. auto.
    - intros (-> & -> & ->). reflexivity. }
  split; [exact Hiff|].
  intros Et Ec El. apply Hiff. split; [exact Et|]. split; [exact Ec|].
  now apply slugify_of_lowered.
Qed.

Lemma registry_output_paths_witness :
  exists n1 n2,
    build_notes_index sample_host [newton_file; kepler_file]
      (mkState (H:=sample_host) fs_same_title [] [])
    = (inr [n1; n2], mkState (H:=sample_host) fs_same_title [] [])
    /\ src n1 <> src n2 /\ out n1 = out n2.
Proof.
  destruct (build_notes_index sample_host [newton_file; kepler_file]
              (mkState (H:=sample_host) fs_same_title [] []))
    as [[e|notes] st'] eqn:E; [vm_compute in E; discriminate|].
  pose proof E as E'. vm_compute in E'. injection E' as <- <-.
  eexists _, _. split; [reflexivity|]. split; [discriminate|].
  apply (proj2 (registry_output_paths sample_host _ _ _ _ _ _ E
                  (or_introl eq_refl) (or_intror (or_introl eq_refl))));
    reflexivity.
Defined.

(** ** The title taken from the file name *)

Lemma spaced_map (s : string) :
  Py.replace_char "-" " " (Py.replace_char "_" " " s) = Py.map spaced_char s.
Proof.
  unfold Py.replace_char. induction s as [|c s IH]; simpl; [reflexivity|].
  now rewrite IH.
Qed.

Lemma spaced_keep (c : ascii) :
  word_space_hyphen (spaced_char c) = word_space_hyphen c.
Proof. each_char c. Qed.

Lemma spaced_separator (c : ascii) :
  word_separator (spaced_char c) = word_separator c.
Proof. each_char c. Qed.

Lemma spaced_other (c : ascii) : word_separator c = false -> spaced_char c = c.
Proof. each_char c. Qed.

Lemma lower_spaced (c : ascii) :
  Py.lower_char (spaced_char c) = spaced_char (Py.lower_char c).
Proof. each_char c. Qed.

Lemma lower_upper (c : ascii) : Py.lower_char (Py.upper_char c) = Py.lower_char c.
Proof. each_char c. Qed.

Lemma lower_lower (c : ascii) : Py.lower_char (Py.lower_char c) = Py.lower_char c.
Proof. each_char c. Qed.

Lemma space_separator (c : ascii) : Py.isspace c = true -> word_separator c = true.
Proof. each_char c. Qed.

Lemma space_kept (c : ascii) : Py.isspace c = true -> word_space_hyphen c = true.
Proof. each_char c. Qed.

Lemma ascii_spaced (c : ascii) :
  (Py.ord c <? 128) = true -> negb (Py.ord (spaced_char c) =? 223) = true.
Proof. each_char c. Qed.

Lemma lower_map_spaced (s : string) :
  Py.lower (Py.map spaced_char s) = Py.map spaced_char (Py.lower s).
Proof.
  unfold Py.lower. induction s as [|c s IH]; simpl; [reflexivity|].
  now rewrite IH, lower_spaced.
Qed.

Lemma lower_title (b : bool) (s : string) :
  Py.forallb (fun c => negb (Py.ord c =? 223)) s = true ->
  Py.lower (Py.title_go b s) = Py.lower s.
Proof.
  unfold Py.lower. revert b. induction s as [|c s IH]; intros b; [reflexivity|].
  cbn [Py.forallb Py.title_go]. intros Hs. apply andb_true_iff in Hs as [Hc Hs].
  apply negb_true_iff in Hc. cbv zeta. destruct b.
  - cbn [Py.map]. now rewrite lower_lower, (IH _ Hs).
  - rewrite Hc. cbn [Py.map]. now rewrite lower_upper, (IH _ Hs).
Qed.

(** Two squeezes in a row are one. *)
Lemma squeeze_twice (s : string) (a b : bool) :
  (a = true -> b = true) ->
  squeeze_go is_hyphen "-" b (squeeze_go space_or_underscore "-" a s)
  = squeeze_go word_separator "-" b s.
Proof.
  revert a b. induction s as [|c s IH]; intros a b Hab; [reflexivity|].
  cbn [squeeze_go]. unfold word_separator at 1.
  destruct (space_or_underscore c) eqn:Hsu; cbn [orb].
  - destruct a.
    + rewrite (Hab eq_refl). now apply IH.
    + change ("-" ++ squeeze_go space_or_underscore "-" true s)
        with (String "-" (squeeze_go space_or_underscore "-" true s)).
      cbn [squeeze_go]. change (is_hyphen "-") with true. cbv iota.
      destruct b; now rewrite IH.
  - cbn [squeeze_go]. destruct (is_hyphen c).
    + destruct b; now rewrite IH.
    + rewrite IH; [reflexivity|discriminate].
Qed.

Lemma hyphenated_cons (b : bool) (c : ascii) (s : string) :
  hyphenated b (String c s)
  = if word_space_hyphen c then
      if word_separator c then
        if b then hyphenated true s else String "-" (hyphenated true s)
      else String c (hyphenated false s)
    else hyphenated b s.
Proof.
  unfold hyphenated. cbn [Py.filter].
  destruct (word_space_hyphen c); [|reflexivity].
  cbn [squeeze_go]. destruct (word_separator c); [|reflexivity].
  now destruct b.
Qed.

Lemma hyphenated_spaced (s : string) (b : bool) :
  hyphenated b (Py.map spaced_char s) = hyphenated b s.
Proof.
  revert b. induction s as [|c s IH]; intros b; [reflexivity|].
  cbn [Py.map]. rewrite !hyphenated_cons, spaced_keep, spaced_separator.
  destruct (word_space_hyphen c); [|apply IH].
  destruct (word_separator c) eqn:Hsep.
  - now rewrite IH.
  - now rewrite (spaced_other c Hsep), IH.
Qed.

Lemma hyphenated_flag (s : string) (b : bool) :
  Py.lstrip_by is_hyphen (hyphenated b s) = Py.lstrip_by is_hyphen (hyphenated true s).
Proof.
  destruct s as [|c s]; [reflexivity|]. rewrite !hyphenated_cons.
  destruct (word_space_hyphen c); [|].
  - destruct (word_separator c); [|reflexivity]. now destruct b.
  - revert b. induction s as [|d s IH]; intros b; [reflexivity|].
    rewrite !hyphenated_cons. destruct (word_space_hyphen d); [|apply IH].
    destruct (word_separator d); [|reflexivity]. now destruct b.
Qed.

Lemma hyphenated_lstrip (s : string) (b : bool) :
  Py.lstrip_by is_hyphen (hyphenated b (Py.lstrip s))
  = Py.lstrip_by is_hyphen (hyphenated b s).
Proof.
  unfold Py.lstrip. induction s as [|c s IH]; [reflexivity|].
  cbn [Py.lstrip_by]. destruct (Py.isspace c) eqn:Hws; [|reflexivity].
  rewrite IH, hyphenated_cons, (space_kept c Hws), (space_separator c Hws).
  destruct b; [reflexivity|]. cbn [Py.lstrip_by]. change (is_hyphen "-") with true.
  cbv iota. apply hyphenated_flag.
Qed.

Lemma hyphenated_blank (s : string) :
  Py.forallb Py.isspace s = true -> hyphenated true s = "".
Proof.
  induction s as [|c s IH]; [reflexivity|]. cbn [Py.forallb]. intros Hs.
  apply andb_true_iff in Hs as [Hc Hs].
  now rewrite hyphenated_cons, (space_kept c Hc), (space_separator c Hc), IH.
Qed.

Lemma hyphenated_blank_rstrip (s : string) (b : bool) :
  Py.forallb Py.isspace s = true -> Py.rstrip_by is_hyphen (hyphenated b s) = "".
Proof.
  intros Hs. destruct s as [|c s]; [reflexivity|].
  cbn [Py.forallb] in Hs. apply andb_true_iff in Hs as [Hc Hs].
  rewrite hyphenated_cons, (space_kept c Hc), (space_separator c Hc),
    (hyphenated_blank s Hs).
  now destruct b.
Qed.

Lemma rstrip_empty_all (p : ascii -> bool) (s : string) :
  Py.rstrip_by p s = "" -> Py.forallb p s = true.
Proof.
  induction s as [|c s IH]; [reflexivity|]. cbn [Py.rstrip_by Py.forallb].
  destruct (Py.rstrip_by p s); [|discriminate].
  destruct (p c); [|discriminate]. intros _. now rewrite IH.
Qed.

Lemma rstrip_cons (p : ascii -> bool) (c : ascii) (u u' : string) :
  Py.rstrip_by p u = Py.rstrip_by p u' ->
  Py.rstrip_by p (String c u) = Py.rstrip_by p (String c u').
Proof. cbn [Py.rstrip_by]. now intros ->. Qed.

Lemma hyphenated_rstrip (s : string) (b : bool) :
  Py.rstrip_by is_hyphen (hyphenated b (Py.rstrip_by Py.isspace s))
  = Py.rstrip_by is_hyphen (hyphenated b s).
Proof.
  revert b. induction s as [|c s IH]; intros b; [reflexivity|].
  cbn [Py.rstrip_by]. destruct (Py.rstrip_by Py.isspace s) as [|d r] eqn:Er.
  - apply rstrip_empty_all in Er. destruct (Py.isspace c) eqn:Hws.
    + symmetry. apply hyphenated_blank_rstrip. cbn [Py.forallb]. now rewrite Hws, Er.
    + rewrite !hyphenated_cons. destruct (word_space_hyphen c).
      * destruct (word_separator c).
        -- now rewrite (hyphenated_blank s Er).
        -- apply rstrip_cons. now rewrite (hyphenated_blank_rstrip s false Er).
      * now rewrite (hyphenated_blank_rstrip s b Er).
  - rewrite (hyphenated_cons b c (String d r)), (hyphenated_cons b c s).
    destruct (word_space_hyphen c); [|apply IH].
    destruct (word_separator c).
    + destruct b; [apply IH|]. apply rstrip_cons, IH.
    + apply rstrip_cons, IH.
Qed.

Lemma strip_sides (p : ascii -> bool) (s : string) :
  Py.lstrip_by p (Py.rstrip_by p s) = Py.rstrip_by p (Py.lstrip_by p s).
Proof.
  induction s as [|c s IH]; [reflexivity|]. cbn [Py.lstrip_by Py.rstrip_by].
  destruct (p c) eqn:Hp.
  - rewrite <- IH. destruct (Py.rstrip_by p s) as [|d r]; [reflexivity|].
    cbn [Py.lstrip_by]. now rewrite Hp.
  - cbn [Py.rstrip_by].
    destruct (Py.rstrip_by p s) as [|d r]; rewrite ?Hp; cbn [Py.lstrip_by];
      now rewrite Hp.
Qed.

(** The core of a slug, in one pass. *)
Lemma slug_core_hyphenated (s : string) :
  slug_core s = Py.strip_by is_hyphen (hyphenated false (Py.lower s)).
Proof.
  unfold slug_core, squeeze. rewrite squeeze_twice by auto.
  fold (hyphenated false (Py.strip (Py.lower s))).
  unfold Py.strip. unfold Py.strip_by.
  rewrite <- (strip_sides is_hyphen
                (hyphenated false (Py.rstrip_by Py.isspace (Py.lstrip_by Py.isspace (Py.lower s))))).
  rewrite hyphenated_rstrip. rewrite (strip_sides is_hyphen). f_equal.
  apply (hyphenated_lstrip (Py.lower s) false).
Qed.

Lemma slugify_core (s : string) :
  slugify s = match slug_core s with EmptyString => "note" | String c r => String c r end.
Proof. rewrite slugify_as_steps. unfold slugify_steps. fold (slug_core s). now destruct (slug_core s). Qed.

Lemma slugify_stem_title (s : string) :
  ascii_only s = true ->
  slugify (Py.title (Py.replace_char "-" " " (Py.replace_char "_" " " s))) = slugify s.
Proof.
  intros Ha. rewrite !slugify_core.
  assert (E : slug_core (Py.title (Py.replace_char "-" " " (Py.replace_char "_" " " s)))
              = slug_core s).
  { rewrite !slug_core_hyphenated, spaced_map. unfold Py.title.
    rewrite lower_title.
    - now rewrite lower_map_spaced, hyphenated_spaced.
    - clear -Ha. unfold ascii_only in Ha. induction s as [|c s IH]; [reflexivity|].
      cbn [Py.forallb Py.map] in *. apply andb_true_iff in Ha as [Hc Hs].
      now rewrite (ascii_spaced c Hc), IH. }
  now rewrite E.
Qed.

Lemma index_note_untitled (H : Host) (p : Path) (st st' : state H) (n : Note) :
  index_note H p st = (inr n, st') ->
  untitled H (files st) p -> ascii_only (Pathlib.stem p) = true ->
  title n = stem_title p /\ slug n = slugify (Pathlib.stem p).
Proof.
  unfold index_note, bind, get_files, untitled.
  destruct (infer_topic_course H p st) as [[e|tc] st1]; [discriminate|].
  unfold ret. intros [= <- _] Hu Ha. cbn [title slug]. rewrite Hu.
  cbn [Py.or_else]. split; [reflexivity|]. now apply slugify_stem_title.
Qed.

Lemma build_notes_from_pairs (H : Host) (R : Path -> Note -> Prop)
    (tex_files : list Path) (acc notes : list Note) (st st' : state H) :
  (forall p s' n, index_note H p st = (inr n, s') -> R p n) ->
  build_notes_from H tex_files acc st = (inr notes, st') ->
  exists made, notes = (acc ++ made)%list /\ Forall2 R tex_files made.
Proof.
  intros HR. revert acc. induction tex_files as [|p l IH]; intros acc;
    cbn [build_notes_from].
  - unfold ret. intros [= <- _]. exists []. now rewrite app_nil_r.
  - unfold bind. destruct (index_note H p st) as [[e|n] st1] eqn:E; [discriminate|].
    pose proof (HR p st1 n E) as Hn. apply index_note_inv in E as [-> _].
    intros E2. apply IH in E2 as (made & -> & Hmade).
    exists (n :: made). rewrite <- app_assoc. split; [reflexivity|]. now constructor.
Qed.

(** X17: a note without a title line (or with an empty title) whose
    file has a stem of ASCII characters is named after its file: its
    title is the stem with underscores and hyphens as blanks, in title
    case, and its slug is the slug of the stem itself. *)
Theorem untitled_notes_slug (H : Host) (tex_files : list Path) (notes : list Note)
    (st st' : state H) :
  build_notes_index H tex_files st = (inr notes, st') ->
  Forall2 (fun p n =>
             untitled H (files st) p -> ascii_only (Pathlib.stem p) = true ->
             title n = stem_title p /\ slug n = slugify (Pathlib.stem p))
    tex_files notes.
Proof.
  intros E.
  apply (build_notes_from_pairs H
           (fun p n => untitled H (files st) p -> ascii_only (Pathlib.stem p) = true ->
                       title n = stem_title p /\ slug n = slugify (Pathlib.stem p)))
    in E as (made & -> & Hmade); [exact Hmade|].
  intros p s' n En. exact (index_note_untitled H p st s' n En).
Qed.

Lemma untitled_notes_slug_witness :
  exists n1 n2,
    build_notes_index sample_host [newton_file; kepler_file]
      (mkState (H:=sample_host) fs_two_notes [] [])
    = (inr [n1; n2], mkState (H:=sample_host) fs_two_notes [] [])
    /\ title n2 = "Kepler Laws" /\ slug n2 = "kepler-laws".
Proof.
  destruct (build_notes_index sample_host [newton_file; kepler_file]
              (mkState (H:=sample_host) fs_two_notes [] []))
    as [[e|notes] st'] eqn:E; [vm_compute in E; discriminate|].
  pose proof (untitled_notes_slug sample_host _ _ _ _ E) as Hall.
  pose proof E as E'. vm_compute in E'. injection E' as <- <-.
  eexists _, _. split; [reflexivity|].
  inversion Hall as [|p1 m1 l1 r1 _ Hrest]; subst.
  inversion Hrest as [|p2 m2 l2 r2 Hk _]; subst.
  destruct Hk as [Ht Hs]; [reflexivity|reflexivity|].
  split; [exact Ht|exact Hs].
Defined.
